(** * Ticket extraction and guest reconciliation: a shallow embedding

    This development embeds the two batch programs of the repository

    - [_1_ticket_automation_withoutapi.py]: classification of an OCR
      transcript, extraction of the booking reference, of the passenger
      names and of the flight details, the merge with the record
      fetched from the PNR lookup, the rows appended to the ticket sheet,
      and the run over the files of the folder;
    - [_2_name_automation.py]: name normalisation, fuzzy matching against
      the guest registry, and the two-step suggest / commit workflow over
      the ticket sheet and the [Master] sheet;

    and proves properties of them.

    ** Modelling conventions

    - A Python [str] is a sequence of Unicode code points: [text] is
      [list N].  Literals are written [str "..."], which decodes the UTF-8
      bytes of a Rocq string.
    - [\s], [str.strip], [str.split] and [str.isspace] use Python's exact
      whitespace set.  Case mapping ([lower], [upper], [title],
      [re.IGNORECASE]) and the classes [\d], [\w] and [\b] are modelled on
      the ASCII repertoire: a code point above 127 is a caseless symbol that
      is neither a digit nor a word character.  The model is therefore exact
      on transcripts whose non-ASCII characters are punctuation, arrows,
      currency signs and the like.
    - Regular expressions are values of [regex], interpreted by a
      backtracking matcher that enumerates the matches at a position in
      Python's priority order; [re.search], [re.findall] and [re.sub] are
      built on it.
    - A Python exception is the [Raise] branch of [result].
    - The services the programs call (the OCR, the PNR lookup, [dateutil],
      [rapidfuzz], the spreadsheet) are parameters or explicit state. *)

From Stdlib Require Import String Ascii NArith ZArith QArith Lia Bool Arith DecimalString List.
From Stdlib Require Import Permutation Sorted.
Import ListNotations.

Close Scope Q_scope.
Open Scope nat_scope.

(** ** Text *)

Definition text := list N.

(** UTF-8 decoding of a byte sequence into code points. *)
Fixpoint utf8_decode (l : list N) : text :=
  match l with
  | [] => []
  | b :: tl =>
      if (b <? 128)%N then b :: utf8_decode tl
      else if (b <? 224)%N then
        match tl with
        | c1 :: tl1 => ((b - 192) * 64 + (c1 - 128))%N :: utf8_decode tl1
        | [] => []
        end
      else if (b <? 240)%N then
        match tl with
        | c1 :: c2 :: tl2 =>
            ((b - 224) * 4096 + (c1 - 128) * 64 + (c2 - 128))%N :: utf8_decode tl2
        | _ => []
        end
      else
        match tl with
        | c1 :: c2 :: c3 :: tl3 =>
            ((b - 240) * 262144 + (c1 - 128) * 4096 + (c2 - 128) * 64 + (c3 - 128))%N
              :: utf8_decode tl3
        | _ => []
        end
  end.

Definition str (s : string) : text :=
  utf8_decode (map N_of_ascii (list_ascii_of_string s)).

Fixpoint text_eqb (a b : text) : bool :=
  match a, b with
  | [], [] => true
  | x :: a', y :: b' => (x =? y)%N && text_eqb a' b'
  | _, _ => false
  end.

(** *** Character classes *)

Definition in_range (lo hi c : N) : bool := ((lo <=? c) && (c <=? hi))%N.

Definition is_digit (c : N) : bool := in_range 48 57 c.
Definition is_upper (c : N) : bool := in_range 65 90 c.
Definition is_lower (c : N) : bool := in_range 97 122 c.
Definition is_alpha (c : N) : bool := is_upper c || is_lower c.
Definition is_word (c : N) : bool := is_alpha c || is_digit c || (c =? 95)%N.

(** Python's whitespace: [str.isspace] on one character, and [\s]. *)
Definition is_space (c : N) : bool :=
  in_range 9 13 c || in_range 28 32 c || (c =? 133)%N || (c =? 160)%N
  || (c =? 5760)%N || in_range 8192 8202 c || in_range 8232 8233 c
  || (c =? 8239)%N || (c =? 8287)%N || (c =? 12288)%N.

Definition lower_char (c : N) : N := if is_upper c then (c + 32)%N else c.
Definition upper_char (c : N) : N := if is_lower c then (c - 32)%N else c.

(** *** The [str] methods the programs use *)

Definition lower (t : text) : text := map lower_char t.
Definition upper (t : text) : text := map upper_char t.

(** [t.startswith(p)] *)
Fixpoint startswith (t p : text) {struct p} : bool :=
  match p, t with
  | [], _ => true
  | a :: p', b :: t' => (a =? b)%N && startswith t' p'
  | _ :: _, [] => false
  end.

(** [w in t] *)
Fixpoint py_in (w t : text) : bool :=
  startswith t w ||
  match t with
  | [] => false
  | _ :: t' => py_in w t'
  end.

Fixpoint lstrip (t : text) : text :=
  match t with
  | c :: t' => if is_space c then lstrip t' else t
  | [] => []
  end.

Definition rstrip (t : text) : text := rev (lstrip (rev t)).

(** [t.strip()] *)
Definition strip (t : text) : text := rstrip (lstrip t).

(** [t.replace(old, new)] for a non-empty [old]: non-overlapping
    occurrences, left to right.  [skip] counts the characters of an
    occurrence still to be dropped. *)
Fixpoint replace_from (old new : text) (skip : nat) (t : text) : text :=
  match t with
  | [] => []
  | c :: t' =>
      match skip with
      | S k => replace_from old new k t'
      | O =>
          if startswith t old
          then new ++ replace_from old new (pred (length old)) t'
          else c :: replace_from old new 0 t'
      end
  end.

Definition replace (t old new : text) : text := replace_from old new 0 t.

(** [t.title()]: a cased character is upper-cased when the previous
    character is uncased, lower-cased otherwise. *)
Fixpoint title_from (prev_cased : bool) (t : text) : text :=
  match t with
  | [] => []
  | c :: t' =>
      (if prev_cased then lower_char c else upper_char c)
        :: title_from (is_alpha c) t'
  end.

Definition title (t : text) : text := title_from false t.

(** [t.split()]: the maximal runs of non-whitespace characters. *)
Fixpoint split_from (cur : text) (t : text) : list text :=
  match t with
  | [] => match cur with [] => [] | _ => [rev cur] end
  | c :: t' =>
      if is_space c
      then match cur with [] => split_from [] t' | _ => rev cur :: split_from [] t' end
      else split_from (c :: cur) t'
  end.

Definition split (t : text) : list text := split_from [] t.

(** Line boundaries of [str.splitlines]. *)
Definition is_linebreak (c : N) : bool :=
  in_range 10 13 c || in_range 28 30 c || (c =? 133)%N || in_range 8232 8233 c.

(** [t.splitlines()]: [\r\n] counts as one boundary, and a final boundary
    does not open an empty last line. *)
Fixpoint splitlines_from (cur : text) (t : text) : list text :=
  match t with
  | [] => match cur with [] => [] | _ => [rev cur] end
  | c :: t' =>
      if is_linebreak c then
        match c, t' with
        | 13%N, 10%N :: t'' => rev cur :: splitlines_from [] t''
        | _, _ => rev cur :: splitlines_from [] t'
        end
      else splitlines_from (c :: cur) t'
  end.

Definition splitlines (t : text) : list text := splitlines_from [] t.

(** [sep.join(parts)] *)
Fixpoint join (sep : text) (parts : list text) : text :=
  match parts with
  | [] => []
  | [p] => p
  | p :: rest => p ++ sep ++ join sep rest
  end.

(** ** Regular expressions *)

(** An item of a bracket expression; [\d], [\s] and [\w] outside brackets
    are one-item sets. *)
Inductive citem :=
| CChar (c : N)
| CRange (lo hi : N)
| CDigit
| CSpace
| CWord.

Inductive regex :=
| REps
| RChar (c : N)
| RSet (neg : bool) (items : list citem)
| RSeq (r1 r2 : regex)
| RAlt (r1 r2 : regex)
| RRep (r : regex) (lo : nat) (hi : option nat) (greedy : bool)
| RGroup (n : nat) (r : regex)
| RWordB
| RBol
| REol.

(** A position of the matcher: the characters already passed (last one
    first), the characters ahead, and the capture groups bound so far (most
    recent binding first). *)
Record mstate := MState {
  seen : text;
  rest : text;
  groups : list (nat * text)
}.

Definition item_base (it : citem) (c : N) : bool :=
  match it with
  | CChar x => (c =? x)%N
  | CRange lo hi => in_range lo hi c
  | CDigit => is_digit c
  | CSpace => is_space c
  | CWord => is_word c
  end.

(** Under [re.IGNORECASE] a character is accepted when it, its lower case
    or its upper case is. *)
Definition item_matches (icase : bool) (it : citem) (c : N) : bool :=
  item_base it c
  || (icase && (item_base it (lower_char c) || item_base it (upper_char c))).

Definition set_matches (icase neg : bool) (items : list citem) (c : N) : bool :=
  xorb neg (existsb (fun it => item_matches icase it c) items).

Definition step_char (p : N -> bool) (s : mstate) : list mstate :=
  match rest s with
  | c :: t => if p c then [MState (c :: seen s) t (groups s)] else []
  | [] => []
  end.

Definition word_before (s : mstate) : bool :=
  match seen s with c :: _ => is_word c | [] => false end.

Definition word_after (s : mstate) : bool :=
  match rest s with c :: _ => is_word c | [] => false end.

Definition guard (b : bool) (s : mstate) : list mstate := if b then [s] else [].

(** The text consumed between two positions of one run. *)
Definition consumed (s s' : mstate) : text :=
  firstn (length (rest s) - length (rest s')) (rest s).

Definition progress (s s' : mstate) : bool :=
  length (rest s') <? length (rest s).

(** Repetition: at most [fuel] further iterations, at least [lo] of them.
    The result lists the end positions in the order in which a
    backtracking matcher tries them: longest first when greedy. *)
Fixpoint rep_loop (step : mstate -> list mstate) (greedy : bool)
    (lo fuel : nat) (s : mstate) : list mstate :=
  match fuel with
  | O => match lo with O => [s] | S _ => [] end
  | S f =>
      let more := flat_map (rep_loop step greedy (pred lo) f) (step s) in
      match lo with
      | S _ => more
      | O => if greedy then more ++ [s] else s :: more
      end
  end.

(** All the ways [r] matches from position [s], in priority order.  An
    unbounded repetition keeps only the iterations that consume a character
    (every repeated sub-pattern of the programs does). *)
Fixpoint rmatch (icase : bool) (r : regex) (s : mstate) : list mstate :=
  match r with
  | REps => [s]
  | RChar c => step_char (item_matches icase (CChar c)) s
  | RSet neg items => step_char (set_matches icase neg items) s
  | RSeq r1 r2 => flat_map (rmatch icase r2) (rmatch icase r1 s)
  | RAlt r1 r2 => rmatch icase r1 s ++ rmatch icase r2 s
  | RRep r' lo None greedy =>
      rep_loop (fun x => filter (progress x) (rmatch icase r' x)) greedy
               lo (lo + length (rest s)) s
  | RRep r' lo (Some hi) greedy => rep_loop (rmatch icase r') greedy lo hi s
  | RGroup n r' =>
      map (fun s' => MState (seen s') (rest s') ((n, consumed s s') :: groups s'))
          (rmatch icase r' s)
  | RWordB => guard (xorb (word_before s) (word_after s)) s
  | RBol => guard (match seen s with [] => true | _ => false end) s
  | REol => guard (match rest s with [] | [10%N] => true | _ => false end) s
  end.

(** A match object: the text before the match (last character first), the
    matched text, the groups and the text after the match. *)
Record rematch := Match {
  mbefore : text;
  mwhole : text;
  mgroups : list (nat * text);
  mafter : text
}.

Fixpoint assoc (n : nat) (l : list (nat * text)) : option text :=
  match l with
  | [] => None
  | (k, v) :: l' => if k =? n then Some v else assoc n l'
  end.

(** [m.group(n)]; [None] when the group took no part in the match. *)
Definition group (m : rematch) (n : nat) : option text := assoc n (mgroups m).

(** A group as [re.findall] reports it: empty when it took no part. *)
Definition group_or_empty (m : rematch) (n : nat) : text :=
  match group m n with Some v => v | None => [] end.

(** The first match that starts exactly at the given position. *)
Definition match_at (icase : bool) (r : regex) (before after : text) : option rematch :=
  match rmatch icase r (MState before after []) with
  | s' :: _ => Some (Match before (consumed (MState before after []) s') (groups s') (rest s'))
  | [] => None
  end.

(** [re.search]: the leftmost position with a match. *)
Fixpoint search_from (icase : bool) (r : regex) (before after : text) : option rematch :=
  match match_at icase r before after with
  | Some m => Some m
  | None =>
      match after with
      | [] => None
      | c :: t => search_from icase r (c :: before) t
      end
  end.

Definition re_search (icase : bool) (r : regex) (t : text) : option rematch :=
  search_from icase r [] t.

(** [re.match]: a match at the start of the text only. *)
Definition re_match (icase : bool) (r : regex) (t : text) : option rematch :=
  match_at icase r [] t.

(** [re.finditer]: the non-overlapping matches from left to right; [skip]
    counts the characters of the last match still to be passed.  After an
    empty match the scan moves one character on (no pattern of the programs
    matches the empty text). *)
Fixpoint finditer_from (icase : bool) (r : regex) (skip : nat) (before after : text)
    : list rematch :=
  match skip with
  | S k =>
      match after with
      | [] => []
      | c :: t => finditer_from icase r k (c :: before) t
      end
  | O =>
      match match_at icase r before after with
      | Some m =>
          m :: match after with
               | [] => []
               | c :: t => finditer_from icase r (pred (length (mwhole m))) (c :: before) t
               end
      | None =>
          match after with
          | [] => []
          | c :: t => finditer_from icase r 0 (c :: before) t
          end
      end
  end.

Definition re_finditer (icase : bool) (r : regex) (t : text) : list rematch :=
  finditer_from icase r 0 [] t.

(** [re.findall] for a pattern without group, and with one group. *)
Definition re_findall (icase : bool) (r : regex) (t : text) : list text :=
  map mwhole (re_finditer icase r t).

Definition re_findall1 (icase : bool) (r : regex) (t : text) : list text :=
  map (fun m => group_or_empty m 1) (re_finditer icase r t).

(** [re.sub(r, repl, t)] for a replacement without group reference. *)
Fixpoint sub_from (icase : bool) (r : regex) (repl : text) (skip : nat)
    (before after : text) : text :=
  match skip with
  | S k =>
      match after with
      | [] => []
      | c :: t => sub_from icase r repl k (c :: before) t
      end
  | O =>
      match match_at icase r before after with
      | Some m =>
          repl ++
          match after with
          | [] => []
          | c :: t =>
              match length (mwhole m) with
              | O => c :: sub_from icase r repl 0 (c :: before) t
              | S k => sub_from icase r repl k (c :: before) t
              end
          end
      | None =>
          match after with
          | [] => []
          | c :: t => c :: sub_from icase r repl 0 (c :: before) t
          end
      end
  end.

Definition re_sub (icase : bool) (r : regex) (repl t : text) : text :=
  sub_from icase r repl 0 [] t.

(** [bool(re.search(r, t))] *)
Definition re_found (icase : bool) (r : regex) (t : text) : bool :=
  match re_search icase r t with Some _ => true | None => false end.

(** *** Writing patterns *)

Definition ch (a : ascii) : N := N_of_ascii a.
Arguments ch a%_char.
Arguments str s%_string.

Fixpoint seqs (rs : list regex) : regex :=
  match rs with
  | [] => REps
  | [r] => r
  | r :: rs' => RSeq r (seqs rs')
  end.

Fixpoint alts (rs : list regex) : regex :=
  match rs with
  | [] => RSet false []
  | [r] => r
  | r :: rs' => RAlt r (alts rs')
  end.

(** A literal word. *)
Definition lit (s : string) : regex := seqs (map RChar (str s)).
Arguments lit s%_string.

Definition set (items : list citem) : regex := RSet false items.
Definition nset (items : list citem) : regex := RSet true items.
Definition rng (a b : ascii) : citem := CRange (ch a) (ch b).
Arguments rng (a b)%_char.
Definition chr (a : ascii) : citem := CChar (ch a).
Arguments chr a%_char.

Definition digit : regex := set [CDigit].            (* \d *)
Definition space : regex := set [CSpace].            (* \s *)
Definition star (r : regex) : regex := RRep r 0 None true.        (* r*  *)
Definition plus (r : regex) : regex := RRep r 1 None true.        (* r+  *)
Definition plus_lazy (r : regex) : regex := RRep r 1 None false.  (* r+? *)
Definition opt (r : regex) : regex := RRep r 0 (Some 1) true.     (* r?  *)
Definition times (r : regex) (lo hi : nat) : regex := RRep r lo (Some hi) true. (* r{lo,hi} *)

(** Number of capturing groups of a pattern: [len(m.groups())]. *)
Fixpoint ngroups (r : regex) : nat :=
  match r with
  | RSeq r1 r2 | RAlt r1 r2 => ngroups r1 + ngroups r2
  | RRep r' _ _ _ => ngroups r'
  | RGroup _ r' => S (ngroups r')
  | _ => 0
  end.

(** ** Results of code that can raise *)

Inductive result (A : Type) :=
| Ok (a : A)
| Raise (msg : text).
Arguments Ok {A} a.
Arguments Raise {A} msg.

Definition bind {A B : Type} (x : result A) (f : A -> result B) : result B :=
  match x with
  | Ok a => f a
  | Raise e => Raise e
  end.

Notation "x <- c ;; k" := (bind c (fun x => k))
  (at level 61, c at next level, right associativity).

(** Truth value of a Python string. *)
Definition truthy (t : text) : bool :=
  match t with [] => false | _ :: _ => true end.

(** ** [_1_ticket_automation_withoutapi.py] *)

Inductive ticket_type := TRAIN | FLIGHT | UNKNOWN.

Module PNRExtractor.

Definition non_ticket_words : list text :=
  [str "invoice"; str "bill"; str "receipt"; str "buyer"; str "seller";
   str "gstin"; str "tea store"].

Definition ticket_words : list text :=
  [str "pnr"; str "train no"; str "passenger"; str "booking"].

Definition flight_kw : list text :=
  [str "indigo"; str "6e"; str "flight"; str "terminal"; str "check-in";
   str "boarding pass"; str "cleartrip"; str "makemytrip"; str "booking confirmed"].

Definition train_kw : list text :=
  [str "irctc"; str "electronic reservation"; str "train no"; str "coach";
   str "berth"; str "quota"; str "vananchal"; str "kriya yoga"; str "vande bharat";
   str "booking id : tk"; str "pnr :"; str "passenger status"; str "current status"].

(** [any(word in t for word in words)] *)
Definition any_in (words : list text) (t : text) : bool :=
  existsb (fun w => py_in w t) words.

(** [sum(1 for kw in kws if kw in t)] *)
Definition score (kws : list text) (t : text) : nat :=
  length (filter (fun kw => py_in kw t) kws).

Definition detect_ticket_type (txt : text) : ticket_type :=
  let t := lower txt in
  if any_in non_ticket_words t && negb (any_in ticket_words t) then UNKNOWN
  else
    let flight_score := score flight_kw t in
    let train_score := score train_kw t in
    if (train_score <? flight_score) && (2 <=? flight_score) then FLIGHT
    else if 0 <? train_score then TRAIN
    else UNKNOWN.

(** [(?:\d\s+){9}\d] *)
Definition spaced_pnr_re : regex :=
  seqs [times (RSeq digit (plus space)) 9 9; digit].

(** [\s+] *)
Definition spaces_re : regex := plus space.

Definition extract_spaced_pnr (txt : text) : option text :=
  find (fun pnr => length pnr =? 10)
       (map (re_sub false spaces_re []) (re_findall false spaced_pnr_re txt)).

(** [PNR[:=\s]*([A-Z0-9]{6,10})\b] *)
Definition labelled_pnr_re : regex :=
  seqs [lit "PNR"; star (set [chr ":"; chr "="; CSpace]);
        RGroup 1 (times (set [rng "A" "Z"; rng "0" "9"]) 6 10); RWordB].

(** [\b\d{10}\b] *)
Definition bare_pnr_re : regex := seqs [RWordB; times digit 10 10; RWordB].

Definition excluded_prefixes : list text :=
  [str "201"; str "202"; str "203"; str "982"; str "100"].

Definition extract_pnr_from_text (txt : text) : option text :=
  match extract_spaced_pnr txt with
  | Some (c :: p) => Some (c :: p)
  | _ =>
      match re_search true labelled_pnr_re txt with
      | Some m => Some (upper (group_or_empty m 1))
      | None =>
          let candidates := re_findall false bare_pnr_re txt in
          let candidates :=
            filter (fun c => negb (existsb (startswith c) excluded_prefixes)) candidates in
          match candidates with
          | c :: _ => Some c
          | [] => None
          end
      end
  end.

Definition CLEAN_BAD_WORDS : list text :=
  [str "CONFIRMED"; str "AVAILABLE"; str "BOOKING"; str "STATUS";
   str "PASSENGER"; str "OPTION"].

(** [[A-Z][a-z]+] *)
Definition capitalised_re : regex := seqs [set [rng "A" "Z"]; plus (set [rng "a" "z"])].

Definition _clean_ocr_name (raw_name : text) : text :=
  let name := strip raw_name in
  let name := replace (replace name (str "!") (str "I")) (str "|") (str "I") in
  let name := re_sub false spaces_re (str " ") name in
  if re_found false digit name || (length name <? 3) then []
  else if existsb (fun bad => py_in bad (upper name)) CLEAN_BAD_WORDS then []
  else if negb (py_in (str " ") name) && (8 <? length name) then
    let parts := re_findall false capitalised_re name in
    if 2 <=? length parts then join (str " ") parts else title name
  else title name.

Definition BLOCKLIST : list text :=
  [str "CHECK TIMINGS"; str "PASSENGER DETAILS"; str "ELECTRONIC RESERVATION";
   str "BOOKED FROM"; str "BOARDING AT"; str "TRANSACTION ID"; str "ACRONYMS";
   str "NAME"; str "AGE"; str "GENDER"; str "BOOKING STATUS"; str "CURRENT STATUS";
   str "PASSENGER STATUS"; str "COACH"; str "SEAT"; str "BERTH";
   str "CHART NOT PREPARED"; str "CATERING SERVICE"].

(** [^\d+\.\s+([A-Z!|I][A-Z!\s|I]+?)\s+(\d{1,3})\s+([MFmf|I])\s+[\|\s]*(CNF|WL|RAC|VEG)] *)
Definition irctc_re : regex :=
  seqs [RBol; plus digit; RChar (ch "."); plus space;
        RGroup 1 (RSeq (set [rng "A" "Z"; chr "!"; chr "|"; chr "I"])
                       (plus_lazy (set [rng "A" "Z"; chr "!"; CSpace; chr "|"; chr "I"])));
        plus space; RGroup 2 (times digit 1 3); plus space;
        RGroup 3 (set [chr "M"; chr "F"; chr "m"; chr "f"; chr "|"; chr "I"]);
        plus space; star (set [chr "|"; CSpace]);
        RGroup 4 (alts [lit "CNF"; lit "WL"; lit "RAC"; lit "VEG"])].

(** [^\d+\.\s+([A-Z][A-Za-z\s]+?),\s*(\d{1,3})\s*,\s*([MF])\s*$] *)
Definition ixigo_re : regex :=
  seqs [RBol; plus digit; RChar (ch "."); plus space;
        RGroup 1 (RSeq (set [rng "A" "Z"])
                       (plus_lazy (set [rng "A" "Z"; rng "a" "z"; CSpace])));
        RChar (ch ","); star space; RGroup 2 (times digit 1 3); star space;
        RChar (ch ","); star space; RGroup 3 (set [chr "M"; chr "F"]);
        star space; REol].

(** [^[A-Z][A-Z\s]{3,40}$] *)
Definition app_re : regex :=
  seqs [RBol; set [rng "A" "Z"]; times (set [rng "A" "Z"; CSpace]) 3 40; REol].

(** [if raw_name and raw_name not in names: names.append(raw_name)] *)
Definition add_name (names : list text) (raw_name : text) : list text :=
  if truthy raw_name && negb (existsb (text_eqb raw_name) names)
  then names ++ [raw_name] else names.

(** One turn of the loop over the lines. *)
Definition train_line (names : list text) (line : text) : list text :=
  if existsb (fun b => py_in b (upper line)) BLOCKLIST then names
  else if length line <? 4 then names
  else
    match re_search true irctc_re line with
    | Some m => add_name names (_clean_ocr_name (group_or_empty m 1))
    | None =>
        match re_search true ixigo_re line with
        | Some m2 => add_name names (_clean_ocr_name (group_or_empty m2 1))
        | None =>
            match re_match false app_re line with
            | Some _ =>
                let words := split line in
                if (1 <=? length words) && forallb (fun w => 2 <=? length w) words
                then add_name names (_clean_ocr_name line)
                else names
            | None => names
            end
        end
    end.

Definition extract_train_passengers (txt : text) : list text :=
  let lines :=
    map (fun l => re_sub false spaces_re (str " ") (strip l))
        (filter (fun l => truthy (strip l)) (splitlines txt)) in
  fold_left train_line lines [].

Record flight_passenger := FlightPassenger { fp_name : text; fp_seat : text }.

Definition FLIGHT_BAD_WORDS : list text :=
  [str "ALLOWED"; str "ITEMS"; str "BAGGAGE"; str "BOOKING"; str "DETAILS";
   str "PAYMENT"; str "TICKET"; str "FLIGHT"; str "TERMINAL"; str "CHECK";
   str "INFORMATION"; str "IMPORTANT"; str "CONTACT"; str "CUSTOMER";
   str "SUPPORT"; str "YATRA"; str "DIGI"; str "AVOID"].

Definition _is_valid_flight_name (name : text) : bool :=
  let name_upper := upper name in
  if existsb (fun bad => py_in bad name_upper) FLIGHT_BAD_WORDS then false
  else if negb (py_in (str " ") name) then false
  else if (length name <? 5) || (40 <? length name) then false
  else if re_found false digit name then false
  else true.

(** [\b(M[rs]s?\.?\s+[A-Z][A-Z\s]+?)\s*\(ADULT\)] *)
Definition adult_re : regex :=
  seqs [RWordB;
        RGroup 1 (seqs [RChar (ch "M"); set [chr "r"; chr "s"]; opt (RChar (ch "s"));
                        opt (RChar (ch ".")); plus space; set [rng "A" "Z"];
                        plus_lazy (set [rng "A" "Z"; CSpace])]);
        star space; lit "(ADULT)"].

(** [\b(M[rs]\.?\s+[A-Z][a-z]+\s+[A-Z][a-z]+)\b] *)
Definition titled_re : regex :=
  seqs [RWordB;
        RGroup 1 (seqs [RChar (ch "M"); set [chr "r"; chr "s"]; opt (RChar (ch "."));
                        plus space; set [rng "A" "Z"]; plus (set [rng "a" "z"]);
                        plus space; set [rng "A" "Z"]; plus (set [rng "a" "z"])]);
        RWordB].

(** One turn of the inner loop, over the matches of a pattern. *)
Definition flight_candidate (passengers : list flight_passenger) (mtch : text)
    : list flight_passenger :=
  let name := re_sub false spaces_re (str " ") (strip mtch) in
  let name :=
    replace (replace (replace name (str "Mr.") (str "Mr")) (str "Ms.") (str "Ms"))
            (str "Mrs.") (str "Mrs") in
  if _is_valid_flight_name name then
    if negb (existsb (fun p => text_eqb (upper (fp_name p)) (upper name)) passengers)
    then passengers ++ [FlightPassenger name []]
    else passengers
  else passengers.

Definition extract_flight_passengers (txt : text) : list flight_passenger :=
  fold_left
    (fun passengers pattern =>
       fold_left flight_candidate (re_findall1 true pattern txt) passengers)
    [adult_re; titled_re] [].

End PNRExtractor.

(** *** Numbers in text *)

(** [str(n)] *)
Definition dec (n : nat) : text := str (NilZero.string_of_uint (Nat.to_uint n)).

(** Zero padding to a width, as in [f"{n:02d}"] and [strftime]. *)
Definition zfill (width : nat) (t : text) : text :=
  repeat (ch "0") (width - length t) ++ t.

(** [int(t)] on a text of decimal digits. *)
Definition int_of (t : text) : nat :=
  fold_left (fun acc c => 10 * acc + (N.to_nat c - 48)) t 0.

(** What [dateutil.parser.parse] returns. *)
Record datetime := DateTime {
  year : nat; month : nat; day : nat; hour : nat; minute : nat
}.

(** [dt.strftime("%Y-%m-%d")] and [dt.strftime("%H:%M")] *)
Definition strftime_Ymd (dt : datetime) : text :=
  zfill 4 (dec (year dt)) ++ str "-" ++ zfill 2 (dec (month dt)) ++ str "-"
  ++ zfill 2 (dec (day dt)).

Definition strftime_HM (dt : datetime) : text :=
  zfill 2 (dec (hour dt)) ++ str ":" ++ zfill 2 (dec (minute dt)).

Module FlightExtractor.

Import PNRExtractor.

Record flight_details := FlightDetails {
  airline : text;
  flight_number : text;
  pnr : text;
  route : text;
  date : text;
  departure_time : text;
  arrival_time : text;
  passengers : list flight_passenger
}.

(** The [airlines] dict, in insertion order. *)
Definition airlines : list (text * text) :=
  [(str "indigo", str "IndiGo"); (str "6e", str "IndiGo");
   (str "air india express", str "Air India Express");
   (str "air india", str "Air India");
   (str "vistara", str "Vistara");
   (str "spicejet", str "SpiceJet")].

(** [\b(IX|I5|AI|6E|UK|SG|QP)\s*[-\s]*(\d{3,4})\b] *)
Definition coded_flight_re : regex :=
  seqs [RWordB;
        RGroup 1 (alts [lit "IX"; lit "I5"; lit "AI"; lit "6E"; lit "UK"; lit "SG"; lit "QP"]);
        star space; star (set [chr "-"; CSpace]);
        RGroup 2 (times digit 3 4); RWordB].

(** [Flight\s+(?:No\.?|Number)?\s*[:=\s]*([A-Z0-9]{2,3}[-\s]?\d{3,4})] *)
Definition labelled_flight_re : regex :=
  seqs [lit "Flight"; plus space;
        opt (alts [RSeq (lit "No") (opt (RChar (ch "."))); lit "Number"]);
        star space; star (set [chr ":"; chr "="; CSpace]);
        RGroup 1 (seqs [times (set [rng "A" "Z"; rng "0" "9"]) 2 3;
                        opt (set [chr "-"; CSpace]); times digit 3 4])].

Definition flight_number_patterns : list regex :=
  [coded_flight_re; labelled_flight_re].

(** [PNR[:=\s]*([A-Z0-9]{6})\b] *)
Definition flight_pnr_re : regex :=
  seqs [lit "PNR"; star (set [chr ":"; chr "="; CSpace]);
        RGroup 1 (times (set [rng "A" "Z"; rng "0" "9"]) 6 6); RWordB].

(** [[A-Z][a-z]+(?:\s+[A-Z][a-z]+)?] *)
Definition city_re : regex :=
  seqs [set [rng "A" "Z"]; plus (set [rng "a" "z"]);
        opt (seqs [plus space; set [rng "A" "Z"]; plus (set [rng "a" "z"])])].

(** [(city)\s*[-→–]\s*(city)]; the arrow is U+2192, the dash U+2013. *)
Definition route_re : regex :=
  seqs [RGroup 1 city_re; star space;
        set [chr "-"; CChar 8594; CChar 8211];
        star space; RGroup 2 city_re].

Definition months : regex :=
  alts [lit "Jan"; lit "Feb"; lit "Mar"; lit "Apr"; lit "May"; lit "Jun";
        lit "Jul"; lit "Aug"; lit "Sep"; lit "Oct"; lit "Nov"; lit "Dec"].

Definition weekdays : regex :=
  alts [lit "Mon"; lit "Tue"; lit "Wed"; lit "Thu"; lit "Fri"; lit "Sat"; lit "Sun"].

(** [\b(\d{1,2})\s+(Jan|...|Dec)[a-z]*\s+[,\']?(\d{2,4})\b],
    [\b(Mon|...|Sun)[a-z]*,?\s+(\d{1,2})\s+(Jan|...|Dec)[a-z]*\s+(\d{4})\b],
    [\b(\d{1,2})[/-](\d{1,2})[/-](\d{2,4})\b] *)
Definition date_patterns : list regex :=
  [seqs [RWordB; RGroup 1 (times digit 1 2); plus space; RGroup 2 months;
         star (set [rng "a" "z"]); plus space; opt (set [chr ","; chr "'"]);
         RGroup 3 (times digit 2 4); RWordB];
   seqs [RWordB; RGroup 1 weekdays; star (set [rng "a" "z"]); opt (RChar (ch ","));
         plus space; RGroup 2 (times digit 1 2); plus space; RGroup 3 months;
         star (set [rng "a" "z"]); plus space; RGroup 4 (times digit 4 4); RWordB];
   seqs [RWordB; RGroup 1 (times digit 1 2); set [chr "/"; chr "-"];
         RGroup 2 (times digit 1 2); set [chr "/"; chr "-"];
         RGroup 3 (times digit 2 4); RWordB]].

(** [\b(\d{1,2}:\d{2})\s*(?:hrs|HRS)?\b] *)
Definition time_re : regex :=
  seqs [RWordB; RGroup 1 (seqs [times digit 1 2; RChar (ch ":"); times digit 2 2]);
        star space; opt (alts [lit "hrs"; lit "HRS"]); RWordB].

(** The message of the [AttributeError] that [m.groups()] raises when
    [m] is [None]. *)
Definition none_has_no_groups : text :=
  str "'NoneType' object has no attribute 'groups'".

(** The loop over [patterns]: its body ends in an unconditional [break],
    so only the first pattern is tried, and [m.groups()] is evaluated
    whether or not the search found a match. *)
Definition find_flight_number (txt : text) (patterns : list regex) : result text :=
  match patterns with
  | [] => Ok []
  | pattern :: _ =>
      match re_search true pattern txt with
      | None => Raise none_has_no_groups
      | Some m =>
          if ngroups pattern =? 2
          then Ok (group_or_empty m 1 ++ str " " ++ group_or_empty m 2)
          else Ok (re_sub false spaces_re (str " ") (group_or_empty m 1))
      end
  end.

(** The first pattern of the list that is found, as [m.group(0)]. *)
Fixpoint find_date (txt : text) (patterns : list regex) : text :=
  match patterns with
  | [] => []
  | pattern :: more =>
      match re_search true pattern txt with
      | Some m => mwhole m
      | None => find_date txt more
      end
  end.

Definition extract_flight_details (txt : text) : result flight_details :=
  let t_lower := lower txt in
  let airline :=
    match find (fun kv => py_in (fst kv) t_lower) airlines with
    | Some kv => snd kv
    | None => []
    end in
  flight_number <- find_flight_number txt flight_number_patterns ;;
  let pnr :=
    match re_search true flight_pnr_re txt with
    | Some m => upper (group_or_empty m 1)
    | None => []
    end in
  let route :=
    match re_search false route_re txt with
    | Some m => group_or_empty m 1 ++ str " → " ++ group_or_empty m 2
    | None => []
    end in
  let date := find_date txt date_patterns in
  let times := re_findall1 false time_re txt in
  let '(departure_time, arrival_time) :=
    match times with
    | t0 :: t1 :: _ => (t0, t1)
    | _ => ([], [])
    end in
  Ok (FlightDetails airline flight_number pnr route date departure_time arrival_time
                    (extract_flight_passengers txt)).

End FlightExtractor.

(** *** The record of a processed document

    The programs pass dicts around.  [ticket_data] has one field per key;
    a key that a dict lacks holds the default with which every reader gets
    it ([.get(key, '')] or [.get('passengers', [])]), and [error] is [None]
    both when the key is missing and when it is [None]. *)

Record passenger := Passenger {
  name : text;
  coach : text;
  seat : text;
  berth : text;
  status : text
}.

Inductive mode := MODE_ERROR | MODE_TRAIN | MODE_FLIGHT.

Record ticket_data := TicketData {
  td_mode : mode;
  td_error : option text;
  td_filename : text;
  td_pnr : text;
  td_passengers : list passenger;
  td_details : text;
  td_train_number : text;
  td_train_name : text;
  td_journey_date : text;
  td_departure_time : text;
  td_arrival_date : text;
  td_arrival_time : text;
  td_airline : text;
  td_flight_number : text;
  td_route : text;
  td_date : text
}.

(** [{'error': error, 'filename': filename, 'mode': 'ERROR'}], with a
    ['pnr'] key when [pnr] is not empty. *)
Definition error_record (error filename pnr : text) : ticket_data :=
  TicketData MODE_ERROR (Some error) filename pnr [] [] [] [] [] [] [] [] [] [] [] [].

(** [ticket_data.get('error')] is true: the record is an ERROR record, and
    is appended to the sheet as an error row. *)
Definition is_error (td : ticket_data) : bool :=
  match td_error td with
  | Some e => truthy e
  | None => false
  end.

(** What the PNR lookup answers: the JSON object, with [data] absent or
    empty as [None]. *)
Record api_passenger := ApiPassenger {
  currentCoachId : option text;
  bookingCoachId : option text;
  currentBerthNo : option text;
  bookingBerthNo : option text;
  currentBerthCode : option text;
  bookingBerthCode : option text;
  currentStatusDetails : option text
}.

Record api_data := ApiData {
  pnrNumber : text;
  trainNumber : text;
  trainName : text;
  dateOfJourney : text;
  arrivalDate : text;
  passengerList : list api_passenger
}.

Record api_response := ApiResponse {
  success : bool;
  data : option api_data
}.

(** [p.get(k1, p.get(k2, default))] *)
Definition get2 (v1 v2 : option text) (default : text) : text :=
  match v1, v2 with
  | Some v, _ => v
  | None, Some v => v
  | None, None => default
  end.

Module TrainPNRAPI.

Section Parse.

(** [dateutil.parser.parse]; [None] when it raises. *)
Variable dparse : text -> option datetime.

(** [(\d{1,2}):(\d{2})(?::(\d{2}))?\s*(AM|PM)?] *)
Definition clock_re : regex :=
  seqs [RGroup 1 (times digit 1 2); RChar (ch ":"); RGroup 2 (times digit 2 2);
        opt (RSeq (RChar (ch ":")) (RGroup 3 (times digit 2 2)));
        star space; opt (RGroup 4 (alts [lit "AM"; lit "PM"]))].

(** The time read off by hand when the date parser raises. *)
Definition manual_time (s : text) : text :=
  match re_search false clock_re s with
  | Some time_match =>
      let hour := int_of (group_or_empty time_match 1) in
      let minute := group_or_empty time_match 2 in
      let ampm := group time_match 4 in
      let hour :=
        match ampm with
        | Some a =>
            if text_eqb a (str "PM") && negb (hour =? 12) then hour + 12
            else if text_eqb a (str "AM") && (hour =? 12) then 0
            else hour
        | None => hour
        end in
      zfill 2 (dec hour) ++ str ":" ++ minute
  | None => []
  end.

(** The date and the time taken from one free-form string of the
    payload; the program has this block twice, for [dateOfJourney] and
    for [arrivalDate]. *)
Definition date_and_time (s : text) : text * text :=
  if truthy s then
    match dparse s with
    | Some dt => (strftime_Ymd dt, strftime_HM dt)
    | None => (s, manual_time s)
    end
  else ([], []).

(** [passenger_names[idx] if passenger_names and idx < len(passenger_names)
    else f"Passenger {idx+1}"] *)
Definition pax_name (passenger_names : list text) (idx : nat) : text :=
  match nth_error passenger_names idx with
  | Some n => n
  | None => str "Passenger " ++ dec (idx + 1)
  end.

Fixpoint merge_passengers (passenger_names : list text) (idx : nat)
    (passenger_list : list api_passenger) : list passenger :=
  match passenger_list with
  | [] => []
  | p :: more =>
      Passenger (pax_name passenger_names idx)
                (get2 (currentCoachId p) (bookingCoachId p) [])
                (get2 (currentBerthNo p) (bookingBerthNo p) (str "0"))
                (get2 (currentBerthCode p) (bookingBerthCode p) [])
                (match currentStatusDetails p with Some v => v | None => [] end)
        :: merge_passengers passenger_names (S idx) more
  end.

(** [{'pnr': 'UNKNOWN', 'mode': 'TRAIN', 'error': error, 'passengers': []}] *)
Definition failure (error : text) : ticket_data :=
  TicketData MODE_TRAIN (Some error) [] (str "UNKNOWN") [] [] [] [] [] [] [] [] [] [] [] [].

Definition parse_train_response (response : api_response)
    (passenger_names : list text) : ticket_data :=
  if negb (success response) then failure (str "API failed")
  else
    match data response with
    | None => failure (str "No data")
    | Some data =>
        let '(journey_date, departure_time) := date_and_time (dateOfJourney data) in
        let '(arrival_date, arrival_time) := date_and_time (arrivalDate data) in
        let passengers := merge_passengers passenger_names 0 (passengerList data) in
        TicketData MODE_TRAIN None [] (pnrNumber data) passengers
                   (trainNumber data ++ str " / " ++ trainName data)
                   (trainNumber data) (trainName data)
                   journey_date departure_time arrival_date arrival_time
                   [] [] [] []
    end.

End Parse.

End TrainPNRAPI.

Module TicketProcessor.

Import PNRExtractor.

Definition set_filename (filename : text) (td : ticket_data) : ticket_data :=
  TicketData (td_mode td) (td_error td) filename (td_pnr td) (td_passengers td)
             (td_details td) (td_train_number td) (td_train_name td)
             (td_journey_date td) (td_departure_time td) (td_arrival_date td)
             (td_arrival_time td) (td_airline td) (td_flight_number td)
             (td_route td) (td_date td).

Definition flight_pax (p : flight_passenger) : passenger :=
  Passenger (fp_name p) [] (fp_seat p) [] [].

Section Process.

(** [TrainPNRAPI.check_train_pnr]: the answer of the lookup service,
    [None] for a transport failure, a status other than 200, or an
    answer that is an empty object. *)
Variable check_train_pnr : text -> option api_response.
Variable dparse : text -> option datetime.

Definition process_flight (txt filename : text) : result ticket_data :=
  flight_data <- FlightExtractor.extract_flight_details txt ;;
  match FlightExtractor.passengers flight_data with
  | [] => Ok (error_record (str "No passengers found in flight ticket") filename [])
  | _ :: _ =>
      Ok (TicketData MODE_FLIGHT None filename (FlightExtractor.pnr flight_data)
            (map flight_pax (FlightExtractor.passengers flight_data))
            (FlightExtractor.airline flight_data ++ str " "
             ++ FlightExtractor.flight_number flight_data)
            [] [] [] (FlightExtractor.departure_time flight_data) []
            (FlightExtractor.arrival_time flight_data)
            (FlightExtractor.airline flight_data)
            (FlightExtractor.flight_number flight_data)
            (FlightExtractor.route flight_data)
            (FlightExtractor.date flight_data))
  end.

Definition process_train (txt filename : text) : ticket_data :=
  match extract_pnr_from_text txt with
  | Some (c :: p) =>
      let pnr := c :: p in
      match check_train_pnr pnr with
      | None => error_record (str "API failed for PNR " ++ pnr) filename pnr
      | Some api_response =>
          let passenger_names := extract_train_passengers txt in
          set_filename filename
            (TrainPNRAPI.parse_train_response dparse api_response passenger_names)
      end
  | _ => error_record (str "PNR not found in ticket") filename []
  end.

(** [process_ticket] from the outcome of the OCR on: [ocr] is the
    transcript, or the exception the conversion raised. *)
Definition process_ticket (ocr : result text) (filename : text) : ticket_data :=
  let attempt :=
    full_text <- ocr ;;
    match detect_ticket_type full_text with
    | FLIGHT => process_flight full_text filename
    | TRAIN => Ok (process_train full_text filename)
    | UNKNOWN =>
        Ok (error_record (str "Unknown ticket type (not a valid train/flight ticket)")
                         filename [])
    end in
  match attempt with
  | Ok td => td
  | Raise e => error_record (str "Processing failed: " ++ e) filename []
  end.

End Process.

End TicketProcessor.

(** ** The spreadsheet

    A sheet is held as the rows that [values().get] returns for a range
    starting at row 2: element [i] is sheet row [i + 2], a row lists its
    cells from column A on, and a cell that is not there is empty.  An
    update writes one cell, lengthening the row (and the sheet) with empty
    cells when needed.  Every call of the service succeeds: a run that the
    service interrupts is outside the model. *)

Definition row := list text.
Definition grid := list row.

(** [row[k] if len(row) > k else ""] *)
Definition cell (r : row) (k : nat) : text := nth k r [].

Fixpoint set_cell (r : row) (col : nat) (v : text) : row :=
  match col, r with
  | O, _ :: r' => v :: r'
  | O, [] => [v]
  | S c, x :: r' => x :: set_cell r' c v
  | S c, [] => [] :: set_cell [] c v
  end.

Fixpoint update_row (g : grid) (i : nat) (f : row -> row) : grid :=
  match i, g with
  | O, r :: g' => f r :: g'
  | O, [] => [f []]
  | S i', r :: g' => r :: update_row g' i' f
  | S i', [] => [] :: update_row [] i' f
  end.

(** Index of a column from its letters: A is 0, I is 8, AE is 30. *)
Definition col_index (letters : text) : nat :=
  pred (fold_left (fun acc c => 26 * acc + (N.to_nat c - 64)) letters 0).

(** An update of the cell at column [col] of sheet row [row_no].  Row 1,
    the header, is outside the grid. *)
Definition write_cell (g : grid) (row_no col : nat) (v : text) : grid :=
  if row_no <? 2 then g else update_row g (row_no - 2) (fun r => set_cell r col v).

(** The ticket sheet and the [Master] sheet. *)
Record sheets := Sheets {
  ticket_sheet : grid;
  master_sheet : grid
}.

(** ** [_1_ticket_automation_withoutapi.py]: the sheet and the run

    The rows that the ingestion appends to the ticket sheet.  The
    requests sent to [values().append] are kept in a log, each request
    being the list of its rows; the records that reach these functions
    come from [process_ticket], which always sets the filename. *)

Module GoogleSheetsManager.

Section Append.

(** [values().append(...).execute()] goes through for these rows; it
    raises otherwise. *)
Variable append_ok : list row -> bool.

Definition _append_rows (requests : list (list row)) (rows : list row)
    : list (list row) * bool :=
  (requests ++ [rows], append_ok rows).

(** The one caller passes a record whose error is set; [None] stands
    here for a dict without the key. *)
Definition _append_error_row (requests : list (list row)) (ticket_data : ticket_data)
    : list (list row) * bool :=
  let error_msg :=
    match td_error ticket_data with
    | Some e => e
    | None => str "Unknown error"
    end in
  let filename := td_filename ticket_data in
  let pnr := td_pnr ticket_data in
  let row :=
    [[]; []; []; []; str "ERROR"; []; []; []; []; [];
     str "ERROR: " ++ error_msg; pnr; filename] in
  _append_rows requests [row].

(** The row of one passenger of a train ticket, columns A to M. *)
Definition train_row (ticket_data : ticket_data) (pax : passenger) : row :=
  let seat := coach pax ++ str "/" ++ seat pax ++ str "/" ++ berth pax in
  [td_journey_date ticket_data; td_departure_time ticket_data;
   td_arrival_date ticket_data; td_arrival_time ticket_data; str "TRAIN"; seat;
   td_details ticket_data; name pax; td_train_number ticket_data;
   td_train_name ticket_data; status pax; td_pnr ticket_data;
   td_filename ticket_data].

Definition _append_train (requests : list (list row)) (ticket_data : ticket_data)
    : list (list row) * bool :=
  match td_passengers ticket_data with
  | [] => (requests, false)
  | passengers => _append_rows requests (map (train_row ticket_data) passengers)
  end.

(** The row of one passenger of a flight ticket, columns A to M. *)
Definition flight_row (ticket_data : ticket_data) (pax : passenger) : row :=
  [td_date ticket_data; td_departure_time ticket_data; [];
   td_arrival_time ticket_data; str "FLIGHT"; seat pax; td_details ticket_data;
   name pax; td_flight_number ticket_data; td_airline ticket_data;
   td_route ticket_data; td_pnr ticket_data; td_filename ticket_data].

Definition _append_flight (requests : list (list row)) (ticket_data : ticket_data)
    : list (list row) * bool :=
  match td_passengers ticket_data with
  | [] => (requests, false)
  | passengers => _append_rows requests (map (flight_row ticket_data) passengers)
  end.

Definition append_ticket_data (requests : list (list row)) (ticket_data : ticket_data)
    : list (list row) * bool :=
  if is_error ticket_data then _append_error_row requests ticket_data
  else
    match td_mode ticket_data with
    | MODE_TRAIN => _append_train requests ticket_data
    | MODE_FLIGHT => _append_flight requests ticket_data
    | MODE_ERROR => (requests, false)
    end.

End Append.

End GoogleSheetsManager.

Module WeddingTicketAutomation.

(** An entry of the list that [DriveManager.list_files] returns. *)
Record file_meta := FileMeta {
  f_id : text;
  f_name : text;
  f_mimeType : text
}.

(** Where a run stands: the two counters, the lines of its error report,
    the requests sent to the sheet, and the files for which
    [DriveManager.move_file] was called. *)
Record tally := Tally {
  n_success : nat;
  n_errors : nat;
  error_files : list text;
  requests : list (list row);
  moved : list text
}.

Section Run.

(** The content of a downloaded file. *)
Variable file_bytes : Type.

(** [DriveManager.download_file], or the exception it raises. *)
Variable download_file : text -> result file_bytes.

(** [file_to_images] followed by [ocr_images_full] on a file, its MIME
    type and its name: the transcript, or the exception raised. *)
Variable read_text : file_bytes -> text -> text -> result text.

Variable check_train_pnr : text -> option api_response.
Variable dparse : text -> option datetime.
Variable append_ok : list row -> bool.

(** [os.getenv("PROCESSED_FOLDER_ID")] *)
Variable PROCESSED_FOLDER_ID : option text.

(** [PROCESSED_FOLDER_ID and len(PROCESSED_FOLDER_ID) > 5] *)
Definition move_wanted : bool :=
  match PROCESSED_FOLDER_ID with
  | Some folder => truthy folder && (5 <? length folder)
  | None => false
  end.

(** One turn of the loop over the files.  The value that
    [append_ticket_data] returns is not looked at, and an exception of
    [move_file] is caught and only reported. *)
Definition run_file (acc : tally) (file_meta : file_meta) : tally :=
  let file_id := f_id file_meta in
  let filename := f_name file_meta in
  let mime_type := f_mimeType file_meta in
  match download_file file_id with
  | Raise e =>
      Tally (n_success acc) (n_errors acc + 1)
            (error_files acc ++ [filename ++ str ": Critical error - " ++ e])
            (requests acc) (moved acc)
  | Ok content =>
      let ticket_data :=
        TicketProcessor.process_ticket check_train_pnr dparse
          (read_text content mime_type filename) filename in
      let requests :=
        fst (GoogleSheetsManager.append_ticket_data append_ok (requests acc) ticket_data) in
      match td_error ticket_data with
      | Some (c :: e) =>
          Tally (n_success acc) (n_errors acc + 1)
                (error_files acc ++ [filename ++ str ": " ++ c :: e])
                requests (moved acc)
      | _ =>
          Tally (n_success acc + 1) (n_errors acc) (error_files acc) requests
                (if move_wanted then moved acc ++ [file_id] else moved acc)
      end
  end.

Definition run (files : list file_meta) : tally :=
  fold_left run_file files (Tally 0 0 [] [] []).

End Run.

End WeddingTicketAutomation.

(** ** [_2_name_automation.py] *)

Definition Qlt_bool (a b : Q) : bool := negb (Qle_bool b a).

Definition MATCH_THRESHOLD : Q := 85%Q.

(** [DEPARTURE_DATE = date(2026, 2, 13)] *)
Definition DEPARTURE_DATE : nat * nat * nat := (2026, 2, 13).

(** An entry of the list that [read_master_names] builds. *)
Record master := Master {
  raw : text;
  norm : text;
  m_row_no : nat;
  place : text;
  venue : text
}.

(** [{**master, "score": final_score}] *)
Record candidate := Candidate {
  cand : master;
  score : Q
}.

Module NameMatcher.

(** [\b(KR|KUMAR|DEVI|SHRI|SMT|MR|MRS|MS|MISS|SRI)\b] *)
Definition titles_re : regex :=
  seqs [RWordB;
        RGroup 1 (alts [lit "KR"; lit "KUMAR"; lit "DEVI"; lit "SHRI"; lit "SMT";
                        lit "MR"; lit "MRS"; lit "MS"; lit "MISS"; lit "SRI"]);
        RWordB].

(** [[^A-Z ]] *)
Definition not_letter_re : regex := nset [rng "A" "Z"; chr " "].

Definition normalize_name (name : text) : text :=
  if negb (truthy name) then []
  else
    let name := upper name in
    let name := re_sub false titles_re [] name in
    let name := re_sub false not_letter_re [] name in
    strip (re_sub false PNRExtractor.spaces_re (str " ") name).

(** [max(a, b)] of Python: [b] when it is greater, else [a]. *)
Definition py_max (a b : Q) : Q := if Qlt_bool a b then b else a.

(** Insertion keeping the order of entries with equal scores, for the
    stable [matches.sort(key=..., reverse=True)]. *)
Fixpoint insert_desc (c : candidate) (l : list candidate) : list candidate :=
  match l with
  | [] => [c]
  | d :: l' => if Qlt_bool (score c) (score d) then d :: insert_desc c l' else c :: l
  end.

Definition sort_desc (l : list candidate) : list candidate :=
  fold_right insert_desc [] l.

Section Match.

(** [rapidfuzz.fuzz.partial_ratio] and [fuzz.token_sort_ratio]: scores
    between 0 and 100.  The floating-point scores are held as rationals;
    the one arithmetic operation on them, the difference of two scores
    that are both at least 85, is exact in floating point. *)
Variable partial_ratio : text -> text -> Q.
Variable token_sort_ratio : text -> text -> Q.

Definition final_score (norm_passenger : text) (m : master) : Q :=
  py_max (partial_ratio norm_passenger (norm m))
         (token_sort_ratio norm_passenger (norm m)).

(** One turn of the loop over [master_names]. *)
Definition match_step (norm_passenger : text) (acc : list candidate * Q) (m : master)
    : list candidate * Q :=
  let '(matches, best_score) := acc in
  let s := final_score norm_passenger m in
  if Qle_bool MATCH_THRESHOLD s
  then (matches ++ [Candidate m s], if Qlt_bool best_score s then s else best_score)
  else (matches, best_score).

Definition match_against_master (passenger_name : text) (master_names : list master)
    : list candidate * Q :=
  match passenger_name, master_names with
  | [], _ | _, [] => ([], 0%Q)
  | _, _ =>
      let norm_passenger := normalize_name passenger_name in
      let '(matches, best_score) :=
        fold_left (match_step norm_passenger) master_names ([], 0%Q) in
      (sort_desc matches, best_score)
  end.

End Match.

End NameMatcher.

Module DateHelper.

Section Dates.

(** [dateutil.parser.parse(date_str, dayfirst=False)]; [None] when it
    raises. *)
Variable dparse : text -> option datetime.

(** [dt.strftime("%m/%d/%y")] *)
Definition strftime_mdy (dt : datetime) : text :=
  zfill 2 (dec (month dt)) ++ str "/" ++ zfill 2 (dec (day dt)) ++ str "/"
  ++ zfill 2 (dec (year dt mod 100)).

Definition format_mmddyy (date_str : text) : text :=
  if negb (truthy date_str) then []
  else
    match dparse date_str with
    | Some dt => strftime_mdy dt
    | None => date_str
    end.

(** [d1 >= d2] on dates. *)
Definition date_ge (d1 d2 : nat * nat * nat) : bool :=
  let '(y1, m1, d1') := d1 in
  let '(y2, m2, d2') := d2 in
  (y2 <? y1) || ((y1 =? y2) && ((m2 <? m1) || ((m1 =? m2) && (d2' <=? d1')))).

(** [dt.date()] *)
Definition date_of (dt : datetime) : nat * nat * nat := (year dt, month dt, day dt).

Definition is_departure_date (date_str : text) : bool :=
  if negb (truthy date_str) then false
  else
    match dparse date_str with
    | Some dt => date_ge (date_of dt) DEPARTURE_DATE
    | None => false
    end.

End Dates.

End DateHelper.

Module SheetManager.

(** A row of the ticket sheet as [read_ticket_sheet] hands it on. *)
Record ticket := Ticket {
  t_row_no : nat;
  t_journey_date : text;
  t_departure_time : text;
  t_arrival_date : text;
  t_arrival_time : text;
  t_mode : text;
  t_seat : text;
  t_details : text;
  t_name : text;
  t_train_number : text;
  t_train_name : text;
  t_status : text;
  t_pnr : text;
  t_source : text;
  t_suggested : text;
  t_score : text;
  t_approved : text;
  t_commit_status : text
}.

(** [enumerate(rows, start=2)] over the range [Master!A2:D]. *)
Fixpoint master_entries (i : nat) (rows : grid) : list master :=
  match rows with
  | [] => []
  | r :: more =>
      (if truthy (strip (cell r 0))
       then [Master (strip (cell r 0)) (NameMatcher.normalize_name (strip (cell r 0)))
                    i (cell r 2) (cell r 3)]
       else [])
      ++ master_entries (S i) more
  end.

Definition read_master_names (st : sheets) : list master :=
  master_entries 2 (master_sheet st).

(** The dict that [read_ticket_sheet] builds from row [idx]. *)
Definition ticket_of (idx : nat) (r : row) : ticket :=
  Ticket idx (cell r 0) (cell r 1) (cell r 2) (cell r 3) (cell r 4)
         (cell r 5) (cell r 6) (cell r 7) (cell r 8) (cell r 9)
         (cell r 10) (cell r 11) (cell r 12) (cell r 13) (cell r 14)
         (cell r 15) (cell r 16).

(** [enumerate(rows, start=2)] over the range of the ticket sheet,
    [A2:Q]; a row of fewer than 8 cells is passed over. *)
Fixpoint ticket_entries (idx : nat) (rows : grid) : list ticket :=
  match rows with
  | [] => []
  | r :: more =>
      (if length r <? 8 then [] else [ticket_of idx r])
      ++ ticket_entries (S idx) more
  end.

Definition read_ticket_sheet (st : sheets) : list ticket :=
  ticket_entries 2 (ticket_sheet st).

Definition write_ticket_cell (st : sheets) (row_no col : nat) (v : text) : sheets :=
  Sheets (write_cell (ticket_sheet st) row_no col v) (master_sheet st).

(** Columns N and O of the ticket sheet. *)
Definition write_match_result (st : sheets) (row_no : nat) (suggested_name score : text)
    : sheets :=
  write_ticket_cell (write_ticket_cell st row_no 13 suggested_name) row_no 14 score.

(** Column P. *)
Definition write_approved_name (st : sheets) (row_no : nat) (approved_name : text)
    : sheets :=
  write_ticket_cell st row_no 15 approved_name.

(** Column Q. *)
Definition write_status (st : sheets) (row_no : nat) (status : text) : sheets :=
  write_ticket_cell st row_no 16 status.

(** [{"range": f"{MASTER_SHEET}!{column}{row}", "values": [[value]]}] *)
Record range_update := RangeUpdate {
  u_column : text;
  u_row : nat;
  u_value : text
}.

Definition apply_update (g : grid) (u : range_update) : grid :=
  write_cell g (u_row u) (col_index (u_column u)) (u_value u).

Definition batch_update_master (st : sheets) (updates : list range_update) : sheets :=
  Sheets (ticket_sheet st) (fold_left apply_update updates (master_sheet st)).

Definition batch_update_commit_status (st : sheets) (row_updates : list (nat * text))
    : sheets :=
  fold_left (fun st ru => write_status st (fst ru) (snd ru)) row_updates st.

End SheetManager.

Module VerificationWorkflow.

Import SheetManager.

Definition COMMITTED : text := str "COMMITTED".

(** The six cells of an [extend] of [master_updates]. *)
Definition block (columns : list text) (master_row : nat) (values : list text)
    : list range_update :=
  map (fun cv => RangeUpdate (fst cv) master_row (snd cv)) (combine columns values).

Definition DEPARTURE_COLUMNS : list text :=
  [str "AE"; str "AF"; str "AG"; str "AH"; str "AI"; str "AJ"].

Definition ARRIVAL_COLUMNS : list text :=
  [str "I"; str "J"; str "K"; str "L"; str "M"; str "N"].

(** What one turn of the commit loop does. *)
Inductive commit_outcome :=
| Skipped
| NotFound (status : text)
| Committed (updates : list range_update).

Section Workflow.

Variable partial_ratio : text -> text -> Q.
Variable token_sort_ratio : text -> text -> Q.
Variable dparse : text -> option datetime.

(** The text of a score in its cell. *)
Variable show_score : Q -> text.

(** The suggestion that step 1 writes for a ticket, [None] when the
    ticket is passed over. *)
Definition suggestion (master_names : list master) (ticket : ticket)
    : option (text * Q) :=
  let passenger_name := t_name ticket in
  if text_eqb (t_commit_status ticket) COMMITTED then None
  else if text_eqb (t_mode ticket) (str "ERROR") then None
  else if negb (truthy passenger_name) then None
  else
    let '(matches, best_score) :=
      NameMatcher.match_against_master partial_ratio token_sort_ratio
        passenger_name master_names in
    match matches with
    | m0 :: m1 :: _ =>
        if Qle_bool (score m0 - score m1) 3
        then Some (str "DUPLICATE: " ++ raw (cand m0), best_score)
        else Some (raw (cand m0), best_score)
    | [m0] => Some (raw (cand m0), best_score)
    | [] => Some ([], best_score)
    end.

Definition suggest_row (master_names : list master) (st : sheets) (ticket : ticket)
    : sheets :=
  match suggestion master_names ticket with
  | Some (suggested_name, best_score) =>
      write_match_result st (t_row_no ticket) suggested_name (show_score best_score)
  | None => st
  end.

Definition step1_match_and_suggest (st : sheets) : sheets :=
  let master_names := read_master_names st in
  let tickets := read_ticket_sheet st in
  fold_left (suggest_row master_names) tickets st.

(** Phase 1 of step 2, one ticket. *)
Definition autofill_row (st : sheets) (ticket : ticket) : sheets :=
  let suggested := t_suggested ticket in
  let approved := t_approved ticket in
  if text_eqb (t_mode ticket) (str "ERROR") then st
  else if py_in (str "DUPLICATE") suggested then st
  else if negb (truthy approved) && truthy suggested
  then write_approved_name st (t_row_no ticket) suggested
  else st.

(** [for m in master_names: if m["raw"].upper() == approved_name.upper()] *)
Definition find_master (master_names : list master) (approved_name : text)
    : option master :=
  find (fun m => text_eqb (upper (raw m)) (upper approved_name)) master_names.

Definition or_else (a b : text) : text := if truthy a then a else b.

(** Phase 2 of step 2, one ticket. *)
Definition commit_row (master_names : list master) (ticket : ticket) : commit_outcome :=
  let approved_name := t_approved ticket in
  let journey_date := t_journey_date ticket in
  let mode := t_mode ticket in
  if negb (truthy approved_name) || text_eqb mode (str "ERROR") then Skipped
  else if text_eqb (t_commit_status ticket) COMMITTED then Skipped
  else
    match find_master master_names approved_name with
    | None => NotFound (str "ERROR: '" ++ approved_name ++ str "' not found")
    | Some mtch =>
        let master_row := m_row_no mtch in
        if DateHelper.is_departure_date dparse journey_date then
          let date_to_write := journey_date in
          let formatted_date := DateHelper.format_mmddyy dparse date_to_write in
          let time_value := or_else (t_departure_time ticket) (t_arrival_time ticket) in
          Committed (block DEPARTURE_COLUMNS master_row
                       [formatted_date; mode; t_seat ticket; t_train_number ticket;
                        t_train_name ticket; time_value])
        else
          let date_to_write :=
            if text_eqb mode (str "FLIGHT") then journey_date
            else t_arrival_date ticket in
          let formatted_date := DateHelper.format_mmddyy dparse date_to_write in
          let time_value := or_else (t_arrival_time ticket) (t_departure_time ticket) in
          Committed (block ARRIVAL_COLUMNS master_row
                       [formatted_date; mode; t_seat ticket; t_train_number ticket;
                        t_train_name ticket; time_value])
    end.

(** The commit loop: [master_updates] and [status_updates] as they
    stand after it. *)
Definition commit_step (master_names : list master)
    (acc : list range_update * list (nat * text)) (ticket : ticket)
    : list range_update * list (nat * text) :=
  let '(master_updates, status_updates) := acc in
  match commit_row master_names ticket with
  | Skipped => (master_updates, status_updates)
  | NotFound status =>
      (master_updates, status_updates ++ [(t_row_no ticket, status)])
  | Committed updates =>
      (master_updates ++ updates, status_updates ++ [(t_row_no ticket, COMMITTED)])
  end.

Definition commit_loop (master_names : list master) (tickets : list ticket)
    : list range_update * list (nat * text) :=
  fold_left (commit_step master_names) tickets ([], []).

(** The sheets after phase 1, from which phase 2 reloads the tickets. *)
Definition autofill (st : sheets) : sheets :=
  fold_left autofill_row (read_ticket_sheet st) st.

(** The updates that a run of step 2 sends to the [Master] sheet. *)
Definition step2_master_updates (st : sheets) : list range_update :=
  fst (commit_loop (read_master_names st) (read_ticket_sheet (autofill st))).

Definition step2_autofill_and_commit (st : sheets) : sheets :=
  let master_names := read_master_names st in
  let st := autofill st in
  let tickets := read_ticket_sheet st in
  let '(master_updates, status_updates) := commit_loop master_names tickets in
  batch_update_commit_status (batch_update_master st master_updates) status_updates.

End Workflow.

End VerificationWorkflow.

(** ** Vocabulary of the statements *)

(** [w] occurs in [t]. *)
Definition Substring (w t : text) : Prop := exists pre post, t = pre ++ w ++ post.

(** The transcript has a non-ticket marker and none of the ticket-domain
    markers. *)
Definition non_ticket_only (t : text) : Prop :=
  Exists (fun w => Substring w t) PNRExtractor.non_ticket_words
  /\ Forall (fun w => ~ Substring w t) PNRExtractor.ticket_words.

(** The Master updates and the status update that an outcome of the commit
    loop stands for. *)
Definition updates_of (o : VerificationWorkflow.commit_outcome)
    : list SheetManager.range_update :=
  match o with
  | VerificationWorkflow.Committed updates => updates
  | _ => []
  end.

Definition status_of (row_no : nat) (o : VerificationWorkflow.commit_outcome)
    : list (nat * text) :=
  match o with
  | VerificationWorkflow.Skipped => []
  | VerificationWorkflow.NotFound status => [(row_no, status)]
  | VerificationWorkflow.Committed _ => [(row_no, VerificationWorkflow.COMMITTED)]
  end.

(** A date parser for the examples: it reads the ISO dates [YYYY-MM-DD], on
    which [dateutil] agrees with it, and rejects every other text. *)
Definition iso_date_re : regex :=
  seqs [RBol; RGroup 1 (times digit 4 4); RChar (ch "-"); RGroup 2 (times digit 2 2);
        RChar (ch "-"); RGroup 3 (times digit 2 2); REol].

Definition iso_dparse (s : text) : option datetime :=
  match re_match false iso_date_re s with
  | Some m =>
      Some (DateTime (int_of (group_or_empty m 1)) (int_of (group_or_empty m 2))
                     (int_of (group_or_empty m 3)) 0 0)
  | None => None
  end.

(** A ticket row for the examples: a train ticket whose approved name is
    in the registry. *)
Definition sample_ticket (journey_date commit_status : text) : SheetManager.ticket :=
  SheetManager.Ticket 2 journey_date (str "16:25") (str "2026-02-21") (str "05:40")
    (str "TRAIN") (str "B2/34/LB") (str "12301 / RAJDHANI") (str "Rahul Sharma")
    (str "12301") (str "RAJDHANI") (str "CNF") (str "6562526496") (str "t.pdf")
    (str "RAHUL SHARMA") (str "100") (str "Rahul Sharma") commit_status.

Definition sample_master : list master :=
  [Master (str "ANITA ROY") (str "ANITA ROY") 2 (str "Pune") (str "Hall");
   Master (str "RAHUL SHARMA") (str "RAHUL SHARMA") 3 (str "Delhi") (str "Lawn")].

(** The order of the sorted candidates: a score is at least the scores
    that follow it. *)
Definition score_ge (c d : candidate) : Prop := (score d <= score c)%Q.

(** Stand-ins for the similarity scores in the examples: 100 for equal
    texts; otherwise the partial score is 90 when one text occurs in the
    other, and the token score is 0. *)
Definition sample_partial_ratio (a b : text) : Q :=
  if text_eqb a b then 100%Q else if py_in a b || py_in b a then 90%Q else 0%Q.

Definition sample_token_sort_ratio (a b : text) : Q :=
  if text_eqb a b then 100%Q else 0%Q.

(** A sheet rewritten row by row, each row with its number. *)
Fixpoint map_rows (f : nat -> row -> row) (idx : nat) (rows : grid) : grid :=
  match rows with
  | [] => []
  | r :: more => f idx r :: map_rows f (S idx) more
  end.

(** The effect on its own row of a step that handles the tickets one by
    one: a row of fewer than 8 cells is no ticket and stays as it is. *)
Definition on_ticket (act : SheetManager.ticket -> row -> row) (idx : nat) (r : row) : row :=
  if length r <? 8 then r else act (SheetManager.ticket_of idx r) r.

(** What the three loops over the tickets do to the row of a ticket:
    step 1, the auto-fill of step 2, and the status updates of step 2. *)
Definition suggest_cells (partial_ratio token_sort_ratio : text -> text -> Q)
    (show_score : Q -> text) (master_names : list master)
    (t : SheetManager.ticket) (r : row) : row :=
  match VerificationWorkflow.suggestion partial_ratio token_sort_ratio master_names t with
  | Some (suggested_name, best_score) =>
      set_cell (set_cell r 13 suggested_name) 14 (show_score best_score)
  | None => r
  end.

Definition autofill_cells (t : SheetManager.ticket) (r : row) : row :=
  if text_eqb (SheetManager.t_mode t) (str "ERROR") then r
  else if py_in (str "DUPLICATE") (SheetManager.t_suggested t) then r
  else if negb (truthy (SheetManager.t_approved t)) && truthy (SheetManager.t_suggested t)
  then set_cell r 15 (SheetManager.t_suggested t)
  else r.

Definition status_cells (dparse : text -> option datetime) (master_names : list master)
    (t : SheetManager.ticket) (r : row) : row :=
  match VerificationWorkflow.commit_row dparse master_names t with
  | VerificationWorkflow.Skipped => r
  | VerificationWorkflow.NotFound status => set_cell r 16 status
  | VerificationWorkflow.Committed _ => set_cell r 16 VerificationWorkflow.COMMITTED
  end.

(** A ticket with another commit status, and with another approved name. *)
Definition with_status (t : SheetManager.ticket) (v : text) : SheetManager.ticket :=
  SheetManager.Ticket
    (SheetManager.t_row_no t) (SheetManager.t_journey_date t)
    (SheetManager.t_departure_time t) (SheetManager.t_arrival_date t)
    (SheetManager.t_arrival_time t) (SheetManager.t_mode t) (SheetManager.t_seat t)
    (SheetManager.t_details t) (SheetManager.t_name t) (SheetManager.t_train_number t)
    (SheetManager.t_train_name t) (SheetManager.t_status t) (SheetManager.t_pnr t)
    (SheetManager.t_source t) (SheetManager.t_suggested t) (SheetManager.t_score t)
    (SheetManager.t_approved t) v.

Definition with_approved (t : SheetManager.ticket) (v : text) : SheetManager.ticket :=
  SheetManager.Ticket
    (SheetManager.t_row_no t) (SheetManager.t_journey_date t)
    (SheetManager.t_departure_time t) (SheetManager.t_arrival_date t)
    (SheetManager.t_arrival_time t) (SheetManager.t_mode t) (SheetManager.t_seat t)
    (SheetManager.t_details t) (SheetManager.t_name t) (SheetManager.t_train_number t)
    (SheetManager.t_train_name t) (SheetManager.t_status t) (SheetManager.t_pnr t)
    (SheetManager.t_source t) (SheetManager.t_suggested t) (SheetManager.t_score t)
    v (SheetManager.t_commit_status t).

(** The auto-fill has an approved name to write for the ticket. *)
Definition fill_due (t : SheetManager.ticket) : bool :=
  negb (text_eqb (SheetManager.t_mode t) (str "ERROR"))
  && negb (py_in (str "DUPLICATE") (SheetManager.t_suggested t))
  && (negb (truthy (SheetManager.t_approved t)) && truthy (SheetManager.t_suggested t)).

(** Sheets for the examples: a train ticket to match and commit, a row of
    three cells, and an error row; the registry has two guests. *)
Definition sample_sheets : sheets :=
  Sheets
    [[str "2026-02-20"; str "16:25"; str "2026-02-21"; str "05:40"; str "TRAIN";
      str "B2/34/LB"; str "12301 / RAJDHANI"; str "Mr Rahul Sharma"; str "12301";
      str "RAJDHANI"; str "CNF"; str "6562526496"; str "t.pdf"];
     [str "note"; []; str "x"];
     [[]; []; []; []; str "ERROR"; []; []; []; []; [];
      str "ERROR: PNR not found in ticket"; []; str "u.pdf"]]
    [[str "ANITA ROY"; []; str "Pune"; str "Hall"];
     [str "RAHUL SHARMA"; []; str "Delhi"; str "Lawn"]].

Definition sample_show_score (q : Q) : text := dec (Z.to_nat (Qnum q / Zpos (Qden q))).

(** The formal reading of "the extracted passenger list is absent": the
    extractor of the variant finds no name in the transcript. *)
Definition no_train_names (txt : text) : Prop :=
  PNRExtractor.extract_train_passengers txt = [].

Definition no_flight_names (txt : text) : Prop :=
  PNRExtractor.extract_flight_passengers txt = [].

(** A lookup service for the examples: it knows every PNR and answers
    with a payload that lists the given passengers. *)
Definition sample_lookup (passenger_list : list api_passenger) (pnr : text)
    : option api_response :=
  Some (ApiResponse true
          (Some (ApiData pnr (str "12301") (str "RAJDHANI") (str "2026-02-20")
                         (str "2026-02-21") passenger_list))).

Definition sample_api_passenger : api_passenger :=
  ApiPassenger (Some (str "B2")) None (Some (str "34")) None (Some (str "LB")) None
               (Some (str "CNF")).

(** *** What a pattern denotes

    [den icase r pre w post]: the pattern [r] can match the text [w] when
    [pre] is the text before it (last character first) and [post] the text
    after it.  The context serves the anchors and the word boundary. *)

Fixpoint den_iter (d : text -> text -> text -> Prop) (ws : list text) (pre post : text)
    : Prop :=
  match ws with
  | [] => True
  | w :: ws' => d pre w (concat ws' ++ post) /\ den_iter d ws' (rev w ++ pre) post
  end.

Definition boundary (pre post : text) : bool :=
  xorb (match pre with c :: _ => is_word c | [] => false end)
       (match post with c :: _ => is_word c | [] => false end).

Fixpoint den (icase : bool) (r : regex) (pre w post : text) : Prop :=
  match r with
  | REps => w = []
  | RChar c => exists x, w = [x] /\ item_matches icase (CChar c) x = true
  | RSet neg items => exists x, w = [x] /\ set_matches icase neg items x = true
  | RSeq r1 r2 =>
      exists w1 w2, w = w1 ++ w2 /\ den icase r1 pre w1 (w2 ++ post)
                    /\ den icase r2 (rev w1 ++ pre) w2 post
  | RAlt r1 r2 => den icase r1 pre w post \/ den icase r2 pre w post
  | RRep r' lo hi _ =>
      exists ws, w = concat ws /\ den_iter (den icase r') ws pre post
                 /\ lo <= length ws
                 /\ match hi with Some h => length ws <= h | None => True end
  | RGroup _ r' => den icase r' pre w post
  | RWordB => w = [] /\ boundary pre post = true
  | RBol => w = [] /\ pre = []
  | REol => w = [] /\ (post = [] \/ post = [10%N])
  end.

(** [v] can be what group [n] of the pattern [r] captures. *)
Fixpoint group_den (icase : bool) (r : regex) (n : nat) (v : text) : Prop :=
  match r with
  | RSeq r1 r2 | RAlt r1 r2 => group_den icase r1 n v \/ group_den icase r2 n v
  | RRep r' _ _ _ => group_den icase r' n v
  | RGroup m r' =>
      (m = n /\ exists pre post, den icase r' pre v post) \/ group_den icase r' n v
  | _ => False
  end.

(** Every character that a leaf of the pattern accepts satisfies [P]. *)
Fixpoint leaves (icase : bool) (P : N -> Prop) (r : regex) : Prop :=
  match r with
  | RChar c => forall x, item_matches icase (CChar c) x = true -> P x
  | RSet neg items => forall x, set_matches icase neg items x = true -> P x
  | RSeq r1 r2 | RAlt r1 r2 => leaves icase P r1 /\ leaves icase P r2
  | RRep r' _ _ _ | RGroup _ r' => leaves icase P r'
  | _ => True
  end.

(** Length of the longest prefix whose characters satisfy [p]. *)
Fixpoint run_length (p : N -> bool) (t : text) : nat :=
  match t with
  | c :: t' => if p c then S (run_length p t') else 0
  | [] => 0
  end.

(** Every maximal run of whitespace replaced by [repl]; [in_run] tells
    that the run of the characters at hand has been replaced already. *)
Fixpoint squeeze_from (repl : text) (in_run : bool) (t : text) : text :=
  match t with
  | [] => []
  | c :: t' =>
      if is_space c then (if in_run then [] else repl) ++ squeeze_from repl true t'
      else c :: squeeze_from repl false t'
  end.

Definition squeeze (repl t : text) : text := squeeze_from repl false t.

(** Group [n] takes part in every match of the pattern. *)
Fixpoint binds (n : nat) (r : regex) : bool :=
  match r with
  | RSeq r1 r2 => binds n r1 || binds n r2
  | RAlt r1 r2 => binds n r1 && binds n r2
  | RRep r' lo _ _ => (0 <? lo) && binds n r'
  | RGroup m r' => (m =? n) || binds n r'
  | _ => false
  end.

(** The three rules of the identifier extraction, each a function from the
    transcript to an optional identifier, and their ordered combination. *)
Definition rule_spaced (txt : text) : option text := PNRExtractor.extract_spaced_pnr txt.

Definition rule_labelled (txt : text) : option text :=
  match re_search true PNRExtractor.labelled_pnr_re txt with
  | Some m => Some (upper (group_or_empty m 1))
  | None => None
  end.

Definition not_excluded (c : text) : bool :=
  negb (existsb (startswith c) PNRExtractor.excluded_prefixes).

Definition rule_bare (txt : text) : option text :=
  hd_error (filter not_excluded (re_findall false PNRExtractor.bare_pnr_re txt)).

Fixpoint first_some (rules : list (text -> option text)) (txt : text) : option text :=
  match rules with
  | [] => None
  | rule :: more =>
      match rule txt with
      | Some v => Some v
      | None => first_some more txt
      end
  end.

(** The tokens that [normalize_name] strips. *)
Definition title_tokens : list text :=
  [str "KR"; str "KUMAR"; str "DEVI"; str "SHRI"; str "SMT"; str "MR"; str "MRS";
   str "MS"; str "MISS"; str "SRI"].

(** [w] stands in [y] as a whole word: it occurs there between two word
    boundaries. *)
Definition whole_word (w y : text) : Prop :=
  exists pre post,
    y = pre ++ w ++ post
    /\ boundary (rev pre) (w ++ post) = true
    /\ boundary (rev w ++ rev pre) post = true.

(** A test for [whole_word]: [t] is what remains of the text, [before]
    what precedes it, last character first. *)
Fixpoint occurs_as_word (w before t : text) : bool :=
  (startswith t w && boundary before t
   && boundary (rev w ++ before) (skipn (length w) t))
  || match t with
     | [] => false
     | c :: t' => occurs_as_word w (c :: before) t'
     end.

(** A capital letter or a space: what [[^A-Z ]] leaves in place. *)
Definition letter_or_space (c : N) : bool := is_upper c || (c =? 32)%N.

(** No whitespace but single spaces; [prev_space] tells that the
    character before is a space. *)
Fixpoint single_spaced_from (prev_space : bool) (t : text) : Prop :=
  match t with
  | [] => True
  | c :: t' =>
      if is_space c then c = 32%N /\ prev_space = false /\ single_spaced_from true t'
      else single_spaced_from false t'
  end.

(** The form of a normalised name: capital letters and single spaces,
    with no space at either end. *)
Definition normal_form (y : text) : Prop :=
  Forall (fun c => letter_or_space c = true) y
  /\ single_spaced_from false y
  /\ strip y = y.

(** The columns I to N and AE to AJ of the Master sheet, as indices. *)
Definition travel_columns : list nat := [8; 9; 10; 11; 12; 13; 30; 31; 32; 33; 34; 35].

(** The entry that [read_master_names] makes of a row of the registry. *)
Definition master_of (i : nat) (r : row) : master :=
  Master (strip (cell r 0)) (NameMatcher.normalize_name (strip (cell r 0))) i
         (cell r 2) (cell r 3).

(** The characters of a name: not a digit, and neither of the two marks
    that the OCR puts for a capital I. *)
Definition name_char (c : N) : Prop := is_digit c = false /\ c <> 33%N /\ c <> 124%N.

(** The airline codes of the flight-number pattern. *)
Definition flight_codes : list text :=
  [str "IX"; str "I5"; str "AI"; str "6E"; str "UK"; str "SG"; str "QP"].

(** [if final_score > best_score: best_score = final_score], score by
    score. *)
Definition raise_best (best s : Q) : Q := if Qlt_bool best s then s else best.

Section RunVocabulary.

Variable file_bytes : Type.
Variable download_file : text -> result file_bytes.
Variable read_text : file_bytes -> text -> text -> result text.
Variable check_train_pnr : text -> option api_response.
Variable dparse : text -> option datetime.

(** The record of a file of the folder; [None] when the download
    raises. *)
Definition file_record (f : WeddingTicketAutomation.file_meta) : option ticket_data :=
  match download_file (WeddingTicketAutomation.f_id f) with
  | Ok content =>
      Some (TicketProcessor.process_ticket check_train_pnr dparse
              (read_text content (WeddingTicketAutomation.f_mimeType f)
                         (WeddingTicketAutomation.f_name f))
              (WeddingTicketAutomation.f_name f))
  | Raise _ => None
  end.

(** The file was downloaded and its record has no error. *)
Definition file_done (f : WeddingTicketAutomation.file_meta) : bool :=
  match file_record f with
  | Some td => negb (is_error td)
  | None => false
  end.

(** The requests that the record of a file gives rise to. *)
Definition file_requests (append_ok : list row -> bool)
    (f : WeddingTicketAutomation.file_meta) : list (list row) :=
  match file_record f with
  | Some td => fst (GoogleSheetsManager.append_ticket_data append_ok [] td)
  | None => []
  end.

End RunVocabulary.

(** Records for the examples: a train ticket of one passenger, a flight
    ticket of one passenger, and a lookup that answers without
    success. *)
Definition sample_train_record : ticket_data :=
  TicketData MODE_TRAIN None (str "t.pdf") (str "6562526496")
    [Passenger (str "Rahul Sharma") (str "B2") (str "34") (str "LB") (str "CNF")]
    (str "12301 / RAJDHANI") (str "12301") (str "RAJDHANI") (str "2026-02-20")
    (str "16:25") (str "2026-02-21") (str "05:40") [] [] [] [].

Definition sample_flight_record : ticket_data :=
  TicketData MODE_FLIGHT None (str "f.pdf") (str "ABC123")
    [Passenger (str "Mr Rahul Sharma") [] [] [] []]
    (str "IndiGo 6E 2134") [] [] [] (str "09:10") [] (str "11:25")
    (str "IndiGo") (str "6E 2134") (str "Delhi → Pune") (str "20 Feb 2026").

Definition failing_lookup (pnr : text) : option api_response :=
  Some (ApiResponse false None).


(** * Properties *)

(** ** Text *)

Lemma text_eqb_eq (a b : text) : text_eqb a b = true <-> a = b.
Proof.
  revert b; induction a as [|x a IH]; intros [|y b]; simpl; split;
    try discriminate; try reflexivity.
  - intros H. apply andb_true_iff in H as [Hx Hab].
    apply N.eqb_eq in Hx. apply IH in Hab. now subst.
  - intros H. injection H as -> ->. rewrite N.eqb_refl. simpl. now apply IH.
Qed.

Lemma text_eqb_refl (a : text) : text_eqb a a = true.
Proof. now apply text_eqb_eq. Qed.

Lemma startswith_spec (t p : text) :
  startswith t p = true <-> exists post, t = p ++ post.
Proof.
  revert t; induction p as [|a p IH]; intros t; simpl.
  - split; [intros _; now exists t | reflexivity].
  - destruct t as [|b t]; simpl.
    + split; [discriminate | intros [post H]; discriminate].
    + rewrite andb_true_iff, N.eqb_eq, IH. split.
      * intros [-> [post ->]]. now exists post.
      * intros [post H]. injection H as -> ->. split; [reflexivity | now exists post].
Qed.

Lemma py_in_spec (w t : text) : py_in w t = true <-> Substring w t.
Proof.
  unfold Substring. induction t as [|c t IH]; simpl.
  - rewrite orb_false_r, startswith_spec. split.
    + intros [post H]. now exists [], post.
    + intros [pre [post H]]. symmetry in H.
      apply app_eq_nil in H as [-> H]. apply app_eq_nil in H as [-> ->]. now exists [].
  - rewrite orb_true_iff, startswith_spec, IH. split.
    + intros [[post H] | [pre [post H]]].
      * now exists [], post.
      * exists (c :: pre), post. simpl. now rewrite H.
    + intros [[|x pre] [post H]]; simpl in H.
      * left. now exists post.
      * injection H as -> H. right. now exists pre, post.
Qed.

Lemma any_in_spec (words : list text) (t : text) :
  PNRExtractor.any_in words t = true <-> Exists (fun w => Substring w t) words.
Proof.
  unfold PNRExtractor.any_in. rewrite existsb_exists, Exists_exists.
  split; intros [w [Hin H]]; exists w; split; trivial; now apply py_in_spec.
Qed.

Lemma any_in_false (words : list text) (t : text) :
  PNRExtractor.any_in words t = false <-> Forall (fun w => ~ Substring w t) words.
Proof.
  rewrite <- not_true_iff_false, any_in_spec, Forall_Exists_neg. reflexivity.
Qed.

(** The keywords that [score] counts are those of the list that occur in
    the text. *)
Lemma score_counts (kws : list text) (t : text) :
  PNRExtractor.score kws t = length (filter (fun kw => py_in kw t) kws)
  /\ forall kw, In kw (filter (fun kw => py_in kw t) kws) <-> In kw kws /\ Substring kw t.
Proof.
  split; [reflexivity|]. intros kw. rewrite filter_In, py_in_spec. reflexivity.
Qed.

(** ** Classification *)

Lemma non_ticket_only_dec (t : text) :
  PNRExtractor.any_in PNRExtractor.non_ticket_words t
  && negb (PNRExtractor.any_in PNRExtractor.ticket_words t) = true
  <-> non_ticket_only t.
Proof.
  unfold non_ticket_only.
  rewrite andb_true_iff, negb_true_iff, any_in_spec, any_in_false. reflexivity.
Qed.

(** C4.  Classification works on the lower-cased transcript.  It answers
    UNKNOWN when the text has a non-ticket marker and none of the
    ticket-domain markers.  Otherwise it answers FLIGHT exactly when the
    number of flight keywords that occur exceeds the number of train
    keywords that occur and is at least 2; failing that, TRAIN exactly when
    some train keyword occurs; failing that, UNKNOWN. *)
Theorem detect_ticket_type_decision_rule (txt : text) :
  let t := lower txt in
  let flight_score := PNRExtractor.score PNRExtractor.flight_kw t in
  let train_score := PNRExtractor.score PNRExtractor.train_kw t in
  (non_ticket_only t -> PNRExtractor.detect_ticket_type txt = UNKNOWN)
  /\ (~ non_ticket_only t ->
      (PNRExtractor.detect_ticket_type txt = FLIGHT
       <-> train_score < flight_score /\ 2 <= flight_score)
      /\ (PNRExtractor.detect_ticket_type txt = TRAIN
          <-> ~ (train_score < flight_score /\ 2 <= flight_score) /\ 0 < train_score)
      /\ (PNRExtractor.detect_ticket_type txt = UNKNOWN
          <-> ~ (train_score < flight_score /\ 2 <= flight_score) /\ train_score = 0)).
Proof.
  intros t flight_score train_score. unfold PNRExtractor.detect_ticket_type.
  fold t. fold flight_score. fold train_score.
  pose proof (non_ticket_only_dec t) as Hdec.
  destruct (PNRExtractor.any_in PNRExtractor.non_ticket_words t
            && negb (PNRExtractor.any_in PNRExtractor.ticket_words t)).
  - split; [reflexivity|]. intros Hn. exfalso. apply Hn. now apply Hdec.
  - split.
    + intros Hy. apply Hdec in Hy. discriminate.
    + intros _.
      destruct (train_score <? flight_score) eqn:E1;
        [apply Nat.ltb_lt in E1 | apply Nat.ltb_ge in E1];
        (destruct (2 <=? flight_score) eqn:E2;
          [apply Nat.leb_le in E2 | apply Nat.leb_gt in E2]); simpl;
        try (destruct (0 <? train_score) eqn:E3;
          [apply Nat.ltb_lt in E3 | apply Nat.ltb_ge in E3]);
        repeat split; intros; try discriminate; try lia;
        try (intros [? ?]; lia).
Qed.

(** The two classifications that the specification lists as tests. *)
Example detect_train_example :
  PNRExtractor.detect_ticket_type (str "PNR 4512345678 coach S4 berth 32") = TRAIN.
Proof. vm_compute. reflexivity. Qed.

Example detect_invoice_example :
  PNRExtractor.detect_ticket_type (str "Tax Invoice - buyer and seller GSTIN, receipt enclosed")
  = UNKNOWN.
Proof. vm_compute. reflexivity. Qed.

Lemma detect_ticket_type_decision_rule_witness :
  non_ticket_only (lower (str "Invoice for the buyer"))
  /\ PNRExtractor.detect_ticket_type (str "Invoice for the buyer") = UNKNOWN.
Proof.
  assert (H : non_ticket_only (lower (str "Invoice for the buyer"))).
  { apply non_ticket_only_dec. vm_compute. reflexivity. }
  split; [exact H|].
  exact (proj1 (detect_ticket_type_decision_rule (str "Invoice for the buyer")) H).
Defined.

(** ** Routing of a commit *)

Section Routing.

Import SheetManager VerificationWorkflow.

Variable dparse : text -> option datetime.

Lemma truthy_nonempty (t : text) : truthy t = true <-> t <> [].
Proof. destruct t; simpl; split; congruence. Qed.

Lemma text_eqb_neq (a b : text) : text_eqb a b = false <-> a <> b.
Proof. rewrite <- not_true_iff_false, text_eqb_eq. reflexivity. Qed.

(** [date_ge] is the order of the calendar. *)
Lemma date_ge_spec (y1 m1 d1 y2 m2 d2 : nat) :
  DateHelper.date_ge (y1, m1, d1) (y2, m2, d2) = true
  <-> y2 < y1 \/ (y1 = y2 /\ (m2 < m1 \/ (m1 = m2 /\ d2 <= d1))).
Proof.
  unfold DateHelper.date_ge.
  rewrite !orb_true_iff, !andb_true_iff, orb_true_iff, andb_true_iff,
    !Nat.ltb_lt, !Nat.eqb_eq, Nat.leb_le.
  reflexivity.
Qed.

(** The commit loop gathers, ticket by ticket and in order, the updates
    and the status of each outcome. *)
Lemma commit_loop_spec (master_names : list master) (tickets : list ticket) :
  commit_loop dparse master_names tickets
  = (flat_map (fun t => updates_of (commit_row dparse master_names t)) tickets,
     flat_map (fun t => status_of (t_row_no t) (commit_row dparse master_names t)) tickets).
Proof.
  unfold commit_loop.
  enough (H : forall mu su,
    fold_left (commit_step dparse master_names) tickets (mu, su)
    = (mu ++ flat_map (fun t => updates_of (commit_row dparse master_names t)) tickets,
       su ++ flat_map (fun t => status_of (t_row_no t) (commit_row dparse master_names t))
               tickets)) by apply (H [] []).
  induction tickets as [|t tickets IH]; intros mu su; simpl.
  - now rewrite !app_nil_r.
  - destruct (commit_row dparse master_names t); simpl; rewrite IH;
      now rewrite <- ?app_assoc.
Qed.

Lemma commit_row_eligible (master_names : list master) (t : ticket) (m : master) :
  t_approved t <> [] -> t_mode t <> str "ERROR" -> t_commit_status t <> COMMITTED ->
  find_master master_names (t_approved t) = Some m ->
  commit_row dparse master_names t
  = if DateHelper.is_departure_date dparse (t_journey_date t)
    then Committed (block DEPARTURE_COLUMNS (m_row_no m)
                      [DateHelper.format_mmddyy dparse (t_journey_date t); t_mode t;
                       t_seat t; t_train_number t; t_train_name t;
                       or_else (t_departure_time t) (t_arrival_time t)])
    else Committed (block ARRIVAL_COLUMNS (m_row_no m)
                      [DateHelper.format_mmddyy dparse
                         (if text_eqb (t_mode t) (str "FLIGHT") then t_journey_date t
                          else t_arrival_date t);
                       t_mode t; t_seat t; t_train_number t; t_train_name t;
                       or_else (t_arrival_time t) (t_departure_time t)]).
Proof.
  intros Ha He Hc Hm. unfold commit_row.
  apply truthy_nonempty in Ha. apply text_eqb_neq in He, Hc.
  rewrite Ha, He, Hc, Hm. simpl. reflexivity.
Qed.

(** C9.  When the journey date of a ticket row is empty, or is a text
    that the date parser rejects, [is_departure_date] answers [False];
    the commit of that row, whenever it takes place, then writes the six
    cells I to N of the arrival block and no cell of the departure
    block. *)
Theorem unparsed_journey_date_routes_arrival
    (master_names : list master) (t : ticket) :
  t_journey_date t = [] \/ dparse (t_journey_date t) = None ->
  DateHelper.is_departure_date dparse (t_journey_date t) = false
  /\ forall updates,
       commit_row dparse master_names t = Committed updates ->
       map u_column updates = ARRIVAL_COLUMNS
       /\ forall u, In u updates -> ~ In (u_column u) DEPARTURE_COLUMNS.
Proof.
  intros Hd.
  assert (Hf : DateHelper.is_departure_date dparse (t_journey_date t) = false).
  { unfold DateHelper.is_departure_date. destruct Hd as [-> | ->]; [reflexivity|].
    now destruct (negb (truthy (t_journey_date t))). }
  split; [exact Hf|]. intros updates Hc. unfold commit_row in Hc. rewrite Hf in Hc.
  destruct (negb (truthy (t_approved t)) || text_eqb (t_mode t) (str "ERROR"));
    [discriminate|].
  destruct (text_eqb (t_commit_status t) COMMITTED); [discriminate|].
  destruct (find_master master_names (t_approved t)); [|discriminate].
  injection Hc as <-. split; [reflexivity|].
  intros u Hu Hin. apply (in_map u_column) in Hu.
  revert Hu Hin. generalize (u_column u). intros c Hu Hin. simpl in Hu.
  unfold DEPARTURE_COLUMNS in Hin. simpl in Hin.
  repeat (destruct Hu as [Hu | Hu];
          [subst c; vm_compute in Hin; intuition discriminate|]).
  exact Hu.
Qed.

(** C3.  A ticket row that the commit loop does not pass over (an approved
    name, a mode other than ERROR, not yet COMMITTED) and whose approved name
    is found in the registry at entry [m] is committed to row [m_row_no m] of
    the Master sheet.  When its journey date parses to a date on or after
    2026-02-13, the cells AE to AJ of that row receive the journey date (as
    MM/DD/YY), the mode, the seat, the vehicle number, the vehicle name and
    the departure time, or the arrival time when the departure time is
    empty.  When it parses to an earlier date, the cells I to N receive the
    journey date for a FLIGHT and the arrival date for a TRAIN, then the
    mode, the seat, the vehicle number, the vehicle name and the arrival
    time, or the departure time when the arrival time is empty.  These
    updates are part of the batch sent to the Master sheet, and the row is
    marked COMMITTED. *)
Theorem commit_routes_by_journey_date
    (master_names : list master) (t : ticket) (m : master) (dt : datetime) :
  t_approved t <> [] -> t_mode t <> str "ERROR" -> t_commit_status t <> COMMITTED ->
  find_master master_names (t_approved t) = Some m ->
  t_journey_date t <> [] -> dparse (t_journey_date t) = Some dt ->
  let row := m_row_no m in
  let departure_or_arrival :=
    match t_departure_time t with [] => t_arrival_time t | _ => t_departure_time t end in
  let arrival_or_departure :=
    match t_arrival_time t with [] => t_departure_time t | _ => t_arrival_time t end in
  let departure_block :=
    [RangeUpdate (str "AE") row (DateHelper.strftime_mdy dt);
     RangeUpdate (str "AF") row (t_mode t);
     RangeUpdate (str "AG") row (t_seat t);
     RangeUpdate (str "AH") row (t_train_number t);
     RangeUpdate (str "AI") row (t_train_name t);
     RangeUpdate (str "AJ") row departure_or_arrival] in
  let arrival_block (date_written : text) :=
    [RangeUpdate (str "I") row date_written;
     RangeUpdate (str "J") row (t_mode t);
     RangeUpdate (str "K") row (t_seat t);
     RangeUpdate (str "L") row (t_train_number t);
     RangeUpdate (str "M") row (t_train_name t);
     RangeUpdate (str "N") row arrival_or_departure] in
  (DateHelper.date_ge (DateHelper.date_of dt) DEPARTURE_DATE = true ->
   commit_row dparse master_names t = Committed departure_block)
  /\ (DateHelper.date_ge (DateHelper.date_of dt) DEPARTURE_DATE = false ->
      (t_mode t = str "FLIGHT" ->
       commit_row dparse master_names t
       = Committed (arrival_block (DateHelper.strftime_mdy dt)))
      /\ (t_mode t = str "TRAIN" ->
          commit_row dparse master_names t
          = Committed (arrival_block (DateHelper.format_mmddyy dparse (t_arrival_date t)))))
  /\ (forall tickets updates,
        In t tickets -> commit_row dparse master_names t = Committed updates ->
        incl updates (fst (commit_loop dparse master_names tickets))
        /\ In (t_row_no t, COMMITTED) (snd (commit_loop dparse master_names tickets))).
Proof.
  intros Ha He Hc Hm Hj Hd row dep_or_arr arr_or_dep departure_block arrival_block.
  pose proof (commit_row_eligible master_names t m Ha He Hc Hm) as Hrow.
  assert (Hdep : DateHelper.is_departure_date dparse (t_journey_date t)
                 = DateHelper.date_ge (DateHelper.date_of dt) DEPARTURE_DATE).
  { unfold DateHelper.is_departure_date. apply truthy_nonempty in Hj.
    now rewrite Hj, Hd. }
  assert (Hfmt : DateHelper.format_mmddyy dparse (t_journey_date t)
                 = DateHelper.strftime_mdy dt).
  { unfold DateHelper.format_mmddyy. apply truthy_nonempty in Hj. now rewrite Hj, Hd. }
  assert (Hor : forall a b, or_else a b = match a with [] => b | _ => a end)
    by (intros [|x a] b; reflexivity).
  rewrite Hdep, Hfmt, !Hor in Hrow. repeat split.
  - intros Hge. rewrite Hge in Hrow. exact Hrow.
  - intros Hmode. rewrite H, Hmode, text_eqb_refl, Hfmt in Hrow.
    rewrite <- Hmode in Hrow. exact Hrow.
  - intros Hmode.
    assert (Hne : text_eqb (str "TRAIN") (str "FLIGHT") = false)
      by (vm_compute; reflexivity).
    rewrite H, Hmode, Hne in Hrow. rewrite <- Hmode in Hrow. exact Hrow.
  - rewrite commit_loop_spec. simpl. intros u Hu. apply in_flat_map.
    exists t. split; [assumption|]. now rewrite H0.
  - rewrite commit_loop_spec. simpl. apply in_flat_map.
    exists t. split; [assumption|]. rewrite H0. now left.
Qed.

End Routing.

(** The two routings that the specification lists as tests, with the
    updates they send. *)
Example routing_2026_02_20_departure :
  VerificationWorkflow.commit_row iso_dparse sample_master
    (sample_ticket (str "2026-02-20") [])
  = VerificationWorkflow.Committed
      [SheetManager.RangeUpdate (str "AE") 3 (str "02/20/26");
       SheetManager.RangeUpdate (str "AF") 3 (str "TRAIN");
       SheetManager.RangeUpdate (str "AG") 3 (str "B2/34/LB");
       SheetManager.RangeUpdate (str "AH") 3 (str "12301");
       SheetManager.RangeUpdate (str "AI") 3 (str "RAJDHANI");
       SheetManager.RangeUpdate (str "AJ") 3 (str "16:25")].
Proof. vm_compute. reflexivity. Qed.

Example routing_2026_02_10_arrival :
  VerificationWorkflow.commit_row iso_dparse sample_master
    (sample_ticket (str "2026-02-10") [])
  = VerificationWorkflow.Committed
      [SheetManager.RangeUpdate (str "I") 3 (str "02/21/26");
       SheetManager.RangeUpdate (str "J") 3 (str "TRAIN");
       SheetManager.RangeUpdate (str "K") 3 (str "B2/34/LB");
       SheetManager.RangeUpdate (str "L") 3 (str "12301");
       SheetManager.RangeUpdate (str "M") 3 (str "RAJDHANI");
       SheetManager.RangeUpdate (str "N") 3 (str "05:40")].
Proof. vm_compute. reflexivity. Qed.

Lemma commit_routes_by_journey_date_witness :
  VerificationWorkflow.commit_row iso_dparse sample_master
    (sample_ticket (str "2026-02-20") [])
  = VerificationWorkflow.Committed
      [SheetManager.RangeUpdate (str "AE") 3
         (DateHelper.strftime_mdy (DateTime 2026 2 20 0 0));
       SheetManager.RangeUpdate (str "AF") 3 (str "TRAIN");
       SheetManager.RangeUpdate (str "AG") 3 (str "B2/34/LB");
       SheetManager.RangeUpdate (str "AH") 3 (str "12301");
       SheetManager.RangeUpdate (str "AI") 3 (str "RAJDHANI");
       SheetManager.RangeUpdate (str "AJ") 3 (str "16:25")].
Proof.
  apply (commit_routes_by_journey_date iso_dparse sample_master
           (sample_ticket (str "2026-02-20") [])
           (Master (str "RAHUL SHARMA") (str "RAHUL SHARMA") 3 (str "Delhi") (str "Lawn"))
           (DateTime 2026 2 20 0 0)).
  - vm_compute. discriminate.
  - vm_compute. discriminate.
  - vm_compute. discriminate.
  - vm_compute. reflexivity.
  - vm_compute. discriminate.
  - vm_compute. reflexivity.
  - vm_compute. reflexivity.
Defined.

Lemma unparsed_journey_date_routes_arrival_witness :
  DateHelper.is_departure_date iso_dparse
    (SheetManager.t_journey_date (sample_ticket (str "20th of Feb") [])) = false
  /\ exists updates,
       VerificationWorkflow.commit_row iso_dparse sample_master
         (sample_ticket (str "20th of Feb") []) = VerificationWorkflow.Committed updates
       /\ map SheetManager.u_column updates = VerificationWorkflow.ARRIVAL_COLUMNS.
Proof.
  assert (H : SheetManager.t_journey_date (sample_ticket (str "20th of Feb") []) = []
              \/ iso_dparse (SheetManager.t_journey_date (sample_ticket (str "20th of Feb") []))
                 = None)
    by (right; vm_compute; reflexivity).
  destruct (unparsed_journey_date_routes_arrival iso_dparse sample_master
              (sample_ticket (str "20th of Feb") []) H) as [Hf Hc].
  split; [exact Hf|].
  eexists. split; [vm_compute; reflexivity|].
  vm_compute. reflexivity.
Defined.

(** ** Fuzzy matching *)

Lemma Qlt_bool_true (a b : Q) : Qlt_bool a b = true <-> (a < b)%Q.
Proof.
  unfold Qlt_bool. rewrite negb_true_iff, <- not_true_iff_false, Qle_bool_iff.
  split; [apply Qnot_le_lt | apply Qlt_not_le].
Qed.

Lemma Qlt_bool_false (a b : Q) : Qlt_bool a b = false <-> (b <= a)%Q.
Proof. unfold Qlt_bool. rewrite negb_false_iff. apply Qle_bool_iff. Qed.

(** [py_max] is the greater of its arguments. *)
Lemma py_max_spec (a b : Q) :
  (a <= NameMatcher.py_max a b)%Q /\ (b <= NameMatcher.py_max a b)%Q
  /\ (NameMatcher.py_max a b = a \/ NameMatcher.py_max a b = b).
Proof.
  unfold NameMatcher.py_max. destruct (Qlt_bool a b) eqn:E.
  - apply Qlt_bool_true in E. repeat split; [now apply Qlt_le_weak | apply Qle_refl | now right].
  - apply Qlt_bool_false in E. repeat split; [apply Qle_refl | exact E | now left].
Qed.

Lemma insert_desc_perm (c : candidate) (l : list candidate) :
  Permutation (NameMatcher.insert_desc c l) (c :: l).
Proof.
  induction l as [|d l IH]; simpl; [reflexivity|].
  destruct (Qlt_bool (score c) (score d)); [|reflexivity].
  rewrite IH. apply perm_swap.
Qed.

Lemma sort_desc_perm (l : list candidate) : Permutation (NameMatcher.sort_desc l) l.
Proof.
  induction l as [|c l IH]; simpl; [reflexivity|].
  rewrite insert_desc_perm. now apply perm_skip.
Qed.

Lemma insert_desc_sorted (c : candidate) (l : list candidate) :
  StronglySorted score_ge l -> StronglySorted score_ge (NameMatcher.insert_desc c l).
Proof.
  induction 1 as [|d l Hs IH Hd]; simpl.
  - constructor; constructor.
  - destruct (Qlt_bool (score c) (score d)) eqn:E.
    + constructor; [exact IH|].
      apply Forall_forall. intros x Hx.
      apply (Permutation_in _ (insert_desc_perm c l)) in Hx. destruct Hx as [<- | Hx].
      * apply Qlt_bool_true in E. now apply Qlt_le_weak.
      * rewrite Forall_forall in Hd. now apply Hd.
    + apply Qlt_bool_false in E. constructor; [now constructor|].
      constructor; [exact E|].
      apply Forall_forall. intros x Hx. rewrite Forall_forall in Hd.
      unfold score_ge in *. apply Qle_trans with (score d); [now apply Hd | exact E].
Qed.

Lemma sort_desc_sorted (l : list candidate) : StronglySorted score_ge (NameMatcher.sort_desc l).
Proof.
  induction l as [|c l IH]; simpl; [constructor | now apply insert_desc_sorted].
Qed.

Section Matching.

Variable partial_ratio : text -> text -> Q.
Variable token_sort_ratio : text -> text -> Q.

Let final_score := NameMatcher.final_score partial_ratio token_sort_ratio.

(** The loop of [match_against_master] keeps, in the order of the
    registry, the entries that reach the threshold. *)
Lemma match_loop_spec (norm_passenger : text) (master_names : list master)
    (matches : list candidate) (best : Q) :
  fst (fold_left (NameMatcher.match_step partial_ratio token_sort_ratio norm_passenger)
                 master_names (matches, best))
  = matches
    ++ map (fun m => Candidate m (final_score norm_passenger m))
         (filter (fun m => Qle_bool MATCH_THRESHOLD (final_score norm_passenger m))
                 master_names).
Proof.
  revert matches best. induction master_names as [|m l IH]; intros matches best; simpl.
  - now rewrite app_nil_r.
  - fold (final_score norm_passenger m).
    destruct (Qle_bool MATCH_THRESHOLD (final_score norm_passenger m)); simpl.
    + rewrite IH, <- app_assoc. reflexivity.
    + apply IH.
Qed.

Lemma match_against_master_candidates (passenger_name : text) (master_names : list master) :
  passenger_name <> [] ->
  fst (NameMatcher.match_against_master partial_ratio token_sort_ratio
         passenger_name master_names)
  = NameMatcher.sort_desc
      (map (fun m => Candidate m (final_score (NameMatcher.normalize_name passenger_name) m))
         (filter (fun m => Qle_bool MATCH_THRESHOLD
                             (final_score (NameMatcher.normalize_name passenger_name) m))
                 master_names)).
Proof.
  intros Hp. unfold NameMatcher.match_against_master.
  destruct passenger_name as [|c p]; [congruence|].
  destruct master_names as [|m l]; [reflexivity|].
  pose proof (match_loop_spec (NameMatcher.normalize_name (c :: p)) (m :: l) [] 0%Q) as H.
  destruct (fold_left _ (m :: l) ([], 0%Q)) as [matches best]. simpl in H. now rewrite H.
Qed.

(** C6.  For a ticket row that step 1 does not pass over, the score of a
    registry entry is the greater of the partial similarity and of the
    token-order-invariant similarity between the normalised passenger name
    and the normalised registry name.  The candidates are exactly the
    entries whose score is at least 85, each once, sorted by descending
    score.  Step 1 writes an empty suggestion when there is no candidate, the
    candidate when there is one, [DUPLICATE: ] followed by the first
    candidate when there are two or more and the two highest scores differ
    by at most 3, and the first, top-scoring, candidate otherwise.  A row
    flagged [DUPLICATE: ] is not resolved by the auto-fill of step 2,
    which writes no approved name for it. *)
Theorem fuzzy_match_resolution (t : SheetManager.ticket) (master_names : list master) :
  SheetManager.t_commit_status t <> VerificationWorkflow.COMMITTED ->
  SheetManager.t_mode t <> str "ERROR" ->
  SheetManager.t_name t <> [] ->
  let norm_passenger := NameMatcher.normalize_name (SheetManager.t_name t) in
  let partial m := partial_ratio norm_passenger (norm m) in
  let token m := token_sort_ratio norm_passenger (norm m) in
  let score_of m := final_score norm_passenger m in
  let result :=
    NameMatcher.match_against_master partial_ratio token_sort_ratio
      (SheetManager.t_name t) master_names in
  let matches := fst result in
  let suggested :=
    VerificationWorkflow.suggestion partial_ratio token_sort_ratio master_names t in
  (forall m, (partial m <= score_of m)%Q /\ (token m <= score_of m)%Q
             /\ (score_of m = partial m \/ score_of m = token m))
  /\ Permutation matches
       (map (fun m => Candidate m (score_of m))
            (filter (fun m => Qle_bool MATCH_THRESHOLD (score_of m)) master_names))
  /\ (forall c, In c matches
                <-> exists m, In m master_names /\ c = Candidate m (score_of m)
                              /\ (85 <= score_of m)%Q)
  /\ StronglySorted score_ge matches
  /\ (matches = [] -> suggested = Some ([], snd result))
  /\ (forall c, matches = [c] -> suggested = Some (raw (cand c), snd result))
  /\ (forall c0 c1 more, matches = c0 :: c1 :: more ->
        ((score c0 - score c1 <= 3)%Q ->
         suggested = Some (str "DUPLICATE: " ++ raw (cand c0), snd result))
        /\ (~ (score c0 - score c1 <= 3)%Q ->
            suggested = Some (raw (cand c0), snd result)))
  /\ (forall st t' flagged,
        SheetManager.t_suggested t' = str "DUPLICATE: " ++ flagged ->
        VerificationWorkflow.autofill_row st t' = st).
Proof.
  intros Hc He Hn norm_passenger partial token score_of result matches suggested.
  assert (Hm : matches
               = NameMatcher.sort_desc
                   (map (fun m => Candidate m (score_of m))
                      (filter (fun m => Qle_bool MATCH_THRESHOLD (score_of m)) master_names)))
    by (apply match_against_master_candidates; exact Hn).
  assert (Hs : suggested
               = match matches with
                 | m0 :: m1 :: _ =>
                     if Qle_bool (score m0 - score m1) 3
                     then Some (str "DUPLICATE: " ++ raw (cand m0), snd result)
                     else Some (raw (cand m0), snd result)
                 | [m0] => Some (raw (cand m0), snd result)
                 | [] => Some ([], snd result)
                 end).
  { unfold suggested, VerificationWorkflow.suggestion.
    apply text_eqb_neq in Hc, He. apply truthy_nonempty in Hn.
    rewrite Hc, He, Hn. simpl. unfold matches, result.
    destruct (NameMatcher.match_against_master _ _ _ _) as [ms best]. reflexivity. }
  split; [intros m; apply py_max_spec|].
  split; [rewrite Hm; apply sort_desc_perm|].
  split.
  { intros c. rewrite Hm. split.
    - intros Hin. apply (Permutation_in _ (sort_desc_perm _)) in Hin.
      apply in_map_iff in Hin as [m [<- Hin]]. apply filter_In in Hin as [Hin Hle].
      exists m. repeat split; trivial. now apply Qle_bool_iff in Hle.
    - intros [m [Hin [-> Hle]]].
      apply (Permutation_in _ (Permutation_sym (sort_desc_perm _))).
      apply (in_map (fun m => Candidate m (score_of m))).
      apply filter_In. split; trivial. now apply Qle_bool_iff. }
  split; [rewrite Hm; apply sort_desc_sorted|].
  split; [intros E; now rewrite Hs, E|].
  split; [intros c E; now rewrite Hs, E|].
  split.
  { intros c0 c1 more E. rewrite Hs, E. split; intros H.
    - apply Qle_bool_iff in H. now rewrite H.
    - destruct (Qle_bool (score c0 - score c1) 3) eqn:E'; [|reflexivity].
      apply Qle_bool_iff in E'. contradiction. }
  intros st t' flagged Hflag. unfold VerificationWorkflow.autofill_row.
  assert (Hdup : py_in (str "DUPLICATE") (SheetManager.t_suggested t') = true).
  { rewrite Hflag. apply py_in_spec. now exists [], (str ": " ++ flagged). }
  rewrite Hdup. now destruct (text_eqb (SheetManager.t_mode t') (str "ERROR")).
Qed.

End Matching.

(** The single match and the duplicate that the specification lists as
    tests. *)
Example single_match_example :
  VerificationWorkflow.suggestion sample_partial_ratio sample_token_sort_ratio sample_master
    (SheetManager.ticket_of 2
       [[]; []; []; []; str "TRAIN"; []; []; str "Mr Rahul Sharma"])
  = Some (str "RAHUL SHARMA", 100%Q).
Proof. vm_compute. reflexivity. Qed.

Example duplicate_example :
  VerificationWorkflow.suggestion
    (fun _ b => if text_eqb b (str "RAHUL SHARMA") then 92%Q
                else if text_eqb b (str "RAHUL S") then 90%Q else 0%Q)
    (fun _ _ => 0%Q)
    [Master (str "Rahul S") (str "RAHUL S") 2 [] [];
     Master (str "Rahul Sharma") (str "RAHUL SHARMA") 3 [] []]
    (SheetManager.ticket_of 2
       [[]; []; []; []; str "TRAIN"; []; []; str "Mr Rahul Sharma"])
  = Some (str "DUPLICATE: Rahul Sharma", 92%Q).
Proof. vm_compute. reflexivity. Qed.

Lemma fuzzy_match_resolution_witness :
  VerificationWorkflow.suggestion sample_partial_ratio sample_token_sort_ratio sample_master
    (sample_ticket (str "2026-02-20") [])
  = Some (str "RAHUL SHARMA", 100%Q).
Proof.
  assert (H1 : SheetManager.t_commit_status (sample_ticket (str "2026-02-20") [])
               <> VerificationWorkflow.COMMITTED) by (vm_compute; discriminate).
  assert (H2 : SheetManager.t_mode (sample_ticket (str "2026-02-20") []) <> str "ERROR")
    by (vm_compute; discriminate).
  assert (H3 : SheetManager.t_name (sample_ticket (str "2026-02-20") []) <> [])
    by (vm_compute; discriminate).
  destruct (fuzzy_match_resolution sample_partial_ratio sample_token_sort_ratio
              (sample_ticket (str "2026-02-20") []) sample_master H1 H2 H3)
    as (_ & _ & _ & _ & _ & Hone & _ & _).
  rewrite (Hone (Candidate (Master (str "RAHUL SHARMA") (str "RAHUL SHARMA") 3
                                   (str "Delhi") (str "Lawn")) 100%Q)).
  - vm_compute. reflexivity.
  - vm_compute. reflexivity.
Defined.

(** ** The sheet, row by row *)

Lemma cell_set_cell (r : row) (col k : nat) (v : text) :
  cell (set_cell r col v) k = if k =? col then v else cell r k.
Proof.
  unfold cell. revert r k. induction col as [|c IH]; intros r k.
  - destruct r, k as [|k]; simpl; trivial. now destruct k.
  - destruct r as [|x r], k as [|k]; simpl; trivial.
    rewrite IH. destruct (k =? c); trivial. now destruct k.
Qed.

Lemma length_set_cell (r : row) (col : nat) (v : text) :
  length (set_cell r col v) = Nat.max (length r) (S col).
Proof.
  revert r. induction col as [|c IH]; intros [|x r]; simpl;
    rewrite ?IH; simpl; lia.
Qed.

Lemma update_row_app (pre : grid) (r : row) (more : grid) (f : row -> row) :
  update_row (pre ++ r :: more) (length pre) f = pre ++ f r :: more.
Proof. induction pre as [|p pre IH]; simpl; [reflexivity | now rewrite IH]. Qed.

Lemma update_row_twice (g : grid) (i : nat) (f1 f2 : row -> row) :
  update_row (update_row g i f1) i f2 = update_row g i (fun r => f2 (f1 r)).
Proof.
  revert g. induction i as [|i IH]; intros [|r g]; simpl; trivial;
    now rewrite IH.
Qed.

Lemma update_row_id (g : grid) (i : nat) :
  i < length g -> update_row g i (fun r => r) = g.
Proof.
  revert g. induction i as [|i IH]; intros [|r g] H; simpl in *; try lia; trivial.
  rewrite IH; [reflexivity | lia].
Qed.

Lemma update_row_ext (g : grid) (i : nat) (f1 f2 : row -> row) :
  (forall r, f1 r = f2 r) -> update_row g i f1 = update_row g i f2.
Proof.
  intros H. revert g. induction i as [|i IH]; intros [|r g]; simpl;
    rewrite ?H, ?IH; reflexivity.
Qed.

Lemma map_rows_compose (f g : nat -> row -> row) (idx : nat) (rows : grid) :
  map_rows g idx (map_rows f idx rows) = map_rows (fun i r => g i (f i r)) idx rows.
Proof.
  revert idx. induction rows as [|r rows IH]; intros idx; simpl; [reflexivity|].
  now rewrite IH.
Qed.

Lemma nth_error_map_rows (f : nat -> row -> row) (idx : nat) (rows : grid) (i : nat) :
  nth_error (map_rows f idx rows) i = option_map (f (idx + i)) (nth_error rows i).
Proof.
  revert idx i. induction rows as [|r rows IH]; intros idx [|i]; simpl; trivial.
  - now rewrite Nat.add_0_r.
  - rewrite IH. now rewrite Nat.add_succ_r.
Qed.

(** The tickets read from a sheet are its rows of 8 cells or more, each
    with its row number. *)
Lemma in_ticket_entries (t : SheetManager.ticket) (idx : nat) (rows : grid) :
  In t (SheetManager.ticket_entries idx rows)
  <-> exists i r, nth_error rows i = Some r /\ 8 <= length r
                  /\ t = SheetManager.ticket_of (idx + i) r.
Proof.
  revert idx. induction rows as [|r rows IH]; intros idx; simpl.
  - split; [contradiction | intros [[|i] [r [H _]]]; discriminate].
  - rewrite in_app_iff, IH. split.
    + intros [H | [i [r' [Hn [Hl ->]]]]].
      * destruct (length r <? 8) eqn:E; [contradiction|]. destruct H as [<- | []].
        apply Nat.ltb_ge in E. exists 0, r. now rewrite Nat.add_0_r.
      * exists (S i), r'. now rewrite Nat.add_succ_r.
    + intros [[|i] [r' [Hn [Hl ->]]]]; simpl in Hn.
      * injection Hn as ->. left. apply Nat.ltb_ge in Hl. rewrite Hl.
        left. now rewrite Nat.add_0_r.
      * right. exists i, r'. now rewrite Nat.add_succ_r.
Qed.

Lemma entries_map_rows_forall (P : SheetManager.ticket -> Prop) (f : nat -> row -> row)
    (idx : nat) (rows : grid) :
  (forall i r, 8 <= length (f i r) -> P (SheetManager.ticket_of i (f i r))) ->
  Forall P (SheetManager.ticket_entries idx (map_rows f idx rows)).
Proof.
  intros H. revert idx. induction rows as [|r rows IH]; intros idx; simpl.
  - constructor.
  - apply Forall_app. split; [|apply IH].
    destruct (length (f idx r) <? 8) eqn:E; constructor; [|constructor].
    apply H. now apply Nat.ltb_ge.
Qed.

(** A loop over the tickets in which each turn rewrites the row of its
    ticket rewrites the sheet row by row. *)
Lemma fold_ticket_writes (step : sheets -> SheetManager.ticket -> sheets)
    (act : SheetManager.ticket -> row -> row) :
  (forall st t, 2 <= SheetManager.t_row_no t ->
                SheetManager.t_row_no t - 2 < length (ticket_sheet st) ->
                step st t
                = Sheets (update_row (ticket_sheet st) (SheetManager.t_row_no t - 2) (act t))
                         (master_sheet st)) ->
  forall (rows pre : grid) (ms : grid),
    fold_left step (SheetManager.ticket_entries (2 + length pre) rows)
              (Sheets (pre ++ rows) ms)
    = Sheets (pre ++ map_rows (on_ticket act) (2 + length pre) rows) ms.
Proof.
  intros Hstep. induction rows as [|r rows IH]; intros pre ms; [reflexivity|].
  cbn [SheetManager.ticket_entries map_rows]. unfold on_ticket at 1.
  destruct (length r <? 8) eqn:E.
  - cbn [app]. specialize (IH (pre ++ [r]) ms).
    rewrite length_app, <- app_assoc in IH. cbn [length app] in IH.
    replace (2 + (length pre + 1)) with (S (2 + length pre)) in IH by lia.
    rewrite IH, <- app_assoc. reflexivity.
  - cbn [app fold_left]. rewrite Hstep.
    + cbn [SheetManager.t_row_no SheetManager.ticket_of ticket_sheet master_sheet].
      replace (2 + length pre - 2) with (length pre) by lia.
      rewrite update_row_app.
      specialize (IH (pre ++ [act (SheetManager.ticket_of (2 + length pre) r) r]) ms).
      rewrite length_app, <- app_assoc in IH. cbn [length app] in IH.
      replace (2 + (length pre + 1)) with (S (2 + length pre)) in IH by lia.
      rewrite IH, <- app_assoc. reflexivity.
    + cbn. lia.
    + cbn [SheetManager.t_row_no SheetManager.ticket_of ticket_sheet].
      rewrite length_app. cbn. lia.
Qed.

Lemma fold_left_flat_map {A B C : Type} (f : A -> C -> A) (g : B -> list C)
    (l : list B) (a : A) :
  fold_left f (flat_map g l) a = fold_left (fun a x => fold_left f (g x) a) l a.
Proof.
  revert a. induction l as [|x l IH]; intros a; simpl; [reflexivity|].
  now rewrite fold_left_app, IH.
Qed.

Lemma write_ticket_cell_row (st : sheets) (row_no col : nat) (v : text) :
  2 <= row_no ->
  SheetManager.write_ticket_cell st row_no col v
  = Sheets (update_row (ticket_sheet st) (row_no - 2) (fun r => set_cell r col v))
           (master_sheet st).
Proof.
  intros H. unfold SheetManager.write_ticket_cell, write_cell.
  apply Nat.ltb_ge in H. now rewrite H.
Qed.

Section Rows.

Import SheetManager VerificationWorkflow.

Variable partial_ratio : text -> text -> Q.
Variable token_sort_ratio : text -> text -> Q.
Variable dparse : text -> option datetime.
Variable show_score : Q -> text.

(** Step 1 rewrites the ticket sheet row by row and leaves the Master
    sheet alone. *)
Lemma step1_rows (st : sheets) :
  step1_match_and_suggest partial_ratio token_sort_ratio show_score st
  = Sheets (map_rows (on_ticket (suggest_cells partial_ratio token_sort_ratio show_score
                                   (read_master_names st)))
                     2 (ticket_sheet st))
           (master_sheet st).
Proof.
  unfold step1_match_and_suggest, read_ticket_sheet.
  generalize (read_master_names st) as master_names. intros master_names.
  destruct st as [rows ms]. cbn [ticket_sheet master_sheet].
  apply (fold_ticket_writes _ _) with (pre := []).
  intros st t H2 Hlt. unfold suggest_row, suggest_cells.
  destruct (suggestion _ _ master_names t) as [[s b]|].
  - unfold write_match_result. rewrite !write_ticket_cell_row by assumption.
    cbn [ticket_sheet master_sheet]. now rewrite update_row_twice.
  - rewrite update_row_id by assumption. now destruct st.
Qed.

(** So does the auto-fill of step 2. *)
Lemma autofill_rows (st : sheets) :
  autofill st
  = Sheets (map_rows (on_ticket autofill_cells) 2 (ticket_sheet st)) (master_sheet st).
Proof.
  unfold autofill, read_ticket_sheet.
  destruct st as [rows ms]. cbn [ticket_sheet master_sheet].
  apply (fold_ticket_writes _ _) with (pre := []).
  intros st t H2 Hlt. unfold autofill_row, autofill_cells.
  assert (Hid : st = Sheets (update_row (ticket_sheet st) (t_row_no t - 2) (fun r => r))
                            (master_sheet st))
    by (rewrite update_row_id by assumption; now destruct st).
  destruct (text_eqb (t_mode t) (str "ERROR")); [exact Hid|].
  destruct (py_in (str "DUPLICATE") (t_suggested t)); [exact Hid|].
  destruct (negb (truthy (t_approved t)) && truthy (t_suggested t)); [|exact Hid].
  unfold write_approved_name. now rewrite write_ticket_cell_row.
Qed.

(** And so do the status updates that follow the commit loop. *)
Lemma status_rows (master_names : list master) (st : sheets) :
  batch_update_commit_status st
    (snd (commit_loop dparse master_names (read_ticket_sheet st)))
  = Sheets (map_rows (on_ticket (status_cells dparse master_names)) 2 (ticket_sheet st))
           (master_sheet st).
Proof.
  rewrite commit_loop_spec. cbn [snd]. unfold batch_update_commit_status.
  rewrite fold_left_flat_map. unfold read_ticket_sheet.
  destruct st as [rows ms]. cbn [ticket_sheet master_sheet].
  apply (fold_ticket_writes _ _) with (pre := []).
  intros st t H2 Hlt. unfold status_cells.
  destruct (commit_row dparse master_names t); cbn [status_of fold_left fst snd].
  - rewrite update_row_id by assumption. now destruct st.
  - unfold write_status. now rewrite write_ticket_cell_row.
  - unfold write_status. now rewrite write_ticket_cell_row.
Qed.

End Rows.

(** ** The registry is not touched by a commit *)

Lemma master_entries_update_row (g : grid) (k col : nat) (v : text) (i : nat) :
  4 <= col ->
  SheetManager.master_entries i (update_row g k (fun r => set_cell r col v))
  = SheetManager.master_entries i g.
Proof.
  intros Hcol.
  assert (Hcell : forall r j, j < 4 -> cell (set_cell r col v) j = cell r j).
  { intros r j Hj. rewrite cell_set_cell.
    destruct (j =? col) eqn:E; [apply Nat.eqb_eq in E; lia | reflexivity]. }
  assert (Hnil : forall k i,
             SheetManager.master_entries i (update_row [] k (fun r => set_cell r col v)) = []).
  { clear k i. induction k as [|k IH]; intros i; cbn [update_row SheetManager.master_entries].
    - rewrite !Hcell by lia. reflexivity.
    - rewrite IH. reflexivity. }
  revert g i. induction k as [|k IH]; intros [|r g] i.
  - apply (Hnil 0).
  - cbn [update_row SheetManager.master_entries]. now rewrite !Hcell by lia.
  - apply (Hnil (S k)).
  - cbn [update_row SheetManager.master_entries]. now rewrite IH.
Qed.

Lemma master_entries_updates (updates : list SheetManager.range_update) (g : grid) :
  Forall (fun u => 4 <= col_index (SheetManager.u_column u)) updates ->
  SheetManager.master_entries 2 (fold_left SheetManager.apply_update updates g)
  = SheetManager.master_entries 2 g.
Proof.
  intros H. revert g. induction H as [|u updates Hu _ IH]; intros g; simpl; [reflexivity|].
  rewrite IH. unfold SheetManager.apply_update, write_cell.
  destruct (SheetManager.u_row u <? 2); [reflexivity|].
  now apply master_entries_update_row.
Qed.

(** A commit writes in the columns I to N or AE to AJ only. *)
Lemma commit_row_columns (dparse : text -> option datetime) (master_names : list master)
    (t : SheetManager.ticket) :
  Forall (fun u => 4 <= col_index (SheetManager.u_column u))
         (updates_of (VerificationWorkflow.commit_row dparse master_names t)).
Proof.
  unfold VerificationWorkflow.commit_row.
  destruct (negb (truthy (SheetManager.t_approved t)) || _); [constructor|].
  destruct (text_eqb (SheetManager.t_commit_status t) _); [constructor|].
  destruct (VerificationWorkflow.find_master _ _); [|constructor].
  destruct (DateHelper.is_departure_date _ _); cbn [updates_of];
    repeat (constructor; [vm_compute; repeat constructor|]); constructor.
Qed.

Lemma step2_updates_columns (dparse : text -> option datetime) (st : sheets) :
  Forall (fun u => 4 <= col_index (SheetManager.u_column u))
         (VerificationWorkflow.step2_master_updates dparse st).
Proof.
  unfold VerificationWorkflow.step2_master_updates. rewrite commit_loop_spec. cbn [fst].
  apply Forall_forall. intros u Hu. apply in_flat_map in Hu as [t [_ Hu]].
  pose proof (commit_row_columns dparse (SheetManager.read_master_names st) t) as H.
  rewrite Forall_forall in H. now apply H.
Qed.

(** Step 2, row by row: the auto-fill, then the status of the commit; the
    Master sheet receives the updates of the commit loop. *)
Lemma step2_rows (dparse : text -> option datetime) (st : sheets) :
  VerificationWorkflow.step2_autofill_and_commit dparse st
  = Sheets
      (map_rows (on_ticket (status_cells dparse (SheetManager.read_master_names st))) 2
         (map_rows (on_ticket autofill_cells) 2 (ticket_sheet st)))
      (fold_left SheetManager.apply_update
         (VerificationWorkflow.step2_master_updates dparse st) (master_sheet st)).
Proof.
  unfold VerificationWorkflow.step2_autofill_and_commit,
    VerificationWorkflow.step2_master_updates.
  pose proof (status_rows dparse (SheetManager.read_master_names st)
                (SheetManager.batch_update_master (VerificationWorkflow.autofill st)
                   (fst (VerificationWorkflow.commit_loop dparse
                           (SheetManager.read_master_names st)
                           (SheetManager.read_ticket_sheet
                              (VerificationWorkflow.autofill st)))))) as H.
  destruct (VerificationWorkflow.commit_loop dparse (SheetManager.read_master_names st)
              (SheetManager.read_ticket_sheet (VerificationWorkflow.autofill st)))
    as [mu su] eqn:E.
  cbn [fst] in *. unfold SheetManager.read_ticket_sheet in H at 1.
  cbn [SheetManager.batch_update_master ticket_sheet master_sheet] in H.
  fold (SheetManager.read_ticket_sheet (VerificationWorkflow.autofill st)) in H.
  rewrite E in H. cbn [snd] in H. rewrite H.
  rewrite autofill_rows. reflexivity.
Qed.

(** ** A second run of the commit *)

Lemma ticket_of_status (i : nat) (r : row) (v : text) :
  SheetManager.ticket_of i (set_cell r 16 v) = with_status (SheetManager.ticket_of i r) v.
Proof. unfold SheetManager.ticket_of, with_status. now rewrite !cell_set_cell. Qed.

Lemma ticket_of_approved (i : nat) (r : row) (v : text) :
  SheetManager.ticket_of i (set_cell r 15 v) = with_approved (SheetManager.ticket_of i r) v.
Proof. unfold SheetManager.ticket_of, with_approved. now rewrite !cell_set_cell. Qed.

Lemma autofill_cells_due (t : SheetManager.ticket) (r : row) :
  autofill_cells t r
  = if fill_due t then set_cell r 15 (SheetManager.t_suggested t) else r.
Proof.
  unfold autofill_cells, fill_due.
  destruct (text_eqb (SheetManager.t_mode t) (str "ERROR")); [reflexivity|].
  destruct (py_in (str "DUPLICATE") (SheetManager.t_suggested t)); reflexivity.
Qed.

(** Once the auto-fill has handled a row, it has nothing left to write
    there. *)
Lemma autofill_settles (i : nat) (r : row) :
  fill_due (SheetManager.ticket_of i (autofill_cells (SheetManager.ticket_of i r) r)) = false.
Proof.
  rewrite autofill_cells_due.
  destruct (fill_due (SheetManager.ticket_of i r)) eqn:E; [|exact E].
  rewrite ticket_of_approved. unfold fill_due in *.
  cbn [with_approved SheetManager.t_mode SheetManager.t_suggested SheetManager.t_approved].
  apply andb_true_iff in E as [E1 E2]. apply andb_true_iff in E2 as [_ E2].
  rewrite E2. simpl. now rewrite andb_false_r.
Qed.

Lemma fill_due_with_status (t : SheetManager.ticket) (v : text) :
  fill_due (with_status t v) = fill_due t.
Proof. reflexivity. Qed.

Lemma length_autofill_cells (t : SheetManager.ticket) (r : row) :
  length r <= length (autofill_cells t r).
Proof.
  rewrite autofill_cells_due. destruct (fill_due t); [|lia].
  rewrite length_set_cell. lia.
Qed.

Lemma length_status_cells (dparse : text -> option datetime) (master_names : list master)
    (t : SheetManager.ticket) (r : row) :
  length r <= length (status_cells dparse master_names t r).
Proof.
  unfold status_cells.
  destruct (VerificationWorkflow.commit_row dparse master_names t);
    rewrite ?length_set_cell; lia.
Qed.

(** A row that the commit loop has handled gives no Master update when
    the loop meets it again with the status that was written. *)
Lemma commit_row_again (dparse : text -> option datetime) (master_names : list master)
    (t : SheetManager.ticket) :
  match VerificationWorkflow.commit_row dparse master_names t with
  | VerificationWorkflow.Skipped => True
  | VerificationWorkflow.NotFound status =>
      updates_of (VerificationWorkflow.commit_row dparse master_names (with_status t status))
      = []
  | VerificationWorkflow.Committed _ =>
      VerificationWorkflow.commit_row dparse master_names
        (with_status t VerificationWorkflow.COMMITTED)
      = VerificationWorkflow.Skipped
  end.
Proof.
  unfold VerificationWorkflow.commit_row.
  cbn [with_status SheetManager.t_approved SheetManager.t_mode SheetManager.t_commit_status
       SheetManager.t_journey_date].
  destruct (negb (truthy (SheetManager.t_approved t)) || _); [exact I|].
  destruct (text_eqb (SheetManager.t_commit_status t) _); [exact I|].
  destruct (VerificationWorkflow.find_master _ _).
  - destruct (DateHelper.is_departure_date _ _); now rewrite text_eqb_refl.
  - now destruct (text_eqb _ VerificationWorkflow.COMMITTED).
Qed.

Lemma second_run_row (dparse : text -> option datetime) (master_names : list master)
    (i : nat) (r : row) :
  let r3 :=
    on_ticket autofill_cells i
      (on_ticket (status_cells dparse master_names) i (on_ticket autofill_cells i r)) in
  8 <= length r3 ->
  updates_of (VerificationWorkflow.commit_row dparse master_names
                (SheetManager.ticket_of i r3)) = [].
Proof.
  intros r3 H3. subst r3. destruct (length r <? 8) eqn:E.
  - exfalso. unfold on_ticket in H3. rewrite !E in H3. apply Nat.ltb_lt in E. lia.
  - clear H3.
    assert (F1 : on_ticket autofill_cells i r = autofill_cells (SheetManager.ticket_of i r) r)
      by (unfold on_ticket; now rewrite E).
    rewrite F1. apply Nat.ltb_ge in E.
    pose proof (length_autofill_cells (SheetManager.ticket_of i r) r) as L1.
    pose proof (autofill_settles i r) as S1.
    set (r1 := autofill_cells (SheetManager.ticket_of i r) r) in *.
    assert (E1 : (length r1 <? 8) = false) by (apply Nat.ltb_ge; lia).
    assert (F2 : on_ticket (status_cells dparse master_names) i r1
                 = status_cells dparse master_names (SheetManager.ticket_of i r1) r1)
      by (unfold on_ticket; now rewrite E1).
    rewrite F2.
    pose proof (length_status_cells dparse master_names (SheetManager.ticket_of i r1) r1)
      as L2.
    pose proof (commit_row_again dparse master_names (SheetManager.ticket_of i r1)) as A.
    unfold status_cells in *.
    destruct (VerificationWorkflow.commit_row dparse master_names
                (SheetManager.ticket_of i r1)) as [|failed|ups] eqn:C.
    + assert (F3 : on_ticket autofill_cells i r1 = r1)
        by (unfold on_ticket; now rewrite E1, autofill_cells_due, S1).
      now rewrite F3, C.
    + assert (E2 : (length (set_cell r1 16 failed) <? 8) = false)
        by (apply Nat.ltb_ge; lia).
      assert (F3 : on_ticket autofill_cells i (set_cell r1 16 failed)
                   = set_cell r1 16 failed).
      { unfold on_ticket. rewrite E2, autofill_cells_due, ticket_of_status,
          fill_due_with_status, S1. reflexivity. }
      now rewrite F3, ticket_of_status.
    + assert (E2 : (length (set_cell r1 16 VerificationWorkflow.COMMITTED) <? 8) = false)
        by (apply Nat.ltb_ge; lia).
      assert (F3 : on_ticket autofill_cells i (set_cell r1 16 VerificationWorkflow.COMMITTED)
                   = set_cell r1 16 VerificationWorkflow.COMMITTED).
      { unfold on_ticket. rewrite E2, autofill_cells_due, ticket_of_status,
          fill_due_with_status, S1. reflexivity. }
      now rewrite F3, ticket_of_status, A.
Qed.

Lemma flat_map_nil {A B : Type} (g : A -> list B) (l : list A) :
  Forall (fun x => g x = []) l -> flat_map g l = [].
Proof. induction 1 as [|x l Hx _ IH]; simpl; [reflexivity | now rewrite Hx, IH]. Qed.

(** The tickets read from a sheet have distinct row numbers. *)
Lemma ticket_entries_row_nos (idx : nat) (rows : grid) :
  NoDup (map SheetManager.t_row_no (SheetManager.ticket_entries idx rows)).
Proof.
  revert idx. induction rows as [|r rows IH]; intros idx; cbn [SheetManager.ticket_entries].
  - constructor.
  - destruct (length r <? 8); cbn [app map]; [apply IH|].
    constructor; [|apply IH]. cbn [SheetManager.t_row_no SheetManager.ticket_of].
    intros Hin. apply in_map_iff in Hin as [t [Ht Hin]].
    apply in_ticket_entries in Hin as [i [r' [_ [_ ->]]]].
    cbn [SheetManager.t_row_no SheetManager.ticket_of] in Ht. lia.
Qed.

Section Idempotence.

Import SheetManager VerificationWorkflow.

Variable partial_ratio : text -> text -> Q.
Variable token_sort_ratio : text -> text -> Q.
Variable dparse : text -> option datetime.
Variable show_score : Q -> text.

Let step1 := step1_match_and_suggest partial_ratio token_sort_ratio show_score.
Let step2 := step2_autofill_and_commit dparse.

Lemma second_run_sends_nothing (st : sheets) :
  step2_master_updates dparse (step2 st) = [].
Proof.
  unfold step2. rewrite step2_rows. unfold step2_master_updates at 1.
  rewrite autofill_rows. unfold read_ticket_sheet, read_master_names.
  cbn [ticket_sheet master_sheet].
  rewrite master_entries_updates by apply step2_updates_columns.
  fold (read_master_names st). rewrite commit_loop_spec. cbn [fst].
  rewrite !map_rows_compose. apply flat_map_nil.
  apply entries_map_rows_forall. intros i r. apply second_run_row.
Qed.

(** C1.  The commit loop passes over every row whose status is COMMITTED,
    whatever its other cells hold.  A run of step 2 sends to the Master
    sheet one block of updates for each row it commits, the rows it meets
    having distinct numbers; a second run, on the sheets that the first run
    leaves, sends no update at all and leaves the Master sheet as it is, so
    each row has been written to the Master sheet exactly once.  Step 1
    passes over a COMMITTED row as well and leaves its cells, the
    suggestion among them, as they are. *)
Theorem commit_is_idempotent :
  (forall master_names t,
     t_commit_status t = COMMITTED -> commit_row dparse master_names t = Skipped)
  /\ (forall st,
        step2_master_updates dparse st
        = flat_map (fun t => updates_of (commit_row dparse (read_master_names st) t))
                   (read_ticket_sheet (autofill st))
        /\ NoDup (map t_row_no (read_ticket_sheet (autofill st))))
  /\ (forall st, step2_master_updates dparse (step2 st) = [])
  /\ (forall st, master_sheet (step2 (step2 st)) = master_sheet (step2 st))
  /\ (forall master_names t,
        t_commit_status t = COMMITTED ->
        suggestion partial_ratio token_sort_ratio master_names t = None)
  /\ (forall st i r,
        nth_error (ticket_sheet st) i = Some r -> cell r 16 = COMMITTED ->
        nth_error (ticket_sheet (step1 st)) i = Some r).
Proof.
  assert (Hsug : forall master_names t,
             t_commit_status t = COMMITTED ->
             suggestion partial_ratio token_sort_ratio master_names t = None).
  { intros master_names t H. unfold suggestion. now rewrite H, text_eqb_refl. }
  repeat split.
  - intros master_names t H. unfold commit_row. rewrite H, text_eqb_refl.
    now destruct (negb (truthy (t_approved t)) || text_eqb (t_mode t) (str "ERROR")).
  - unfold step2_master_updates. now rewrite commit_loop_spec.
  - apply ticket_entries_row_nos.
  - apply second_run_sends_nothing.
  - intros st. unfold step2 at 1. rewrite step2_rows. cbn [master_sheet].
    fold step2. now rewrite second_run_sends_nothing.
  - exact Hsug.
  - intros st i r Hr Hc. unfold step1. rewrite step1_rows. cbn [ticket_sheet].
    rewrite nth_error_map_rows, Hr. cbn [option_map]. f_equal.
    unfold on_ticket. destruct (length r <? 8); [reflexivity|].
    unfold suggest_cells. now rewrite Hsug.
Qed.

(** C10.  A row of the ticket sheet with fewer than 8 cells is not among
    the tickets that are read, and is the same after step 1 and after
    step 2: neither writes a suggestion, a score, an approved name or a
    commit status in it. *)
Theorem short_row_is_left_alone (st : sheets) (i : nat) (r : row) :
  nth_error (ticket_sheet st) i = Some r -> length r < 8 ->
  (forall t, In t (read_ticket_sheet st) -> t_row_no t <> i + 2)
  /\ nth_error (ticket_sheet (step1 st)) i = Some r
  /\ nth_error (ticket_sheet (step2 st)) i = Some r.
Proof.
  intros Hr Hl. assert (E : (length r <? 8) = true) by now apply Nat.ltb_lt.
  repeat split.
  - intros t Ht Hno. apply in_ticket_entries in Ht as [j [r' [Hj [Hl' ->]]]].
    cbn [t_row_no ticket_of] in Hno. assert (j = i) by lia. subst j.
    rewrite Hr in Hj. injection Hj as <-. lia.
  - unfold step1. rewrite step1_rows. cbn [ticket_sheet].
    rewrite nth_error_map_rows, Hr. cbn [option_map]. unfold on_ticket. now rewrite E.
  - unfold step2. rewrite step2_rows. cbn [ticket_sheet].
    rewrite map_rows_compose, nth_error_map_rows, Hr. cbn [option_map].
    unfold on_ticket. now rewrite !E.
Qed.

End Idempotence.

(** Step 1, then step 2 twice, on the example sheets: the first run of
    step 2 sends the six updates of the departure block of row 3 of the
    Master sheet, the second run sends nothing. *)
Example two_runs_example :
  let st1 :=
    VerificationWorkflow.step1_match_and_suggest sample_partial_ratio
      sample_token_sort_ratio sample_show_score sample_sheets in
  nth_error (ticket_sheet st1) 0
  = Some [str "2026-02-20"; str "16:25"; str "2026-02-21"; str "05:40"; str "TRAIN";
          str "B2/34/LB"; str "12301 / RAJDHANI"; str "Mr Rahul Sharma"; str "12301";
          str "RAJDHANI"; str "CNF"; str "6562526496"; str "t.pdf";
          str "RAHUL SHARMA"; str "100"]
  /\ VerificationWorkflow.step2_master_updates iso_dparse st1
     = [SheetManager.RangeUpdate (str "AE") 3 (str "02/20/26");
        SheetManager.RangeUpdate (str "AF") 3 (str "TRAIN");
        SheetManager.RangeUpdate (str "AG") 3 (str "B2/34/LB");
        SheetManager.RangeUpdate (str "AH") 3 (str "12301");
        SheetManager.RangeUpdate (str "AI") 3 (str "RAJDHANI");
        SheetManager.RangeUpdate (str "AJ") 3 (str "16:25")]
  /\ map (fun r => cell r 16)
         (ticket_sheet (VerificationWorkflow.step2_autofill_and_commit iso_dparse st1))
     = [str "COMMITTED"; []; []]
  /\ VerificationWorkflow.step2_master_updates iso_dparse
       (VerificationWorkflow.step2_autofill_and_commit iso_dparse st1) = [].
Proof. vm_compute. repeat split. Qed.

Lemma commit_is_idempotent_witness :
  VerificationWorkflow.commit_row iso_dparse sample_master
    (sample_ticket (str "2026-02-20") (str "COMMITTED"))
  = VerificationWorkflow.Skipped
  /\ VerificationWorkflow.suggestion sample_partial_ratio sample_token_sort_ratio
       sample_master (sample_ticket (str "2026-02-20") (str "COMMITTED"))
     = None.
Proof.
  destruct (commit_is_idempotent sample_partial_ratio sample_token_sort_ratio iso_dparse
              sample_show_score) as (Hskip & _ & _ & _ & Hsug & _).
  split.
  - apply Hskip. vm_compute. reflexivity.
  - apply Hsug. vm_compute. reflexivity.
Defined.

Lemma short_row_is_left_alone_witness :
  nth_error
    (ticket_sheet
       (VerificationWorkflow.step1_match_and_suggest sample_partial_ratio
          sample_token_sort_ratio sample_show_score sample_sheets)) 1
  = Some [str "note"; []; str "x"]
  /\ nth_error
       (ticket_sheet (VerificationWorkflow.step2_autofill_and_commit iso_dparse sample_sheets))
       1
     = Some [str "note"; []; str "x"].
Proof.
  assert (H1 : nth_error (ticket_sheet sample_sheets) 1 = Some [str "note"; []; str "x"])
    by (vm_compute; reflexivity).
  assert (H2 : length [str "note"; []; str "x"] < 8) by (vm_compute; lia).
  destruct (short_row_is_left_alone sample_partial_ratio sample_token_sort_ratio iso_dparse
              sample_show_score sample_sheets 1 [str "note"; []; str "x"] H1 H2)
    as (_ & Hs1 & Hs2).
  split; [exact Hs1 | exact Hs2].
Defined.

(** ** Extraction never raising: the flight number *)

(** Without a coded flight number in the transcript, the search of the
    first pattern returns [None] and [extract_flight_details] raises. *)
Lemma flight_details_raise (txt : text) :
  re_search true FlightExtractor.coded_flight_re txt = None ->
  FlightExtractor.extract_flight_details txt = Raise FlightExtractor.none_has_no_groups.
Proof.
  intros H. unfold FlightExtractor.extract_flight_details,
    FlightExtractor.find_flight_number, FlightExtractor.flight_number_patterns.
  now rewrite H.
Qed.

(** C2, at the input on which the program departs from it.  The transcript
    is classified FLIGHT and names a passenger, yet [extract_flight_details]
    raises [AttributeError] because no coded flight number is found;
    [process_ticket] catches the exception and the document becomes an
    ERROR record although no required field is absent. *)
Theorem flight_without_number_raises :
  let txt := str "IndiGo flight boarding pass Mr Rahul Sharma PNR: ABC123" in
  PNRExtractor.detect_ticket_type txt = FLIGHT
  /\ PNRExtractor.extract_flight_passengers txt
     = [PNRExtractor.FlightPassenger (str "Mr Rahul Sharma") []]
  /\ FlightExtractor.extract_flight_details txt
     = Raise (str "'NoneType' object has no attribute 'groups'")
  /\ forall check_train_pnr dparse filename,
       TicketProcessor.process_ticket check_train_pnr dparse (Ok txt) filename
       = error_record
           (str "Processing failed: 'NoneType' object has no attribute 'groups'")
           filename [].
Proof.
  intros txt.
  assert (Hd : PNRExtractor.detect_ticket_type txt = FLIGHT) by (vm_compute; reflexivity).
  assert (Hs : re_search true FlightExtractor.coded_flight_re txt = None)
    by (vm_compute; reflexivity).
  assert (Hr : FlightExtractor.extract_flight_details txt
               = Raise (str "'NoneType' object has no attribute 'groups'")).
  { rewrite (flight_details_raise txt Hs). reflexivity. }
  split; [exact Hd|]. split; [vm_compute; reflexivity|]. split; [exact Hr|].
  intros check_train_pnr dparse filename.
  unfold TicketProcessor.process_ticket. cbn [bind]. rewrite Hd.
  unfold TicketProcessor.process_flight. rewrite Hr. cbn [bind].
  vm_compute. reflexivity.
Qed.

(** With a coded flight number the same transcript is processed. *)
Example flight_with_number_example :
  FlightExtractor.extract_flight_details
    (str "IndiGo flight 6E 2134 boarding pass Mr Rahul Sharma PNR: ABC123 Delhi - Mumbai 20 Feb 2026 10:30 12:45")
  = Ok (FlightExtractor.FlightDetails (str "IndiGo") (str "6E 2134") (str "ABC123")
          (str "Delhi → Mumbai") (str "20 Feb 2026") (str "10:30") (str "12:45")
          [PNRExtractor.FlightPassenger (str "Mr Rahul Sharma") []]).
Proof. vm_compute. reflexivity. Qed.

(** ** Passengers of a processed document *)

Lemma truthy_app (a b : text) : truthy a = true -> truthy (a ++ b) = true.
Proof. now destruct a. Qed.

Lemma is_error_error_record (error filename pnr : text) :
  truthy error = true -> is_error (error_record error filename pnr) = true.
Proof. intros H. exact H. Qed.

Lemma length_merge_passengers (names : list text) (idx : nat) (l : list api_passenger) :
  length (TrainPNRAPI.merge_passengers names idx l) = length l.
Proof.
  revert idx. induction l as [|p l IH]; intros idx; simpl; [reflexivity | now rewrite IH].
Qed.

Lemma name_merge_passengers (names : list text) (idx : nat) (l : list api_passenger)
    (i : nat) (p : passenger) :
  nth_error (TrainPNRAPI.merge_passengers names idx l) i = Some p ->
  name p = match nth_error names (idx + i) with
           | Some n => n
           | None => str "Passenger " ++ dec (idx + i + 1)
           end.
Proof.
  revert idx i. induction l as [|q l IH]; intros idx [|i] H; simpl in H; try discriminate.
  - injection H as <-. cbn [name]. unfold TrainPNRAPI.pax_name. now rewrite Nat.add_0_r.
  - apply IH in H. rewrite H. now replace (S idx + i) with (idx + S i) by lia.
Qed.

(** C7 as it is stated fails: this TRAIN transcript has an identifier and
    no passenger line, the lookup answers with one passenger, and the
    record is not an ERROR record; its passenger bears a placeholder name. *)
Lemma train_without_names_is_not_an_error :
  let txt := str "IRCTC e-ticket PNR: 6562526496 coach B2 berth 34" in
  let td :=
    TicketProcessor.process_ticket (sample_lookup [sample_api_passenger]) iso_dparse
      (Ok txt) (str "t.pdf") in
  PNRExtractor.detect_ticket_type txt = TRAIN
  /\ no_train_names txt
  /\ is_error td = false
  /\ map name (td_passengers td) = [str "Passenger 1"].
Proof. vm_compute. repeat split. Qed.

(** The same transcript with a lookup that lists no passenger: the record
    is not an ERROR record and has no passenger. *)
Example train_with_empty_lookup_list :
  let txt := str "IRCTC e-ticket PNR: 6562526496 coach B2 berth 34" in
  let td :=
    TicketProcessor.process_ticket (sample_lookup []) iso_dparse (Ok txt) (str "t.pdf") in
  is_error td = false /\ td_passengers td = [].
Proof. vm_compute. repeat split. Qed.

Lemma flight_details_passengers (txt : text) (fd : FlightExtractor.flight_details) :
  FlightExtractor.extract_flight_details txt = Ok fd ->
  FlightExtractor.passengers fd = PNRExtractor.extract_flight_passengers txt.
Proof.
  unfold FlightExtractor.extract_flight_details.
  destruct (FlightExtractor.find_flight_number txt _); cbn [bind]; [|discriminate].
  destruct (re_findall1 false FlightExtractor.time_re txt) as [|t0 [|t1 ?]];
    intros H; injection H as <-; reflexivity.
Qed.

Section Processed.

Variable check_train_pnr : text -> option api_response.
Variable dparse : text -> option datetime.

Let process := TicketProcessor.process_ticket check_train_pnr dparse.

Lemma process_flight_cases (txt filename : text) :
  match TicketProcessor.process_flight txt filename with
  | Raise _ => True
  | Ok td =>
      td_filename td = filename
      /\ (PNRExtractor.extract_flight_passengers txt = [] ->
          td_mode td = MODE_ERROR /\ is_error td = true)
      /\ (PNRExtractor.extract_flight_passengers txt <> [] ->
          td_mode td = MODE_FLIGHT /\ is_error td = false /\ td_passengers td <> [])
  end.
Proof.
  unfold TicketProcessor.process_flight.
  destruct (FlightExtractor.extract_flight_details txt) as [fd|e] eqn:E; cbn [bind];
    [|exact I].
  apply flight_details_passengers in E. rewrite <- E.
  destruct (FlightExtractor.passengers fd) as [|p l]; cbn.
  - repeat split; congruence.
  - repeat split; congruence.
Qed.

Lemma process_train_cases (txt filename : text) :
  let td := TicketProcessor.process_train check_train_pnr dparse txt filename in
  td_filename td = filename /\ td_mode td <> MODE_FLIGHT.
Proof.
  unfold TicketProcessor.process_train.
  destruct (PNRExtractor.extract_pnr_from_text txt) as [[|c p]|]; cbn;
    try (split; [reflexivity | discriminate]).
  destruct (check_train_pnr (c :: p)) as [resp|]; cbn;
    try (split; [reflexivity | discriminate]).
  split; [reflexivity|]. unfold TrainPNRAPI.parse_train_response.
  destruct (negb (success resp)); [discriminate|].
  destruct (data resp) as [d|]; [|discriminate].
  destruct (TrainPNRAPI.date_and_time dparse (dateOfJourney d)).
  destruct (TrainPNRAPI.date_and_time dparse (arrivalDate d)). discriminate.
Qed.

(** C7, amended.  The record of a processed document retains the original
    filename.  A FLIGHT record that is not an ERROR record has at least one
    passenger: a FLIGHT transcript in which no passenger name is found gives
    an ERROR record.  For a TRAIN transcript the passengers are those of
    the lookup: a transcript without identifier gives an ERROR record; a
    lookup that fails in transport gives an ERROR record that retains the
    identifier; and when the lookup answers with a non-empty passenger list
    the record is not an ERROR record and has one passenger per entry of
    that list, named by the extracted name at the same position, or
    [Passenger N] when the extracted names run short, even when no name was
    extracted at all. *)
Theorem processed_document_passengers (ocr : result text) (filename : text) :
  let td := process ocr filename in
  td_filename td = filename
  /\ (td_mode td = MODE_FLIGHT -> is_error td = false /\ td_passengers td <> [])
  /\ (forall txt,
        ocr = Ok txt -> PNRExtractor.detect_ticket_type txt = FLIGHT ->
        no_flight_names txt -> is_error td = true)
  /\ (forall txt,
        ocr = Ok txt -> PNRExtractor.detect_ticket_type txt = TRAIN ->
        PNRExtractor.extract_pnr_from_text txt = None ->
        td = error_record (str "PNR not found in ticket") filename [])
  /\ (forall txt c p,
        ocr = Ok txt -> PNRExtractor.detect_ticket_type txt = TRAIN ->
        PNRExtractor.extract_pnr_from_text txt = Some (c :: p) ->
        (check_train_pnr (c :: p) = None ->
         td = error_record (str "API failed for PNR " ++ c :: p) filename (c :: p))
        /\ (forall response d,
              check_train_pnr (c :: p) = Some response ->
              success response = true -> data response = Some d ->
              passengerList d <> [] ->
              is_error td = false
              /\ td_passengers td <> []
              /\ length (td_passengers td) = length (passengerList d)
              /\ forall i pax,
                   nth_error (td_passengers td) i = Some pax ->
                   name pax
                   = match nth_error (PNRExtractor.extract_train_passengers txt) i with
                     | Some n => n
                     | None => str "Passenger " ++ dec (i + 1)
                     end)).
Proof.
  intros td. subst td. unfold process, TicketProcessor.process_ticket.
  split; [|split; [|split; [|split]]].
  - destruct ocr as [txt|e]; cbn [bind]; [|reflexivity].
    destruct (PNRExtractor.detect_ticket_type txt); [| |reflexivity].
    + apply process_train_cases.
    + pose proof (process_flight_cases txt filename) as H.
      destruct (TicketProcessor.process_flight txt filename); [apply H | reflexivity].
  - destruct ocr as [txt|e]; cbn [bind]; [|discriminate].
    destruct (PNRExtractor.detect_ticket_type txt); [| |discriminate].
    + intros H. now apply process_train_cases in H.
    + pose proof (process_flight_cases txt filename) as H.
      destruct (TicketProcessor.process_flight txt filename) as [r|e]; [|discriminate].
      destruct H as (_ & Hnone & Hsome). intros Hm.
      destruct (PNRExtractor.extract_flight_passengers txt) as [|x l].
      * destruct Hnone as [Hn _]; [reflexivity | congruence].
      * destruct Hsome as (_ & H1 & H2); [discriminate | now split].
  - intros txt -> Hd Hn. cbn [bind]. rewrite Hd.
    pose proof (process_flight_cases txt filename) as H.
    destruct (TicketProcessor.process_flight txt filename) as [r|e].
    + now apply H.
    + reflexivity.
  - intros txt -> Hd Hn. cbn [bind]. rewrite Hd.
    unfold TicketProcessor.process_train. now rewrite Hn.
  - intros txt c p -> Hd Hp. cbn [bind]. rewrite Hd.
    unfold TicketProcessor.process_train. rewrite Hp. split.
    + intros Hc. now rewrite Hc.
    + intros response d Hc Hs Hdata Hl. rewrite Hc.
      unfold TrainPNRAPI.parse_train_response. rewrite Hs, Hdata. cbn [negb].
      destruct (TrainPNRAPI.date_and_time dparse (dateOfJourney d)).
      destruct (TrainPNRAPI.date_and_time dparse (arrivalDate d)).
      cbn [TicketProcessor.set_filename td_passengers td_error is_error
           td_mode td_filename td_pnr].
      split; [reflexivity|]. split.
      * intros E. apply (f_equal (@length passenger)) in E.
        rewrite length_merge_passengers in E. destruct (passengerList d); [congruence|].
        discriminate.
      * split; [apply length_merge_passengers|].
        intros i pax H. now apply name_merge_passengers in H.
Qed.

End Processed.

(** ** The matcher is sound for what patterns denote *)

(** The position [s'] lies [w] further than [s] in the same text. *)
Definition ahead (s : mstate) (w : text) (s' : mstate) : Prop :=
  rest s = w ++ rest s' /\ seen s' = rev w ++ seen s.

Lemma ahead_consumed (s s' : mstate) (w : text) : ahead s w s' -> consumed s s' = w.
Proof.
  intros [H _]. unfold consumed. rewrite H, length_app.
  replace (length w + length (rest s') - length (rest s')) with (length w) by lia.
  rewrite firstn_app, firstn_all, Nat.sub_diag. simpl. apply app_nil_r.
Qed.

Lemma step_char_sound (p : N -> bool) (s s' : mstate) :
  In s' (step_char p s) ->
  exists x, p x = true /\ ahead s [x] s' /\ groups s' = groups s.
Proof.
  unfold step_char. destruct (rest s) as [|c t] eqn:E; [contradiction|].
  destruct (p c) eqn:P; [|contradiction]. intros [<- | []].
  exists c. repeat split; trivial.
Qed.

Lemma rep_loop_sound (d : text -> text -> text -> Prop) (step : mstate -> list mstate)
    (greedy : bool) :
  (forall x x', In x' (step x) -> exists w, ahead x w x' /\ d (seen x) w (rest x')) ->
  forall fuel lo s s',
    In s' (rep_loop step greedy lo fuel s) ->
    exists ws, ahead s (concat ws) s' /\ den_iter d ws (seen s) (rest s')
               /\ lo <= length ws <= fuel.
Proof.
  intros Hstep. induction fuel as [|f IH]; intros lo s s' H.
  - destruct lo; [|contradiction]. destruct H as [<- | []].
    exists []. repeat split; simpl; trivial.
  - cbn [rep_loop] in H.
    assert (Hmore : In s' (flat_map (rep_loop step greedy (pred lo) f) (step s)) ->
                    exists ws, ahead s (concat ws) s' /\ den_iter d ws (seen s) (rest s')
                               /\ lo <= length ws <= S f).
    { intros Hin. apply in_flat_map in Hin as [s1 [H1 H2]].
      apply Hstep in H1 as [w [[Hr Hs] Hd]].
      apply IH in H2 as [ws [[Hr' Hs'] [Hd' Hl]]].
      exists (w :: ws). cbn [concat den_iter length]. repeat split.
      - now rewrite Hr, Hr', app_assoc.
      - now rewrite Hs', Hs, rev_app_distr, app_assoc.
      - now rewrite <- Hr'.
      - now rewrite <- Hs.
      - lia.
      - lia. }
    assert (Hzero : s' = s -> lo = 0 ->
                    exists ws, ahead s (concat ws) s' /\ den_iter d ws (seen s) (rest s')
                               /\ lo <= length ws <= S f).
    { intros -> ->. exists []. repeat split; simpl; trivial; lia. }
    destruct lo as [|lo]; [|now apply Hmore].
    destruct greedy.
    + apply in_app_iff in H as [H | [H | []]]; [now apply Hmore | now apply Hzero].
    + destruct H as [H | H]; [now apply Hzero | now apply Hmore].
Qed.

Theorem rmatch_sound (icase : bool) (r : regex) :
  forall s s', In s' (rmatch icase r s) ->
  exists w, ahead s w s' /\ den icase r (seen s) w (rest s').
Proof.
  induction r as [|c|neg items|r1 IH1 r2 IH2|r1 IH1 r2 IH2|r' IH lo hi greedy|n r' IH| | |];
    intros s s' H; cbn [rmatch] in H.
  - destruct H as [<- | []]. exists []. repeat split.
  - apply step_char_sound in H as [x [Hp [Ha _]]]. exists [x]. split; [exact Ha|].
    now exists x.
  - apply step_char_sound in H as [x [Hp [Ha _]]]. exists [x]. split; [exact Ha|].
    now exists x.
  - apply in_flat_map in H as [s1 [H1 H2]].
    apply IH1 in H1 as [w1 [[Hr1 Hs1] Hd1]]. apply IH2 in H2 as [w2 [[Hr2 Hs2] Hd2]].
    exists (w1 ++ w2). split; [split|].
    + now rewrite Hr1, Hr2, app_assoc.
    + now rewrite Hs2, Hs1, rev_app_distr, app_assoc.
    + exists w1, w2. repeat split; [now rewrite <- Hr2 | now rewrite <- Hs1].
  - apply in_app_iff in H as [H | H].
    + apply IH1 in H as [w [Ha Hd]]. exists w. split; [exact Ha | now left].
    + apply IH2 in H as [w [Ha Hd]]. exists w. split; [exact Ha | now right].
  - destruct hi as [h|].
    + apply (rep_loop_sound (den icase r')) in H; [|exact IH].
      destruct H as [ws [Ha [Hd Hl]]]. exists (concat ws). split; [exact Ha|].
      exists ws. repeat split; trivial; lia.
    + apply (rep_loop_sound (den icase r')) in H.
      * destruct H as [ws [Ha [Hd Hl]]]. exists (concat ws). split; [exact Ha|].
        exists ws. repeat split; trivial; lia.
      * intros x x' Hx. apply filter_In in Hx as [Hx _]. now apply IH.
  - apply in_map_iff in H as [s1 [<- H1]]. apply IH in H1 as [w [[Hr Hs] Hd]].
    exists w. repeat split; assumption.
  - unfold guard in H. destruct (xorb (word_before s) (word_after s)) eqn:E; [|contradiction].
    destruct H as [<- | []]. exists []. repeat split. exact E.
  - unfold guard in H. destruct (seen s) eqn:E; [|contradiction].
    destruct H as [<- | []]. exists []. unfold ahead. rewrite E. repeat split.
  - unfold guard in H.
    assert (Heol : rest s = [] \/ rest s = [10%N]).
    { destruct (rest s) as [|c [|c' t]]; [now left| |exfalso].
      - destruct c as [|p]; [contradiction|].
        do 4 (destruct p as [p|p|]; try contradiction). now right.
      - destruct c as [|p]; [contradiction|].
        do 4 (destruct p as [p|p|]; try contradiction). }
    assert (Hin : In s' [s]).
    { destruct Heol as [E | E]; rewrite E in H; exact H. }
    destruct Hin as [<- | []]. exists []. repeat split. exact Heol.
Qed.

Lemma rep_loop_groups (G : nat -> text -> Prop) (step : mstate -> list mstate)
    (greedy : bool) :
  (forall x x', In x' (step x) ->
     forall n v, assoc n (groups x') = Some v -> assoc n (groups x) = Some v \/ G n v) ->
  forall fuel lo s s',
    In s' (rep_loop step greedy lo fuel s) ->
    forall n v, assoc n (groups s') = Some v -> assoc n (groups s) = Some v \/ G n v.
Proof.
  intros Hstep. induction fuel as [|f IH]; intros lo s s' H n v Hv.
  - destruct lo; [|contradiction]. destruct H as [<- | []]. now left.
  - cbn [rep_loop] in H.
    assert (Hmore : In s' (flat_map (rep_loop step greedy (pred lo) f) (step s)) ->
                    assoc n (groups s) = Some v \/ G n v).
    { intros Hin. apply in_flat_map in Hin as [s1 [H1 H2]].
      destruct (IH _ _ _ H2 n v Hv) as [H3 | H3]; [|now right].
      now apply (Hstep _ _ H1). }
    destruct lo as [|lo]; [|now apply Hmore].
    destruct greedy.
    + apply in_app_iff in H as [H | [<- | []]]; [now apply Hmore | now left].
    + destruct H as [<- | H]; [now left | now apply Hmore].
Qed.

Lemma rmatch_groups (icase : bool) (r : regex) :
  forall s s', In s' (rmatch icase r s) ->
  forall n v, assoc n (groups s') = Some v ->
              assoc n (groups s) = Some v \/ group_den icase r n v.
Proof.
  induction r as [|c|neg items|r1 IH1 r2 IH2|r1 IH1 r2 IH2|r' IH lo hi greedy|m r' IH| | |];
    intros s s' H n v Hv; cbn [rmatch] in H; cbn [group_den].
  - destruct H as [<- | []]. now left.
  - apply step_char_sound in H as [x [_ [_ Hg]]]. rewrite Hg in Hv. now left.
  - apply step_char_sound in H as [x [_ [_ Hg]]]. rewrite Hg in Hv. now left.
  - apply in_flat_map in H as [s1 [H1 H2]].
    destruct (IH2 _ _ H2 n v Hv) as [H3 | H3]; [|now right; right].
    destruct (IH1 _ _ H1 n v H3) as [H4 | H4]; [now left | now right; left].
  - apply in_app_iff in H as [H | H].
    + destruct (IH1 _ _ H n v Hv); [now left | now right; left].
    + destruct (IH2 _ _ H n v Hv); [now left | now right; right].
  - destruct hi as [h|].
    + now apply (rep_loop_groups (group_den icase r') _ _ IH _ _ _ _ H).
    + apply (rep_loop_groups (group_den icase r')) with (n := n) (v := v) in H; trivial.
      intros x x' Hx. apply filter_In in Hx as [Hx _]. now apply IH.
  - apply in_map_iff in H as [s1 [<- H1]]. cbn [groups assoc] in Hv.
    destruct (m =? n) eqn:E.
    + apply Nat.eqb_eq in E. injection Hv as <-. right. left. split; [exact E|].
      apply rmatch_sound in H1 as [w [Ha Hd]]. rewrite (ahead_consumed _ _ _ Ha).
      now exists (seen s), (rest s1).
    + destruct (IH _ _ H1 n v Hv); [now left | now right; right].
  - unfold guard in H. destruct (xorb _ _); [|contradiction]. destruct H as [<- | []]. now left.
  - unfold guard in H. destruct (seen s); [|contradiction]. destruct H as [<- | []]. now left.
  - unfold guard in H. left.
    destruct (rest s) as [|c [|c' t]].
    + destruct H as [<- | []]. exact Hv.
    + destruct c as [|p]; [contradiction|].
      do 4 (destruct p as [p|p|]; try contradiction). destruct H as [<- | []]. exact Hv.
    + destruct c as [|p]; [contradiction|].
      do 4 (destruct p as [p|p|]; try contradiction).
Qed.

(** A match found at a position: the matched text is denoted by the
    pattern in its context, and so is every group. *)
Theorem match_at_sound (icase : bool) (r : regex) (before after : text) (m : rematch) :
  match_at icase r before after = Some m ->
  mbefore m = before /\ after = mwhole m ++ mafter m
  /\ den icase r before (mwhole m) (mafter m)
  /\ forall n v, group m n = Some v -> group_den icase r n v.
Proof.
  unfold match_at. destruct (rmatch icase r (MState before after [])) as [|s' l] eqn:E;
    [discriminate|].
  intros H. injection H as <-. cbn [mbefore mwhole mafter].
  assert (Hin : In s' (rmatch icase r (MState before after []))) by (rewrite E; now left).
  destruct (rmatch_sound _ _ _ _ Hin) as [w [Ha Hd]].
  rewrite (ahead_consumed _ _ _ Ha). destruct Ha as [Hr Hs]. cbn [rest seen] in *.
  repeat split; trivial.
  intros n v Hv. unfold group in Hv. cbn [mgroups] in Hv.
  destruct (rmatch_groups _ _ _ _ Hin n v Hv) as [H | H]; [discriminate | exact H].
Qed.

(** The matches that a scan reports are matches at positions of the
    text. *)
Lemma search_from_sound (icase : bool) (r : regex) (after before : text) (m : rematch) :
  search_from icase r before after = Some m ->
  exists b a, match_at icase r b a = Some m /\ rev b ++ a = rev before ++ after.
Proof.
  revert before. induction after as [|c t IH]; intros before; cbn [search_from].
  - destruct (match_at icase r before []) eqn:E; [|discriminate].
    intros H. injection H as <-. now exists before, [].
  - destruct (match_at icase r before (c :: t)) eqn:E.
    + intros H. injection H as <-. now exists before, (c :: t).
    + intros H. apply IH in H as [b [a [H1 H2]]]. exists b, a. split; [exact H1|].
      rewrite H2. cbn [rev]. now rewrite <- app_assoc.
Qed.

Lemma finditer_from_sound (icase : bool) (r : regex) (after before : text) (skip : nat)
    (m : rematch) :
  In m (finditer_from icase r skip before after) ->
  exists b a, match_at icase r b a = Some m /\ rev b ++ a = rev before ++ after.
Proof.
  revert before skip. induction after as [|c t IH]; intros before skip H.
  - destruct skip; cbn [finditer_from] in H; [|contradiction].
    destruct (match_at icase r before []) eqn:E; [|contradiction].
    destruct H as [<- | []]. now exists before, [].
  - assert (Htail : forall k, In m (finditer_from icase r k (c :: before) t) ->
                      exists b a, match_at icase r b a = Some m
                                  /\ rev b ++ a = rev before ++ c :: t).
    { intros k Hk. apply IH in Hk as [b [a [H1 H2]]]. exists b, a. split; [exact H1|].
      rewrite H2. cbn [rev]. now rewrite <- app_assoc. }
    destruct skip; cbn [finditer_from] in H; [|now apply Htail in H].
    destruct (match_at icase r before (c :: t)) eqn:E; [|now apply Htail in H].
    destruct H as [<- | H]; [now exists before, (c :: t) | now apply Htail in H].
Qed.

(** *** Shapes of the texts that patterns denote *)

Lemma den_iter_chars (d : text -> text -> text -> Prop) (P : N -> Prop) (ws : list text) :
  (forall pre w post, d pre w post -> Forall P w) ->
  forall pre post, den_iter d ws pre post -> Forall P (concat ws).
Proof.
  intros Hd. induction ws as [|w ws IH]; intros pre post H; cbn [concat].
  - constructor.
  - destruct H as [H1 H2]. apply Forall_app. split; [now apply Hd in H1 | now apply IH in H2].
Qed.

(** A text that a pattern denotes is made of characters that its leaves
    accept. *)
Lemma den_chars (icase : bool) (P : N -> Prop) (r : regex) :
  leaves icase P r ->
  forall pre w post, den icase r pre w post -> Forall P w.
Proof.
  induction r as [|c|neg items|r1 IH1 r2 IH2|r1 IH1 r2 IH2|r' IH lo hi greedy|m r' IH| | |];
    cbn [leaves den]; intros L pre w post H.
  - subst. constructor.
  - destruct H as [x [-> Hx]]. constructor; [now apply L | constructor].
  - destruct H as [x [-> Hx]]. constructor; [now apply L | constructor].
  - destruct L as [L1 L2]. destruct H as [w1 [w2 [-> [H1 H2]]]].
    apply Forall_app. split; [now apply IH1 in H1 | now apply IH2 in H2].
  - destruct L as [L1 L2]. destruct H as [H | H]; [now apply IH1 in H | now apply IH2 in H].
  - destruct H as [ws [-> [H _]]]. apply (den_iter_chars _ P) in H; trivial.
    intros pre' w' post'. now apply IH.
  - now apply IH in H.
  - destruct H as [-> _]. constructor.
  - destruct H as [-> _]. constructor.
  - destruct H as [-> _]. constructor.
Qed.

(** A repeated character class denotes as many characters as it has
    iterations. *)
Lemma den_class_rep (icase neg : bool) (items : list citem) (lo : nat) (hi : option nat)
    (greedy : bool) (pre w post : text) :
  den icase (RRep (RSet neg items) lo hi greedy) pre w post ->
  lo <= length w /\ match hi with Some h => length w <= h | None => True end.
Proof.
  cbn [den]. intros [ws [-> [H [Hlo Hhi]]]].
  assert (Hlen : length (concat ws) = length ws).
  { clear Hlo Hhi. revert pre post H. induction ws as [|w ws IH]; intros pre post H;
      [reflexivity|].
    destruct H as [[x [-> _]] H2]. cbn. f_equal. now apply IH in H2. }
  now rewrite Hlen.
Qed.

Lemma item_char_exact (c x : N) : item_matches false (CChar c) x = true -> x = c.
Proof.
  unfold item_matches. cbn. rewrite orb_false_r. apply N.eqb_eq.
Qed.

Lemma den_word (w : text) (pre v post : text) :
  w <> [] -> den false (seqs (map RChar w)) pre v post -> v = w.
Proof.
  revert pre v. induction w as [|c w IH]; intros pre v Hw H; [congruence|].
  destruct w as [|c' w].
  - cbn in H. destruct H as [x [-> Hx]]. apply item_char_exact in Hx. now subst.
  - change (seqs (map RChar (c :: c' :: w)))
      with (RSeq (RChar c) (seqs (map RChar (c' :: w)))) in H.
    cbn [den] in H. destruct H as [w1 [w2 [-> [[x [-> Hx]] H2]]]].
    apply item_char_exact in Hx. subst x. apply IH in H2; [|discriminate]. now subst.
Qed.

(** ** Substitutions computed *)

Lemma consumed_step (before after : text) (k : nat) (g g' : list (nat * text)) :
  k <= length after ->
  consumed (MState before after g) (MState (rev (firstn k after) ++ before) (skipn k after) g')
  = firstn k after.
Proof.
  intros H. unfold consumed. cbn [rest]. rewrite length_skipn.
  now replace (length after - (length after - k)) with k by lia.
Qed.

Lemma match_at_set (icase neg : bool) (items : list citem) (before after : text) :
  match_at icase (RSet neg items) before after
  = match after with
    | c :: t => if set_matches icase neg items c then Some (Match before [c] [] t) else None
    | [] => None
    end.
Proof.
  unfold match_at. cbn [rmatch]. unfold step_char. cbn [rest seen groups].
  destruct after as [|c t]; [reflexivity|].
  destruct (set_matches icase neg items c); [|reflexivity].
  pose proof (consumed_step before (c :: t) 1 [] [] ltac:(cbn; lia)) as Hc.
  cbn [firstn skipn rev app] in Hc. now rewrite Hc.
Qed.

(** Substituting a character class rewrites the text character by
    character. *)
Lemma sub_from_set (icase neg : bool) (items : list citem) (repl after before : text) :
  sub_from icase (RSet neg items) repl 0 before after
  = flat_map (fun c => if set_matches icase neg items c then repl else [c]) after.
Proof.
  revert before. induction after as [|c t IH]; intros before.
  - cbn [sub_from]. now rewrite match_at_set.
  - cbn [sub_from flat_map]. rewrite match_at_set.
    destruct (set_matches icase neg items c); cbn [mwhole length]; now rewrite IH.
Qed.

Lemma run_length_le (p : N -> bool) (t : text) : run_length p t <= length t.
Proof. induction t as [|c t IH]; cbn; [lia | destruct (p c); lia]. Qed.

Lemma hd_error_app {A : Type} (l1 l2 : list A) (x : A) :
  hd_error l1 = Some x -> hd_error (l1 ++ l2) = Some x.
Proof. now destruct l1. Qed.

(** A greedy repetition of a character class goes first to the end of
    the longest run of the class. *)
Lemma rep_loop_class (p : N -> bool) (fuel : nat) :
  forall lo s,
    length (rest s) <= fuel ->
    hd_error (rep_loop (fun x => filter (progress x) (step_char p x)) true lo fuel s)
    = if lo <=? run_length p (rest s)
      then Some (MState (rev (firstn (run_length p (rest s)) (rest s)) ++ seen s)
                        (skipn (run_length p (rest s)) (rest s)) (groups s))
      else None.
Proof.
  induction fuel as [|f IH]; intros lo [sn rs g] Hf; cbn [rest seen groups] in *.
  - destruct rs; [|cbn in Hf; lia]. cbn. now destruct lo.
  - cbn [rep_loop].
    destruct rs as [|c t]; [cbn; now destruct lo|].
    cbn [run_length]. destruct (p c) eqn:P.
    + assert (Hstep : filter (progress (MState sn (c :: t) g))
                             (step_char p (MState sn (c :: t) g))
                      = [MState (c :: sn) t g]).
      { unfold step_char, progress. cbn [rest seen groups]. rewrite P. cbn [filter rest length].
        assert (E : (length t <? S (length t)) = true) by (apply Nat.ltb_lt; lia).
        now rewrite E. }
      rewrite Hstep. cbn [flat_map]. rewrite app_nil_r.
      assert (Hf' : length t <= f) by (cbn in Hf; lia).
      pose proof (IH (pred lo) (MState (c :: sn) t g) Hf') as H.
      cbn [rest seen groups] in H.
      assert (Hrev : rev (firstn (S (run_length p t)) (c :: t)) ++ sn
                     = rev (firstn (run_length p t) t) ++ c :: sn)
        by (cbn [firstn rev]; now rewrite <- app_assoc).
      rewrite Hrev. cbn [skipn].
      destruct lo as [|lo]; cbn [pred] in H.
      * cbn [Nat.leb] in *. now apply hd_error_app.
      * exact H.
    + assert (Hstep : filter (progress (MState sn (c :: t) g))
                             (step_char p (MState sn (c :: t) g)) = []).
      { unfold step_char. cbn [rest]. now rewrite P. }
      rewrite Hstep. cbn. now destruct lo.
Qed.

Lemma set_space (c : N) : set_matches false false [CSpace] c = is_space c.
Proof. unfold set_matches, item_matches. cbn. now rewrite !orb_false_r. Qed.

Lemma match_at_spaces (before after : text) :
  match_at false PNRExtractor.spaces_re before after
  = match run_length is_space after with
    | O => None
    | S k => Some (Match before (firstn (S k) after) [] (skipn (S k) after))
    end.
Proof.
  unfold match_at, PNRExtractor.spaces_re, plus, space, set. cbn [rmatch rest].
  pose proof (rep_loop_class (set_matches false false [CSpace]) (1 + length after) 1
                (MState before after [])) as H.
  cbn [rest seen groups] in H.
  assert (Hrun : run_length (set_matches false false [CSpace]) after
                 = run_length is_space after).
  { clear. induction after as [|c t IH]; cbn [run_length]; [reflexivity|].
    rewrite set_space, IH. reflexivity. }
  rewrite Hrun in H. specialize (H ltac:(lia)).
  pose proof (run_length_le is_space after) as Hle.
  destruct (run_length is_space after) as [|k].
  - cbn [Nat.leb] in H.
    destruct (rep_loop _ true 1 (1 + length after) (MState before after []));
      [reflexivity | discriminate].
  - cbn [Nat.leb] in H.
    destruct (rep_loop _ true 1 (1 + length after) (MState before after [])) as [|s' l];
      [discriminate|].
    cbn [hd_error] in H.
    assert (Hs : s' = MState (rev (firstn (S k) after) ++ before) (skipn (S k) after) [])
      by congruence.
    rewrite Hs, consumed_step by exact Hle. reflexivity.
Qed.

(** Substituting [\s+] replaces every maximal run of whitespace. *)
Lemma sub_from_spaces (repl after : text) :
  (forall before, sub_from false PNRExtractor.spaces_re repl 0 before after
                  = squeeze_from repl false after)
  /\ (forall before,
        sub_from false PNRExtractor.spaces_re repl (run_length is_space after) before after
        = squeeze_from repl true after).
Proof.
  induction after as [|c t [IH0 IHrun]].
  - split; intros before; cbn [run_length sub_from squeeze_from];
      now rewrite match_at_spaces.
  - assert (H0 : forall before,
               sub_from false PNRExtractor.spaces_re repl 0 before (c :: t)
               = squeeze_from repl false (c :: t)).
    { intros before. cbn [sub_from squeeze_from]. rewrite match_at_spaces.
      cbn [run_length]. destruct (is_space c).
      - cbn [mwhole]. rewrite length_firstn.
        replace (Nat.min (S (run_length is_space t)) (length (c :: t)))
          with (S (run_length is_space t))
          by (pose proof (run_length_le is_space t); cbn [length]; lia).
        now rewrite IHrun.
      - now rewrite IH0. }
    split; [exact H0|]. intros before. cbn [run_length].
    destruct (is_space c) eqn:E.
    + cbn [sub_from squeeze_from]. rewrite E. cbn [app]. apply IHrun.
    + rewrite H0. cbn [squeeze_from]. now rewrite E.
Qed.

Lemma re_sub_spaces (repl t : text) :
  re_sub false PNRExtractor.spaces_re repl t = squeeze repl t.
Proof. apply sub_from_spaces. Qed.

Lemma squeeze_from_nil (in_run : bool) (t : text) :
  squeeze_from [] in_run t = filter (fun c => negb (is_space c)) t.
Proof.
  revert in_run. induction t as [|c t IH]; intros in_run; cbn; [reflexivity|].
  destruct (is_space c); cbn; rewrite ?IH; now destruct in_run.
Qed.

(** Where the pattern matches at no position, the substitution leaves the
    text as it is. *)
Lemma sub_from_none (icase : bool) (r : regex) (repl after : text) :
  forall before,
    (forall b a, rev b ++ a = rev before ++ after -> match_at icase r b a = None) ->
    sub_from icase r repl 0 before after = after.
Proof.
  induction after as [|c t IH]; intros before H; cbn [sub_from].
  - now rewrite (H before []).
  - rewrite (H before (c :: t)) by reflexivity. f_equal. apply IH.
    intros b a E. apply H. rewrite E. cbn [rev]. now rewrite <- app_assoc.
Qed.

(** *** Groups that always take part *)

Lemma rep_loop_keeps (step : mstate -> list mstate) (greedy : bool) (n : nat) :
  (forall x x', In x' (step x) -> assoc n (groups x) <> None -> assoc n (groups x') <> None) ->
  forall fuel lo s s',
    In s' (rep_loop step greedy lo fuel s) ->
    assoc n (groups s) <> None -> assoc n (groups s') <> None.
Proof.
  intros Hstep. induction fuel as [|f IH]; intros lo s s' H Hs.
  - destruct lo; [|contradiction]. now destruct H as [<- | []].
  - cbn [rep_loop] in H.
    assert (Hmore : In s' (flat_map (rep_loop step greedy (pred lo) f) (step s)) ->
                    assoc n (groups s') <> None).
    { intros Hin. apply in_flat_map in Hin as [s1 [H1 H2]].
      apply (IH _ _ _ H2). now apply (Hstep _ _ H1). }
    destruct lo as [|lo]; [|now apply Hmore].
    destruct greedy.
    + apply in_app_iff in H as [H | [<- | []]]; [now apply Hmore | exact Hs].
    + destruct H as [<- | H]; [exact Hs | now apply Hmore].
Qed.

Lemma rmatch_keeps (icase : bool) (n : nat) (r : regex) :
  forall s s', In s' (rmatch icase r s) ->
  assoc n (groups s) <> None -> assoc n (groups s') <> None.
Proof.
  induction r as [|c|neg items|r1 IH1 r2 IH2|r1 IH1 r2 IH2|r' IH lo hi greedy|m r' IH| | |];
    intros s s' H Hs; cbn [rmatch] in H.
  - now destruct H as [<- | []].
  - apply step_char_sound in H as [x [_ [_ Hg]]]. now rewrite Hg.
  - apply step_char_sound in H as [x [_ [_ Hg]]]. now rewrite Hg.
  - apply in_flat_map in H as [s1 [H1 H2]]. apply (IH2 _ _ H2). now apply (IH1 _ _ H1).
  - apply in_app_iff in H as [H | H]; [now apply (IH1 _ _ H) | now apply (IH2 _ _ H)].
  - destruct hi as [h|].
    + now apply (rep_loop_keeps _ _ n IH _ _ _ _ H).
    + apply (rep_loop_keeps _ _ n) in H; trivial.
      intros x x' Hx. apply filter_In in Hx as [Hx _]. now apply IH.
  - apply in_map_iff in H as [s1 [<- H1]]. cbn [groups assoc].
    destruct (m =? n); [discriminate | now apply (IH _ _ H1)].
  - unfold guard in H. destruct (xorb _ _); [|contradiction]. now destruct H as [<- | []].
  - unfold guard in H. destruct (seen s); [|contradiction]. now destruct H as [<- | []].
  - unfold guard in H.
    destruct (match rest s with [] | [10%N] => true | _ => false end); [|contradiction].
    now destruct H as [<- | []].
Qed.

Lemma rep_loop_binds (step : mstate -> list mstate) (greedy : bool) (n : nat) :
  (forall x x', In x' (step x) -> assoc n (groups x') <> None) ->
  forall fuel lo s s',
    0 < lo -> In s' (rep_loop step greedy lo fuel s) -> assoc n (groups s') <> None.
Proof.
  intros Hstep fuel lo s s' Hlo H.
  destruct fuel as [|f]; destruct lo as [|lo]; try lia; [contradiction|].
  cbn [rep_loop] in H. apply in_flat_map in H as [s1 [H1 H2]].
  apply (rep_loop_keeps step greedy n) in H2; trivial.
  - intros x x' Hx _. now apply (Hstep _ _ Hx).
  - now apply (Hstep _ _ H1).
Qed.

Lemma rmatch_binds (icase : bool) (n : nat) (r : regex) :
  binds n r = true ->
  forall s s', In s' (rmatch icase r s) -> assoc n (groups s') <> None.
Proof.
  induction r as [|c|neg items|r1 IH1 r2 IH2|r1 IH1 r2 IH2|r' IH lo hi greedy|m r' IH| | |];
    cbn [binds]; intros B s s' H; try discriminate; cbn [rmatch] in H.
  - apply in_flat_map in H as [s1 [H1 H2]]. apply orb_true_iff in B as [B | B].
    + apply (rmatch_keeps _ _ _ _ _ H2). now apply (IH1 B _ _ H1).
    + now apply (IH2 B _ _ H2).
  - apply andb_true_iff in B as [B1 B2].
    apply in_app_iff in H as [H | H]; [now apply (IH1 B1 _ _ H) | now apply (IH2 B2 _ _ H)].
  - apply andb_true_iff in B as [Blo B]. apply Nat.ltb_lt in Blo.
    destruct hi as [h|].
    + now apply (rep_loop_binds _ _ n (IH B) _ _ _ _ Blo H).
    + apply (rep_loop_binds _ _ n) in H; trivial.
      intros x x' Hx. apply filter_In in Hx as [Hx _]. now apply (IH B _ _ Hx).
  - apply in_map_iff in H as [s1 [<- H1]]. cbn [groups assoc].
    destruct (m =? n) eqn:E; [discriminate|]. cbn [orb] in B. now apply (IH B _ _ H1).
Qed.

Lemma match_at_binds (icase : bool) (n : nat) (r : regex) (before after : text)
    (m : rematch) :
  binds n r = true -> match_at icase r before after = Some m ->
  exists v, group m n = Some v /\ group_or_empty m n = v.
Proof.
  intros B. unfold match_at.
  destruct (rmatch icase r (MState before after [])) as [|s' l] eqn:E; [discriminate|].
  intros H. injection H as <-. unfold group_or_empty, group. cbn [mgroups].
  assert (Hin : In s' (rmatch icase r (MState before after []))) by (rewrite E; now left).
  pose proof (rmatch_binds icase n r B _ _ Hin) as Hb.
  destruct (assoc n (groups s')) as [v|]; [now exists v | congruence].
Qed.

(** *** Characters *)

Ltac split_ranges :=
  repeat match goal with
         | H : context [N.leb ?a ?b] |- _ => destruct (N.leb_spec a b); cbn in H; try lia
         | |- context [N.leb ?a ?b] => destruct (N.leb_spec a b); cbn; try lia
         | H : context [N.eqb ?a ?b] |- _ => destruct (N.eqb_spec a b); cbn in H; try lia
         | |- context [N.eqb ?a ?b] => destruct (N.eqb_spec a b); cbn; try lia
         end.

Ltac unfold_classes :=
  unfold set_matches, item_matches, item_base, rng, chr, ch, is_word, is_alpha,
    is_upper, is_lower, is_digit, upper_char, lower_char, is_upper, is_lower, in_range in *.

Lemma set_digit (c : N) : set_matches false false [CDigit] c = is_digit c.
Proof. unfold set_matches, item_matches. cbn. now rewrite !orb_false_r. Qed.

(** What [[A-Z0-9]] accepts under [re.IGNORECASE] is, once upper-cased, a
    capital letter or a digit. *)
Lemma alnum_upper (x : N) :
  set_matches true false [rng "A" "Z"; rng "0" "9"] x = true ->
  is_upper (upper_char x) || is_digit (upper_char x) = true.
Proof.
  intros H. unfold_classes. cbn in H. cbn. split_ranges; try discriminate; reflexivity.
Qed.

Lemma upper_letter_fixed (c : N) : is_upper c = true \/ c = 32%N -> upper_char c = c.
Proof.
  intros [H | ->]; [|reflexivity]. unfold_classes. split_ranges; try discriminate; reflexivity.
Qed.

Lemma upper_letter_word (c : N) : is_upper c = true -> is_word c = true.
Proof. intros H. unfold_classes. split_ranges; try discriminate; reflexivity. Qed.

Lemma upper_letter_not_space (c : N) : is_upper c = true -> is_space c = false.
Proof.
  intros H. unfold is_space. unfold_classes. split_ranges; try discriminate; reflexivity.
Qed.

(** ** Identifier extraction *)

Lemma re_findall_sound (icase : bool) (r : regex) (txt w : text) :
  In w (re_findall icase r txt) ->
  exists pre post, txt = pre ++ w ++ post /\ den icase r (rev pre) w post.
Proof.
  unfold re_findall, re_finditer. intros H. apply in_map_iff in H as [m [<- H]].
  apply finditer_from_sound in H as [b [a [H1 H2]]].
  apply match_at_sound in H1 as (_ & Ha & Hd & _). cbn [rev app] in H2.
  exists (rev b), (mafter m). rewrite rev_involutive. split; [|exact Hd].
  now rewrite <- H2, Ha.
Qed.

Lemma no_group_den (icase : bool) (r : regex) (n : nat) (v : text) :
  group_den icase r n v -> ngroups r = 0 -> False.
Proof.
  induction r as [|c|neg items|r1 IH1 r2 IH2|r1 IH1 r2 IH2|r' IH lo hi greedy|m r' IH| | |];
    cbn [group_den ngroups]; intros H Hn; try contradiction; try discriminate.
  - destruct H; [apply IH1 | apply IH2]; trivial; lia.
  - destruct H; [apply IH1 | apply IH2]; trivial; lia.
  - now apply IH.
Qed.

Lemma rule_spaced_shape (txt p : text) :
  rule_spaced txt = Some p ->
  length p = 10 /\ Forall (fun c => is_digit c = true) p
  /\ exists s, Substring s txt /\ p = filter (fun c => negb (is_space c)) s.
Proof.
  unfold rule_spaced, PNRExtractor.extract_spaced_pnr. intros H.
  apply find_some in H as [Hin Hlen]. apply Nat.eqb_eq in Hlen.
  apply in_map_iff in Hin as [s [Hp Hs]].
  rewrite re_sub_spaces in Hp. unfold squeeze in Hp. rewrite squeeze_from_nil in Hp.
  apply re_findall_sound in Hs as [pre [post [Ht Hd]]].
  split; [exact Hlen|]. split.
  - apply (den_chars false (fun c => is_digit c = true \/ is_space c = true)) in Hd.
    + subst p. apply Forall_forall. intros c Hc. apply filter_In in Hc as [Hc Hn].
      rewrite Forall_forall in Hd. destruct (Hd c Hc) as [H | H]; [exact H|].
      rewrite H in Hn. discriminate.
    + unfold PNRExtractor.spaced_pnr_re, times, plus, digit, space, set.
      cbn [seqs leaves].
      repeat split; intros x Hx; rewrite ?set_digit, ?set_space in Hx; tauto.
  - exists s. split; [now exists pre, post | now symmetry].
Qed.

Lemma rule_labelled_shape (txt p : text) :
  rule_labelled txt = Some p ->
  6 <= length p <= 10 /\ Forall (fun c => is_upper c || is_digit c = true) p.
Proof.
  unfold rule_labelled.
  destruct (re_search true PNRExtractor.labelled_pnr_re txt) as [m|] eqn:E; [|discriminate].
  intros H. injection H as <-.
  apply search_from_sound in E as [b [a [E _]]].
  assert (B : binds 1 PNRExtractor.labelled_pnr_re = true) by (vm_compute; reflexivity).
  destruct (match_at_binds true 1 _ _ _ _ B E) as [v [Hg ->]].
  apply match_at_sound in E as (_ & _ & _ & Hgd). apply Hgd in Hg.
  unfold PNRExtractor.labelled_pnr_re, lit, star, times, set in Hg.
  cbn [seqs group_den] in Hg.
  destruct Hg as [Hg | [[] | [[[_ [pre [post Hd]]] | []] | []]]];
    [apply no_group_den in Hg; [contradiction | vm_compute; reflexivity]|].
  unfold upper. rewrite length_map. split.
  - now apply den_class_rep in Hd.
  - apply (den_chars true (fun c => is_upper (upper_char c) || is_digit (upper_char c) = true))
      in Hd.
    + apply Forall_forall. intros c Hc. apply in_map_iff in Hc as [x [<- Hx]].
      rewrite Forall_forall in Hd. now apply Hd.
    + cbn [leaves]. intros x Hx. now apply alnum_upper.
Qed.

Lemma rule_bare_shape (txt p : text) :
  rule_bare txt = Some p ->
  length p = 10 /\ Forall (fun c => is_digit c = true) p
  /\ Forall (fun e => startswith p e = false) PNRExtractor.excluded_prefixes
  /\ Substring p txt.
Proof.
  unfold rule_bare. intros H.
  assert (Hin : In p (filter not_excluded (re_findall false PNRExtractor.bare_pnr_re txt))).
  { destruct (filter not_excluded _) as [|q l]; [discriminate|].
    injection H as ->. now left. }
  apply filter_In in Hin as [Hin Hne].
  apply re_findall_sound in Hin as [pre [post [Ht Hd]]].
  assert (Hshape : length p = 10 /\ Forall (fun c => is_digit c = true) p).
  { unfold PNRExtractor.bare_pnr_re, times, digit, set in Hd. cbn [seqs den] in Hd.
    destruct Hd as [w1 [w2 [-> [[-> _] [w3 [w4 [-> [Hd [-> _]]]]]]]]].
    cbn [app]. rewrite app_nil_r.
    assert (Hd' : den false (RRep (RSet false [CDigit]) 10 (Some 10) true) (rev pre) w3 post)
      by exact Hd.
    split.
    - apply den_class_rep in Hd'. lia.
    - apply (den_chars false (fun c => is_digit c = true)) in Hd'; [exact Hd'|].
      cbn [leaves]. intros x Hx. now rewrite set_digit in Hx. }
  destruct Hshape as [Hl Hdig]. repeat split; trivial.
  - unfold not_excluded in Hne. apply negb_true_iff in Hne.
    apply Forall_forall. intros e He.
    destruct (startswith p e) eqn:E; [|reflexivity].
    assert (existsb (startswith p) PNRExtractor.excluded_prefixes = true)
      by (apply existsb_exists; now exists e).
    congruence.
  - now exists pre, post.
Qed.

(** C5.  Identifier extraction is the ordered combination of three rules,
    the first that succeeds giving the result.  The first rule returns ten
    digits, obtained by deleting the whitespace from a part of the
    transcript that the spaced pattern matches; the second returns the
    upper-cased token of 6 to 10 letters and digits that follows a PNR
    label; the third returns the first sequence of exactly ten digits
    standing between word boundaries that begins with none of the excluded
    prefixes.  The three tests of the specification hold: the spaced digits
    give [6562526496], the labelled token gives [AB12CD], and the bare
    [2026021399], although a ten-digit sequence, is rejected. *)
Theorem extract_pnr_rules (txt : text) :
  PNRExtractor.extract_pnr_from_text txt
  = first_some [rule_spaced; rule_labelled; rule_bare] txt
  /\ (forall p, rule_spaced txt = Some p ->
                length p = 10 /\ Forall (fun c => is_digit c = true) p
                /\ exists s, Substring s txt /\ p = filter (fun c => negb (is_space c)) s)
  /\ (forall p, rule_labelled txt = Some p ->
                6 <= length p <= 10 /\ Forall (fun c => is_upper c || is_digit c = true) p)
  /\ (forall p, rule_bare txt = Some p ->
                length p = 10 /\ Forall (fun c => is_digit c = true) p
                /\ Forall (fun e => startswith p e = false) PNRExtractor.excluded_prefixes
                /\ Substring p txt)
  /\ PNRExtractor.extract_pnr_from_text (str "6 5 6 2 5 2 6 4 9 6") = Some (str "6562526496")
  /\ PNRExtractor.extract_pnr_from_text (str "PNR: AB12CD") = Some (str "AB12CD")
  /\ re_findall false PNRExtractor.bare_pnr_re (str "2026021399") = [str "2026021399"]
  /\ PNRExtractor.extract_pnr_from_text (str "2026021399") = None.
Proof.
  split.
  { unfold PNRExtractor.extract_pnr_from_text. cbn [first_some].
    destruct (rule_spaced txt) as [p|] eqn:E1.
    - unfold rule_spaced in E1. rewrite E1.
      apply rule_spaced_shape in E1 as [Hl _]. destruct p; [discriminate | reflexivity].
    - unfold rule_spaced in E1. rewrite E1. unfold rule_labelled.
      destruct (re_search true PNRExtractor.labelled_pnr_re txt); [reflexivity|].
      unfold rule_bare, not_excluded.
      now destruct (filter _ (re_findall false PNRExtractor.bare_pnr_re txt)). }
  split; [intros p; apply rule_spaced_shape|].
  split; [intros p; apply rule_labelled_shape|].
  split; [intros p; apply rule_bare_shape|].
  repeat split; vm_compute; reflexivity.
Qed.

(** ** Name normalisation *)

Lemma flat_map_filter (p : N -> bool) (t : text) :
  flat_map (fun c => if p c then [] else [c]) t = filter (fun c => negb (p c)) t.
Proof.
  induction t as [|c t IH]; cbn; [reflexivity|]. rewrite IH. now destruct (p c).
Qed.

Lemma not_letter_set (c : N) :
  negb (set_matches false true [rng "A" "Z"; chr " "] c) = letter_or_space c.
Proof.
  unfold set_matches, item_matches, letter_or_space, is_upper, rng, chr, ch. cbn.
  rewrite !orb_false_r. now destruct (in_range 65 90 c || (c =? 32)%N).
Qed.

(** The three substitutions of [normalize_name], computed. *)
Lemma normalize_name_steps (x : text) :
  x <> [] ->
  NameMatcher.normalize_name x
  = strip (squeeze (str " ")
             (filter letter_or_space (re_sub false NameMatcher.titles_re [] (upper x)))).
Proof.
  intros Hx. unfold NameMatcher.normalize_name. destruct x as [|c x]; [congruence|].
  cbn [truthy negb]. rewrite re_sub_spaces. do 2 f_equal.
  unfold re_sub at 1, NameMatcher.not_letter_re, nset.
  rewrite sub_from_set, flat_map_filter. apply filter_ext. intros a. apply not_letter_set.
Qed.

Lemma lstrip_head (t : text) :
  match lstrip t with c :: _ => is_space c = false | [] => True end.
Proof.
  induction t as [|c t IH]; cbn; [exact I|]. destruct (is_space c) eqn:E; [exact IH | exact E].
Qed.

Lemma lstrip_fixed (t : text) :
  match t with c :: _ => is_space c = false | [] => True end -> lstrip t = t.
Proof. destruct t as [|c t]; cbn; [reflexivity|]. now intros ->. Qed.

Lemma rstrip_app (t : text) (c : N) :
  rstrip (t ++ [c]) = if is_space c then rstrip t else t ++ [c].
Proof.
  unfold rstrip. rewrite rev_app_distr. cbn. destruct (is_space c); [reflexivity|].
  cbn. now rewrite rev_involutive.
Qed.

Lemma rstrip_head (t : text) :
  match t with c :: _ => is_space c = false | [] => True end ->
  match rstrip t with c :: _ => is_space c = false | [] => True end.
Proof.
  induction t as [|c t IH] using rev_ind; intros H; [exact I|].
  rewrite rstrip_app. destruct (is_space c) eqn:E; [|exact H].
  apply IH. destruct t as [|d t]; [exact I | exact H].
Qed.

Lemma rstrip_rstrip (t : text) : rstrip (rstrip t) = rstrip t.
Proof.
  unfold rstrip. rewrite rev_involutive. f_equal. apply lstrip_fixed, lstrip_head.
Qed.

Lemma strip_strip (t : text) : strip (strip t) = strip t.
Proof.
  unfold strip. rewrite (lstrip_fixed (rstrip (lstrip t))).
  - apply rstrip_rstrip.
  - apply rstrip_head, lstrip_head.
Qed.

Lemma single_spaced_nonspace (b b' : bool) (c : N) (t : text) :
  is_space c = false -> single_spaced_from b (c :: t) -> single_spaced_from b' (c :: t).
Proof. intros E. cbn. now rewrite E. Qed.

Lemma single_spaced_lstrip (b : bool) (t : text) :
  single_spaced_from b t -> single_spaced_from false (lstrip t).
Proof.
  revert b. induction t as [|c t IH]; intros b H; [exact I|].
  cbn [lstrip]. destruct (is_space c) eqn:E.
  - cbn in H. rewrite E in H. destruct H as (_ & _ & H). now apply IH in H.
  - now apply (single_spaced_nonspace b false).
Qed.

Lemma single_spaced_prefix (b : bool) (t1 t2 : text) :
  single_spaced_from b (t1 ++ t2) -> single_spaced_from b t1.
Proof.
  revert b. induction t1 as [|c t1 IH]; intros b H; [exact I|].
  cbn in *. destruct (is_space c).
  - destruct H as (H1 & H2 & H3). repeat split; trivial. now apply IH.
  - now apply IH.
Qed.

Lemma single_spaced_rstrip (b : bool) (t : text) :
  single_spaced_from b t -> single_spaced_from b (rstrip t).
Proof.
  induction t as [|c t IH] using rev_ind; intros H; [exact H|].
  rewrite rstrip_app. destruct (is_space c); [|exact H].
  apply IH. now apply single_spaced_prefix in H.
Qed.

Lemma single_spaced_squeeze (b : bool) (t : text) :
  single_spaced_from b (squeeze_from (str " ") b t).
Proof.
  revert b. induction t as [|c t IH]; intros b; [exact I|].
  cbn [squeeze_from]. destruct (is_space c) eqn:E.
  - destruct b; cbn [app]; [apply IH|].
    change (str " ") with [32%N]. cbn [app single_spaced_from].
    change (is_space 32) with true. cbn iota. repeat split. apply IH.
  - cbn [single_spaced_from]. rewrite E. apply IH.
Qed.

Lemma squeeze_fixed (b : bool) (t : text) :
  single_spaced_from b t -> squeeze_from (str " ") b t = t.
Proof.
  revert b. induction t as [|c t IH]; intros b H; [reflexivity|].
  cbn in *. destruct (is_space c).
  - destruct H as (-> & -> & H). cbn. f_equal. now apply IH.
  - f_equal. now apply IH.
Qed.

Lemma Forall_lstrip (P : N -> Prop) (t : text) : Forall P t -> Forall P (lstrip t).
Proof.
  induction 1 as [|c t Hc Ht IH]; cbn; [constructor|].
  destruct (is_space c); [exact IH | now constructor].
Qed.

Lemma Forall_strip (P : N -> Prop) (t : text) : Forall P t -> Forall P (strip t).
Proof.
  intros H. unfold strip, rstrip. apply Forall_rev, Forall_lstrip, Forall_rev.
  now apply Forall_lstrip.
Qed.

Lemma Forall_squeeze (P : N -> Prop) (b : bool) (t : text) :
  P 32%N -> Forall P t -> Forall P (squeeze_from (str " ") b t).
Proof.
  intros Hsp H. revert b. induction H as [|c t Hc Ht IH]; intros b; cbn; [constructor|].
  destruct (is_space c); [|now constructor].
  destruct b; cbn; [apply IH | constructor; [exact Hsp | apply IH]].
Qed.

(** A normalised name has the normal form. *)
Lemma normalize_name_normal_form (x : text) : normal_form (NameMatcher.normalize_name x).
Proof.
  destruct x as [|c x]; [repeat split; constructor|].
  rewrite normalize_name_steps by discriminate.
  set (u := filter letter_or_space _).
  assert (Hu : Forall (fun c => letter_or_space c = true) u).
  { apply Forall_forall. intros a Ha. now apply filter_In in Ha. }
  repeat split.
  - apply Forall_strip, Forall_squeeze; [reflexivity | exact Hu].
  - apply single_spaced_rstrip, (single_spaced_lstrip false), single_spaced_squeeze.
  - apply strip_strip.
Qed.

Lemma den_alts_words (ts : list text) (pre w post : text) :
  (forall t, In t ts -> t <> []) ->
  den false (alts (map (fun t => seqs (map RChar t)) ts)) pre w post -> In w ts.
Proof.
  induction ts as [|t ts IH]; intros Hne H.
  - cbn in H. destruct H as [x [_ Hx]]. discriminate.
  - destruct ts as [|t' ts].
    + cbn [map alts] in H. apply den_word in H; [now left | apply Hne; now left].
    + cbn [map alts] in H. cbn [den] in H. destruct H as [H | H].
      * apply den_word in H; [now left | apply Hne; now left].
      * right. apply IH; [|exact H]. intros u Hu. apply Hne. now right.
Qed.

(** Where the title pattern matches, a title token stands as a whole
    word. *)
Lemma titles_match_whole_word (b a : text) (m : rematch) :
  match_at false NameMatcher.titles_re b a = Some m ->
  exists w, In w title_tokens /\ whole_word w (rev b ++ a).
Proof.
  intros H. apply match_at_sound in H as (_ & Ha & Hd & _).
  unfold NameMatcher.titles_re in Hd. cbn [seqs den] in Hd.
  destruct Hd as [w1 [w2 [Hw [[-> Hb1] [w3 [w4 [-> [Hd [-> Hb2]]]]]]]]].
  change (alts _) with (alts (map (fun t => seqs (map RChar t)) title_tokens)) in Hd.
  apply den_alts_words in Hd.
  - exists w3. split; [exact Hd|]. exists (rev b), (mafter m).
    rewrite rev_involutive. cbn [rev app] in *. rewrite app_nil_r in *.
    rewrite Ha, Hw. repeat split; assumption.
  - intros t Ht. cbn in Ht.
    repeat (destruct Ht as [<- | Ht]; [discriminate|]). contradiction.
Qed.

Lemma upper_normal (y : text) :
  Forall (fun c => letter_or_space c = true) y -> upper y = y.
Proof.
  unfold upper. induction 1 as [|c y Hc _ IH]; cbn [map]; [reflexivity|]. rewrite IH. f_equal.
  apply upper_letter_fixed. unfold letter_or_space in Hc.
  apply orb_true_iff in Hc as [Hc | Hc]; [now left | right; now apply N.eqb_eq].
Qed.

Lemma filter_all (p : N -> bool) (y : text) :
  Forall (fun c => p c = true) y -> filter p y = y.
Proof. induction 1 as [|c y Hc _ IH]; cbn; [reflexivity|]. now rewrite Hc, IH. Qed.

(** A text in normal form in which no title token stands as a whole word
    is its own normalisation. *)
Lemma normalize_name_fixed (y : text) :
  normal_form y ->
  (forall w, In w title_tokens -> ~ whole_word w y) ->
  NameMatcher.normalize_name y = y.
Proof.
  intros (Hchars & Hsp & Hstrip) Hno. destruct y as [|c y]; [reflexivity|].
  rewrite normalize_name_steps by discriminate.
  rewrite (upper_normal _ Hchars). unfold re_sub. rewrite sub_from_none.
  - rewrite (filter_all _ _ Hchars). unfold squeeze.
    rewrite (squeeze_fixed _ _ Hsp). exact Hstrip.
  - intros b a E. destruct (match_at false NameMatcher.titles_re b a) as [m|] eqn:M;
      [|reflexivity].
    apply titles_match_whole_word in M as [w [Hin Hw]]. rewrite E in Hw.
    cbn [rev app] in Hw. now apply Hno in Hw.
Qed.

(** *** A title token that stands as a whole word is stripped *)

Lemma length_lstrip_le (t : text) : length (lstrip t) <= length t.
Proof.
  induction t as [|c t IH]; cbn [lstrip]; [lia|]. destruct (is_space c); cbn [length]; lia.
Qed.

Lemma length_strip_le (t : text) : length (strip t) <= length t.
Proof.
  unfold strip, rstrip. rewrite length_rev.
  pose proof (length_lstrip_le (rev (lstrip t))) as H1. rewrite length_rev in H1.
  pose proof (length_lstrip_le t). lia.
Qed.

Lemma length_squeeze_le (b : bool) (t : text) :
  length (squeeze_from (str " ") b t) <= length t.
Proof.
  revert b. induction t as [|c t IH]; intros b; cbn [squeeze_from length]; [lia|].
  destruct (is_space c).
  - rewrite length_app. specialize (IH true).
    destruct b; [cbn [length] | change (length (str " ")) with 1]; lia.
  - specialize (IH false). cbn [length]. lia.
Qed.

Lemma length_sub_from_le (icase : bool) (r : regex) (a : text) :
  forall b k, length (sub_from icase r [] k b a) <= length a.
Proof.
  induction a as [|c t IH]; intros b k.
  - destruct k; cbn [sub_from]; [destruct (match_at icase r b [])|]; cbn; lia.
  - destruct k as [|k]; cbn [sub_from].
    + destruct (match_at icase r b (c :: t)) as [m|]; cbn [app length].
      * destruct (length (mwhole m)) as [|k'].
        -- specialize (IH (c :: b) 0). cbn [length]. lia.
        -- specialize (IH (c :: b) k'). lia.
      * specialize (IH (c :: b) 0). lia.
    + specialize (IH (c :: b) k). cbn [length]. lia.
Qed.

(** Where the pattern matches somewhere and never matches the empty text,
    deleting its matches shortens the text. *)
Lemma sub_from_shorter (icase : bool) (r : regex) :
  (forall b a m, match_at icase r b a = Some m -> mwhole m <> []) ->
  forall a1 a2 b m,
    match_at icase r (rev a1 ++ b) a2 = Some m ->
    length (sub_from icase r [] 0 b (a1 ++ a2)) < length (a1 ++ a2).
Proof.
  intros Hne.
  assert (Hhere : forall a b m,
             match_at icase r b a = Some m ->
             length (sub_from icase r [] 0 b a) < length a).
  { intros a b m H. pose proof (Hne _ _ _ H) as Hw.
    pose proof (match_at_sound _ _ _ _ _ H) as (_ & Ha & _).
    destruct a as [|c t].
    - symmetry in Ha. apply app_eq_nil in Ha as [Ha _]. contradiction.
    - cbn [sub_from]. rewrite H. cbn [app].
      destruct (mwhole m) as [|x w]; [contradiction|]. cbn [length].
      pose proof (length_sub_from_le icase r t (c :: b) (length w)). lia. }
  induction a1 as [|c a1 IH]; intros a2 b m H; [now apply (Hhere _ _ m)|].
  destruct (match_at icase r b ((c :: a1) ++ a2)) as [m'|] eqn:E;
    [now apply (Hhere _ _ m')|].
  cbn [app sub_from]. cbn [app] in E. rewrite E. cbn [length].
  cbn [rev] in H. rewrite <- app_assoc in H. cbn [app] in H. apply IH in H. lia.
Qed.

Lemma rmatch_word (w : text) (s : mstate) (post : text) :
  w <> [] -> rest s = w ++ post ->
  rmatch false (seqs (map RChar w)) s = [MState (rev w ++ seen s) post (groups s)].
Proof.
  revert s. induction w as [|c w IH]; intros [sn rs g] Hw Hr; [congruence|].
  cbn [rest seen groups] in *. subst rs.
  assert (Hc : rmatch false (RChar c) (MState sn ((c :: w) ++ post) g)
               = [MState (c :: sn) (w ++ post) g]).
  { cbn [rmatch]. unfold step_char, item_matches. cbn. now rewrite N.eqb_refl. }
  destruct w as [|c' w].
  - exact Hc.
  - change (seqs (map RChar (c :: c' :: w)))
      with (RSeq (RChar c) (seqs (map RChar (c' :: w)))).
    assert (Hseq : forall r1 r2 x,
               rmatch false (RSeq r1 r2) x = flat_map (rmatch false r2) (rmatch false r1 x))
      by reflexivity.
    rewrite Hseq, Hc. cbn [flat_map]. rewrite app_nil_r.
    rewrite (IH (MState (c :: sn) ((c' :: w) ++ post) g)); [|discriminate|reflexivity].
    cbn [seen groups rev]. now rewrite <- !app_assoc.
Qed.

Lemma rmatch_alts_word (ts : list text) (w : text) (s : mstate) (post : text) :
  (forall t, In t ts -> t <> []) -> In w ts -> rest s = w ++ post ->
  In (MState (rev w ++ seen s) post (groups s))
     (rmatch false (alts (map (fun t => seqs (map RChar t)) ts)) s).
Proof.
  induction ts as [|t ts IH]; intros Hne Hin Hr; [contradiction|].
  assert (Hhead : t = w ->
                  In (MState (rev w ++ seen s) post (groups s))
                     (rmatch false (seqs (map RChar t)) s)).
  { intros ->. rewrite (rmatch_word w s post); [now left | apply Hne; now left | exact Hr]. }
  destruct ts as [|t' ts].
  - cbn [map alts]. destruct Hin as [Hin | []]. now apply Hhead.
  - cbn [map alts]. cbn [rmatch]. apply in_app_iff. destruct Hin as [Hin | Hin].
    + left. now apply Hhead.
    + right. apply IH; trivial. intros u Hu. apply Hne. now right.
Qed.

Lemma title_tokens_nonempty (t : text) : In t title_tokens -> t <> [].
Proof.
  intros Ht. cbn in Ht. repeat (destruct Ht as [<- | Ht]; [discriminate|]). contradiction.
Qed.

(** Where a title token stands as a whole word, the title pattern
    matches. *)
Lemma whole_word_titles_match (w pre post : text) :
  In w title_tokens ->
  boundary (rev pre) (w ++ post) = true ->
  boundary (rev w ++ rev pre) post = true ->
  exists m, match_at false NameMatcher.titles_re (rev pre) (w ++ post) = Some m.
Proof.
  intros Hin H1 H2. unfold match_at.
  set (s := MState (rev pre) (w ++ post) []).
  assert (Hseq : forall r1 r2 x,
             rmatch false (RSeq r1 r2) x = flat_map (rmatch false r2) (rmatch false r1 x))
    by reflexivity.
  assert (Hwb : forall x,
             rmatch false RWordB x = guard (boundary (seen x) (rest x)) x)
    by reflexivity.
  assert (Hgrp : forall n r x,
             rmatch false (RGroup n r) x
             = map (fun s' => MState (seen s') (rest s') ((n, consumed x s') :: groups s'))
                   (rmatch false r x))
    by reflexivity.
  assert (H : In (MState (rev w ++ rev pre) post [(1, w)])
                 (rmatch false NameMatcher.titles_re s)).
  { unfold NameMatcher.titles_re. cbn [seqs]. rewrite Hseq, Hwb.
    cbn [seen rest s]. rewrite H1. cbn [guard flat_map]. rewrite app_nil_r, Hseq.
    apply in_flat_map. exists (MState (rev w ++ rev pre) post [(1, w)]). split.
    - rewrite Hgrp. apply in_map_iff. exists (MState (rev w ++ rev pre) post []). split.
      + rewrite (ahead_consumed s _ w); [reflexivity | split; reflexivity].
      + change (alts _) with (alts (map (fun t => seqs (map RChar t)) title_tokens)).
        apply (rmatch_alts_word title_tokens w (MState (rev pre) (w ++ post) []) post);
          [apply title_tokens_nonempty | exact Hin | reflexivity].
    - rewrite Hwb. cbn [seen rest]. rewrite H2. now left. }
  destruct (rmatch false NameMatcher.titles_re s) as [|s' l]; [contradiction|].
  now eexists.
Qed.

Lemma titles_match_nonempty (b a : text) (m : rematch) :
  match_at false NameMatcher.titles_re b a = Some m -> mwhole m <> [].
Proof.
  intros H. apply match_at_sound in H as (_ & _ & Hd & _).
  unfold NameMatcher.titles_re in Hd. cbn [seqs den] in Hd.
  destruct Hd as [w1 [w2 [-> [[-> _] [w3 [w4 [-> [Hd [-> _]]]]]]]]].
  change (alts _) with (alts (map (fun t => seqs (map RChar t)) title_tokens)) in Hd.
  apply den_alts_words in Hd; [|apply title_tokens_nonempty].
  apply title_tokens_nonempty in Hd. cbn [app]. rewrite app_nil_r. exact Hd.
Qed.

(** A text in normal form in which a title token stands as a whole word
    is changed by the normalisation. *)
Lemma normalize_name_changes (y w : text) :
  normal_form y -> In w title_tokens -> whole_word w y ->
  NameMatcher.normalize_name y <> y.
Proof.
  intros (Hchars & _ & _) Hin [pre [post [Hy [H1 H2]]]] Heq.
  assert (Hne : y <> []).
  { rewrite Hy. apply title_tokens_nonempty in Hin. destruct pre, w; cbn; congruence. }
  rewrite normalize_name_steps in Heq by exact Hne.
  rewrite (upper_normal _ Hchars) in Heq.
  destruct (whole_word_titles_match w pre post Hin H1 H2) as [m Hm].
  pose proof (sub_from_shorter false NameMatcher.titles_re titles_match_nonempty
                pre (w ++ post) [] m) as Hlt.
  rewrite app_nil_r in Hlt. specialize (Hlt Hm). rewrite <- Hy in Hlt.
  apply (f_equal (@length N)) in Heq.
  pose proof (length_strip_le
                (squeeze (str " ")
                   (filter letter_or_space (re_sub false NameMatcher.titles_re [] y)))) as L1.
  pose proof (length_squeeze_le false
                (filter letter_or_space (re_sub false NameMatcher.titles_re [] y))) as L2.
  pose proof (filter_length_le letter_or_space
                (re_sub false NameMatcher.titles_re [] y)) as L3.
  unfold squeeze in *. unfold re_sub in *. lia.
Qed.

(** C8, amended.  The result of [normalize_name] is made of capital
    letters and single spaces, without a space at either end; and
    normalising it again gives it back exactly when none of the stripped
    tokens stands in it as a whole word. *)
Theorem normalize_name_idempotent_without_title_word (x : text) :
  normal_form (NameMatcher.normalize_name x)
  /\ ((forall w, In w title_tokens -> ~ whole_word w (NameMatcher.normalize_name x)) ->
      NameMatcher.normalize_name (NameMatcher.normalize_name x)
      = NameMatcher.normalize_name x)
  /\ (NameMatcher.normalize_name (NameMatcher.normalize_name x)
      = NameMatcher.normalize_name x ->
      forall w, In w title_tokens -> ~ whole_word w (NameMatcher.normalize_name x)).
Proof.
  split; [apply normalize_name_normal_form|]. split.
  - intros H. apply normalize_name_fixed; [apply normalize_name_normal_form | exact H].
  - intros Heq w Hin Hw. revert Heq.
    apply (normalize_name_changes _ w); [apply normalize_name_normal_form | exact Hin | exact Hw].
Qed.

(** C8 as it is stated fails: the dot of [K.R] keeps the title pattern from
    matching, the removal of the dot then leaves [KR], and a second
    normalisation strips it. *)
Lemma normalize_name_not_idempotent :
  NameMatcher.normalize_name (str "K.R") = str "KR"
  /\ NameMatcher.normalize_name (NameMatcher.normalize_name (str "K.R")) = []
  /\ NameMatcher.normalize_name (NameMatcher.normalize_name (str "K.R"))
     <> NameMatcher.normalize_name (str "K.R").
Proof. vm_compute. repeat split. discriminate. Qed.

Lemma whole_word_occurs (w pre post before : text) :
  boundary (rev pre ++ before) (w ++ post) = true ->
  boundary (rev w ++ rev pre ++ before) post = true ->
  occurs_as_word w before (pre ++ w ++ post) = true.
Proof.
  revert before. induction pre as [|c pre IH]; intros before H1 H2.
  - cbn [rev app] in *.
    assert (Hs : startswith (w ++ post) w = true) by (apply startswith_spec; now exists post).
    assert (Hk : skipn (length w) (w ++ post) = post).
    { rewrite skipn_app, skipn_all, Nat.sub_diag. reflexivity. }
    destruct (w ++ post) eqn:E; cbn [occurs_as_word]; rewrite Hs, H1, Hk, H2; reflexivity.
  - cbn [app occurs_as_word]. apply orb_true_iff. right. apply IH.
    + cbn [rev] in H1. now rewrite <- app_assoc in H1.
    + cbn [rev] in H2. now rewrite <- app_assoc in H2.
Qed.

Lemma whole_word_test (w y : text) : whole_word w y -> occurs_as_word w [] y = true.
Proof.
  intros [pre [post [-> [H1 H2]]]]. apply whole_word_occurs; now rewrite app_nil_r.
Qed.

Lemma normalize_name_idempotent_without_title_word_witness :
  NameMatcher.normalize_name (NameMatcher.normalize_name (str "Mr Rahul Sharma"))
  = NameMatcher.normalize_name (str "Mr Rahul Sharma").
Proof.
  apply (proj1 (proj2 (normalize_name_idempotent_without_title_word
                         (str "Mr Rahul Sharma")))).
  intros w Hin Hw. apply whole_word_test in Hw.
  cbn [title_tokens In] in Hin.
  repeat (destruct Hin as [<- | Hin]; [vm_compute in Hw; discriminate|]).
  contradiction.
Defined.

Lemma extract_pnr_rules_witness :
  6 <= length (str "AB12CD") <= 10
  /\ Forall (fun c => is_upper c || is_digit c = true) (str "AB12CD").
Proof.
  destruct (extract_pnr_rules (str "pnr: ab12cd")) as (_ & _ & Hlabelled & _).
  apply Hlabelled. vm_compute. reflexivity.
Defined.

Lemma processed_document_passengers_witness :
  let td :=
    TicketProcessor.process_ticket (sample_lookup [sample_api_passenger]) iso_dparse
      (Ok (str "IRCTC e-ticket PNR: 6562526496 coach B2 berth 34")) (str "t.pdf") in
  is_error td = false /\ td_passengers td <> [].
Proof.
  intros td.
  destruct (processed_document_passengers (sample_lookup [sample_api_passenger]) iso_dparse
              (Ok (str "IRCTC e-ticket PNR: 6562526496 coach B2 berth 34")) (str "t.pdf"))
    as (_ & _ & _ & _ & Htrain).
  destruct (Htrain (str "IRCTC e-ticket PNR: 6562526496 coach B2 berth 34")
                   54%N (str "562526496") eq_refl) as [_ Hfound].
  - vm_compute. reflexivity.
  - vm_compute. reflexivity.
  - destruct (Hfound
                (ApiResponse true
                   (Some (ApiData (str "6562526496") (str "12301") (str "RAJDHANI")
                                  (str "2026-02-20") (str "2026-02-21")
                                  [sample_api_passenger])))
                (ApiData (str "6562526496") (str "12301") (str "RAJDHANI")
                         (str "2026-02-20") (str "2026-02-21") [sample_api_passenger]))
      as (He & Hp & _).
    + vm_compute. reflexivity.
    + reflexivity.
    + reflexivity.
    + discriminate.
    + split; [exact He | exact Hp].
Defined.

(** ** Passenger names *)

Lemma existsb_text_eqb (x : text) (l : list text) :
  existsb (text_eqb x) l = true <-> In x l.
Proof.
  rewrite existsb_exists. split.
  - intros [y [Hin H]]. apply text_eqb_eq in H. now subst.
  - intros H. exists x. split; [exact H | apply text_eqb_refl].
Qed.

(** A search for a digit finds one exactly when the text holds one. *)
Lemma re_found_digit (t : text) : re_found false digit t = existsb is_digit t.
Proof.
  unfold re_found, re_search, digit, set. generalize (@nil N) as before.
  induction t as [|c t IH]; intros before; cbn [search_from existsb];
    rewrite match_at_set; [reflexivity|].
  rewrite set_digit. destruct (is_digit c); [reflexivity | apply IH].
Qed.

Lemma no_digit_spec (t : text) :
  existsb is_digit t = false <-> Forall (fun c => is_digit c = false) t.
Proof.
  induction t as [|c t IH]; cbn [existsb].
  - split; [constructor | reflexivity].
  - rewrite orb_false_iff, IH. split.
    + intros [H1 H2]. now constructor.
    + intros H. inversion H. now split.
Qed.

Lemma case_keeps_digits (c : N) :
  is_digit (upper_char c) = is_digit c /\ is_digit (lower_char c) = is_digit c.
Proof.
  unfold upper_char, lower_char, is_lower, is_upper, is_digit, in_range. split.
  - destruct ((97 <=? c)%N && (c <=? 122)%N) eqn:E; [|reflexivity].
    apply andb_true_iff in E as [E1 E2]. apply N.leb_le in E1, E2.
    replace (c - 32 <=? 57)%N with false by (symmetry; apply N.leb_gt; lia).
    replace (c <=? 57)%N with false by (symmetry; apply N.leb_gt; lia).
    now rewrite !andb_false_r.
  - destruct ((65 <=? c)%N && (c <=? 90)%N) eqn:E; [|reflexivity].
    apply andb_true_iff in E as [E1 E2]. apply N.leb_le in E1, E2.
    replace (c + 32 <=? 57)%N with false by (symmetry; apply N.leb_gt; lia).
    replace (c <=? 57)%N with false by (symmetry; apply N.leb_gt; lia).
    now rewrite !andb_false_r.
Qed.

Lemma length_title_from (b : bool) (t : text) : length (title_from b t) = length t.
Proof.
  revert b. induction t as [|c t IH]; intros b; cbn [title_from length]; [reflexivity|].
  now rewrite IH.
Qed.

Lemma length_join_two (sep : text) (parts : list text) :
  2 <= length parts -> Forall (fun p => 1 <= length p) parts ->
  3 <= length (join sep parts) + 1 - length sep.
Proof.
  destruct parts as [|p [|q parts]]; cbn [length]; try lia. intros _ H.
  inversion H as [|? ? Hp H']. inversion H' as [|? ? Hq _]. subst.
  cbn [join]. destruct parts; rewrite !length_app; lia.
Qed.

Lemma Forall_join (P : N -> Prop) (sep : text) (parts : list text) :
  Forall P sep -> Forall (Forall P) parts -> Forall P (join sep parts).
Proof.
  intros Hs H. induction H as [|p parts Hp Hparts IH]; cbn [join]; [constructor|].
  destruct parts as [|q parts]; [exact Hp|].
  apply Forall_app. split; [exact Hp|]. apply Forall_app. now split.
Qed.

Lemma replace_char (a : N) (new t : text) :
  replace t [a] new = flat_map (fun c => if (a =? c)%N then new else [c]) t.
Proof.
  unfold replace. induction t as [|c t IH]; cbn [replace_from flat_map]; [reflexivity|].
  cbn [startswith length pred]. rewrite andb_true_r, IH.
  now destruct (a =? c)%N.
Qed.

Lemma case_keeps_marks (c : N) :
  (c <> 33%N -> upper_char c <> 33%N /\ lower_char c <> 33%N)
  /\ (c <> 124%N -> upper_char c <> 124%N /\ lower_char c <> 124%N).
Proof.
  unfold upper_char, lower_char, is_lower, is_upper, in_range.
  split; intros H; split;
    match goal with
    | |- context [if ?b then _ else _] => destruct b eqn:E; [|exact H]
    end;
    apply andb_true_iff in E as [E1 E2]; apply N.leb_le in E1, E2; lia.
Qed.

Lemma title_from_name_chars (b : bool) (t : text) :
  Forall name_char t -> Forall name_char (title_from b t).
Proof.
  intros H. revert b. induction H as [|c t Hc Ht IH]; intros b; cbn [title_from];
    constructor; [|apply IH].
  destruct Hc as (Hd & H1 & H2). unfold name_char.
  destruct (case_keeps_digits c) as [Du Dl].
  destruct (case_keeps_marks c) as [M1 M2].
  destruct (M1 H1) as [M1u M1l]. destruct (M2 H2) as [M2u M2l].
  destruct b; [rewrite Dl | rewrite Du]; repeat split; assumption.
Qed.

Lemma letter_name_char (c : N) : is_alpha c = true -> name_char c.
Proof.
  unfold name_char, is_alpha, is_upper, is_lower, is_digit, in_range. intros H.
  apply orb_true_iff in H as [H | H]; apply andb_true_iff in H as [E1 E2];
    apply N.leb_le in E1, E2; repeat split; try lia;
    apply andb_false_iff; right; apply N.leb_gt; lia.
Qed.

Section PassengerNames.

Import PNRExtractor.

(** The parts that [[A-Z][a-z]+] finds are words of letters, of two
    letters or more. *)
Lemma capitalised_parts (t : text) :
  Forall (fun p => 2 <= length p /\ Forall (fun c => is_alpha c = true) p)
         (re_findall false capitalised_re t).
Proof.
  apply Forall_forall. intros p Hp.
  apply re_findall_sound in Hp as (pre & post & _ & Hd). split.
  - unfold capitalised_re, plus, set in Hd. cbn [seqs den] in Hd.
    destruct Hd as (w1 & w2 & -> & [x [-> _]] & Hd).
    assert (Hd' : den false (RRep (RSet false [rng "a" "z"]) 1 None true)
                      (rev [x] ++ rev pre) w2 post) by exact Hd.
    apply den_class_rep in Hd'. cbn [length app]. lia.
  - apply (den_chars false (fun c => is_alpha c = true)) in Hd; [exact Hd|].
    unfold capitalised_re, plus, set. cbn [seqs leaves].
    split; intros x Hx; unfold is_alpha; unfold_classes; cbn in Hx;
      rewrite !orb_false_r in Hx; rewrite Hx; now rewrite ?orb_true_r.
Qed.

(** A name that [_clean_ocr_name] lets through has three characters or
    more, holds no digit, and holds neither of the marks [!] and [|] that
    the OCR puts for a capital I. *)
Lemma clean_ocr_name_shape (raw_name : text) :
  _clean_ocr_name raw_name = []
  \/ (3 <= length (_clean_ocr_name raw_name)
      /\ Forall (fun c => is_digit c = false /\ c <> 33%N /\ c <> 124%N)
                (_clean_ocr_name raw_name)).
Proof.
  unfold _clean_ocr_name.
  set (name := re_sub false spaces_re (str " ") _).
  rewrite re_found_digit.
  destruct (existsb is_digit name) eqn:Ed; [now left|]. cbn [orb].
  destruct (length name <? 3) eqn:El; [now left|].
  destruct (existsb _ CLEAN_BAD_WORDS); [now left|].
  apply Nat.ltb_ge in El. apply no_digit_spec in Ed.
  assert (Hchars : Forall name_char name).
  { apply Forall_forall. intros c Hc. rewrite Forall_forall in Ed.
    split; [now apply Ed|].
    subst name. rewrite re_sub_spaces in Hc.
    assert (Hm : Forall (fun c => c <> 33%N /\ c <> 124%N)
                   (squeeze (str " ")
                      (replace (replace (strip raw_name) (str "!") (str "I"))
                               (str "|") (str "I")))).
    { apply Forall_squeeze; [split; discriminate|].
      change (str "!") with [33%N]. change (str "|") with [124%N].
      change (str "I") with [73%N]. rewrite !replace_char.
      apply Forall_forall. intros x Hx.
      apply in_flat_map in Hx as [y [Hy Hx]].
      apply in_flat_map in Hy as [z [_ Hy]].
      destruct (124 =? y)%N eqn:E1.
      - destruct Hx as [<- | []]. split; discriminate.
      - destruct Hx as [<- | []]. apply N.eqb_neq in E1.
        destruct (33 =? z)%N eqn:E2.
        + destruct Hy as [<- | []]. split; discriminate.
        + destruct Hy as [<- | []]. apply N.eqb_neq in E2. split; congruence. }
    rewrite Forall_forall in Hm. now apply Hm. }
  right.
  assert (Htitle : 3 <= length (title name) /\ Forall name_char (title name)).
  { unfold title. rewrite length_title_from. split; [exact El|].
    now apply title_from_name_chars. }
  destruct (negb (py_in (str " ") name) && (8 <? length name)); [|exact Htitle].
  destruct (2 <=? length (re_findall false capitalised_re name)) eqn:E2; [|exact Htitle].
  apply Nat.leb_le in E2. pose proof (capitalised_parts name) as Hp. split.
  - pose proof (length_join_two (str " ") _ E2) as Hj.
    change (length (str " ")) with 1 in Hj. 
    assert (3 <= length (join (str " ") (re_findall false capitalised_re name)) + 1 - 1);
      [|lia].
    apply Hj. eapply Forall_impl; [|exact Hp]. intros p [H _]. lia.
  - apply Forall_join.
    + change (str " ") with [32%N]. constructor; [|constructor].
      repeat split; discriminate.
    + eapply Forall_impl; [|exact Hp]. intros p [_ H].
      eapply Forall_impl; [|exact H]. apply letter_name_char.
Qed.

Lemma add_name_keeps (P : text -> Prop) (names : list text) (raw_name : text) :
  NoDup names -> Forall P names -> (raw_name <> [] -> P raw_name) ->
  NoDup (add_name names raw_name) /\ Forall P (add_name names raw_name).
Proof.
  intros Hn Hp Hr. unfold add_name.
  destruct (truthy raw_name && negb (existsb (text_eqb raw_name) names)) eqn:E;
    [|now split].
  apply andb_true_iff in E as [E1 E2]. apply truthy_nonempty in E1.
  apply negb_true_iff in E2. split.
  - apply NoDup_app; [exact Hn | repeat constructor; intros [] | ].
    intros x Hx [<- | []]. apply existsb_text_eqb in Hx. congruence.
  - apply Forall_app. split; [exact Hp|]. constructor; [now apply Hr | constructor].
Qed.

Lemma train_line_keeps (names : list text) (line : text) :
  let clean n := n <> [] /\ exists raw_name, n = _clean_ocr_name raw_name in
  NoDup names -> Forall clean names ->
  NoDup (train_line names line) /\ Forall clean (train_line names line).
Proof.
  intros clean Hn Hp. unfold train_line.
  assert (Hadd : forall raw_name,
            NoDup (add_name names (_clean_ocr_name raw_name))
            /\ Forall clean (add_name names (_clean_ocr_name raw_name))).
  { intros raw_name. apply add_name_keeps; trivial. intros H. split; [exact H|].
    now exists raw_name. }
  destruct (existsb _ BLOCKLIST); [now split|].
  destruct (length line <? 4); [now split|].
  destruct (re_search true irctc_re line); [apply Hadd|].
  destruct (re_search true ixigo_re line); [apply Hadd|].
  destruct (re_match false app_re line); [|now split].
  destruct (_ && _); [apply Hadd | now split].
Qed.

Lemma extract_train_passengers_clean (txt : text) :
  NoDup (extract_train_passengers txt)
  /\ Forall (fun n => n <> [] /\ exists raw_name, n = _clean_ocr_name raw_name)
            (extract_train_passengers txt).
Proof.
  unfold extract_train_passengers.
  set (lines := map _ _).
  enough (H : forall names,
            NoDup names ->
            Forall (fun n => n <> [] /\ exists raw_name, n = _clean_ocr_name raw_name) names ->
            NoDup (fold_left train_line lines names)
            /\ Forall (fun n => n <> [] /\ exists raw_name, n = _clean_ocr_name raw_name)
                      (fold_left train_line lines names))
    by (apply H; constructor).
  induction lines as [|line lines IH]; intros names Hn Hp; cbn [fold_left];
    [now split|].
  destruct (train_line_keeps names line Hn Hp) as [Hn' Hp']. now apply IH.
Qed.

(** X1.  The names that [extract_train_passengers] returns are pairwise
    different, and each, cleaned by [_clean_ocr_name], has three
    characters or more, no digit, and neither of the marks [!] and [|]
    that the OCR puts for a capital I. *)
Theorem train_passenger_names_are_clean_and_distinct (txt : text) :
  NoDup (extract_train_passengers txt)
  /\ Forall (fun n => 3 <= length n
                      /\ Forall (fun c => is_digit c = false /\ c <> 33%N /\ c <> 124%N) n)
            (extract_train_passengers txt).
Proof.
  destruct (extract_train_passengers_clean txt) as [Hn Hp]. split; [exact Hn|].
  eapply Forall_impl; [|exact Hp]. intros n [Hne [raw_name ->]].
  destruct (clean_ocr_name_shape raw_name) as [E | E]; [contradiction | exact E].
Qed.

Lemma valid_flight_name (name : text) :
  _is_valid_flight_name name = true ->
  5 <= length name <= 40
  /\ Substring (str " ") name
  /\ Forall (fun c => is_digit c = false) name
  /\ Forall (fun bad => ~ Substring bad (upper name)) FLIGHT_BAD_WORDS.
Proof.
  unfold _is_valid_flight_name. rewrite re_found_digit.
  destruct (existsb _ FLIGHT_BAD_WORDS) eqn:Eb; [discriminate|].
  destruct (py_in (str " ") name) eqn:Es; [|discriminate]. cbn [negb].
  destruct ((length name <? 5) || (40 <? length name)) eqn:El; [discriminate|].
  destruct (existsb is_digit name) eqn:Ed; [discriminate|]. intros _.
  apply orb_false_iff in El as [E1 E2]. apply Nat.ltb_ge in E1, E2.
  split; [lia|]. split; [now apply py_in_spec|]. split; [now apply no_digit_spec|].
  apply Forall_forall. intros bad Hin Hsub. apply py_in_spec in Hsub.
  assert (existsb (fun bad => py_in bad (upper name)) FLIGHT_BAD_WORDS = true)
    by (apply existsb_exists; now exists bad).
  congruence.
Qed.

Lemma flight_candidate_keeps (passengers : list flight_passenger) (mtch : text) :
  let valid p := fp_seat p = [] /\ _is_valid_flight_name (fp_name p) = true in
  NoDup (map (fun p => upper (fp_name p)) passengers) -> Forall valid passengers ->
  NoDup (map (fun p => upper (fp_name p)) (flight_candidate passengers mtch))
  /\ Forall valid (flight_candidate passengers mtch).
Proof.
  intros valid Hn Hv. unfold flight_candidate.
  set (name := replace _ (str "Mrs.") (str "Mrs")).
  destruct (_is_valid_flight_name name) eqn:E; [|now split].
  destruct (existsb _ passengers) eqn:Ex; cbn [negb]; [now split|]. split.
  - rewrite map_app. cbn [map fp_name].
    apply NoDup_app; [exact Hn | repeat constructor; intros [] | ].
    intros x Hx [<- | []]. apply in_map_iff in Hx as [p [Hp Hin]].
    assert (existsb (fun p => text_eqb (upper (fp_name p)) (upper name)) passengers = true).
    { apply existsb_exists. exists p. split; [exact Hin|]. now apply text_eqb_eq. }
    congruence.
  - apply Forall_app. split; [exact Hv|]. constructor; [|constructor]. now split.
Qed.

Lemma extract_flight_passengers_valid (txt : text) :
  NoDup (map (fun p => upper (fp_name p)) (extract_flight_passengers txt))
  /\ Forall (fun p => fp_seat p = [] /\ _is_valid_flight_name (fp_name p) = true)
            (extract_flight_passengers txt).
Proof.
  unfold extract_flight_passengers.
  assert (Hinner : forall matches passengers,
            NoDup (map (fun p => upper (fp_name p)) passengers) ->
            Forall (fun p => fp_seat p = [] /\ _is_valid_flight_name (fp_name p) = true)
                   passengers ->
            NoDup (map (fun p => upper (fp_name p))
                     (fold_left flight_candidate matches passengers))
            /\ Forall (fun p => fp_seat p = [] /\ _is_valid_flight_name (fp_name p) = true)
                      (fold_left flight_candidate matches passengers)).
  { induction matches as [|m matches IH]; intros passengers Hn Hv; cbn [fold_left];
      [now split|].
    destruct (flight_candidate_keeps passengers m Hn Hv) as [Hn' Hv']. now apply IH. }
  cbn [fold_left].
  destruct (Hinner (re_findall1 true adult_re txt) [] (NoDup_nil _) (Forall_nil _))
    as [Hn1 Hv1].
  now apply Hinner.
Qed.

(** X2.  The passengers that [extract_flight_passengers] returns have
    names that differ pairwise even with the letter case set aside, and
    no seat.  Each name has 5 to 40 characters, a space, no digit, and
    none of the rejected words in it, whatever the letter case. *)
Theorem flight_passengers_are_valid_and_distinct (txt : text) :
  NoDup (map (fun p => upper (fp_name p)) (extract_flight_passengers txt))
  /\ Forall (fun p =>
               fp_seat p = []
               /\ 5 <= length (fp_name p) <= 40
               /\ Substring (str " ") (fp_name p)
               /\ Forall (fun c => is_digit c = false) (fp_name p)
               /\ Forall (fun bad => ~ Substring bad (upper (fp_name p))) FLIGHT_BAD_WORDS)
            (extract_flight_passengers txt).
Proof.
  destruct (extract_flight_passengers_valid txt) as [Hn Hv].
  split; [exact Hn|]. eapply Forall_impl; [|exact Hv].
  intros p [Hs Hval]. split; [exact Hs|]. now apply valid_flight_name.
Qed.

End PassengerNames.

(** ** The flight number *)

(** Under [re.IGNORECASE] a capital letter or a digit of a pattern
    accepts the characters whose upper case it is. *)
Lemma item_char_icase (c x : N) :
  is_upper c || is_digit c = true ->
  item_matches true (CChar c) x = true -> upper_char x = c.
Proof.
  unfold item_matches, item_base, upper_char, lower_char, is_upper, is_lower, is_digit,
    in_range. cbn [andb].
  intros Hc H.
  assert (Hc' : (65 <= c <= 90 \/ 48 <= c <= 57)%N).
  { apply orb_true_iff in Hc as [Hc | Hc]; apply andb_true_iff in Hc as [H1 H2];
      apply N.leb_le in H1, H2; lia. }
  clear Hc. revert H.
  destruct ((97 <=? x)%N && (x <=? 122)%N) eqn:El;
    destruct ((65 <=? x)%N && (x <=? 90)%N) eqn:Eu;
    rewrite ?orb_true_iff, ?N.eqb_eq;
    repeat match goal with
           | H : _ && _ = true |- _ => apply andb_true_iff in H as [? ?]
           | H : _ && _ = false |- _ => apply andb_false_iff in H as [H | H]
           | H : (_ <=? _)%N = true |- _ => apply N.leb_le in H
           | H : (_ <=? _)%N = false |- _ => apply N.leb_gt in H
           end; lia.
Qed.

Lemma den_word_icase (w : text) (pre v post : text) :
  w <> [] -> Forall (fun c => is_upper c || is_digit c = true) w ->
  den true (seqs (map RChar w)) pre v post -> upper v = w.
Proof.
  revert pre v. induction w as [|c w IH]; intros pre v Hw Hall H; [congruence|].
  inversion Hall as [|? ? Hc Hall']. subst.
  destruct w as [|c' w].
  - cbn in H. destruct H as [x [-> Hx]]. cbn [upper map]. f_equal.
    now apply item_char_icase.
  - change (seqs (map RChar (c :: c' :: w)))
      with (RSeq (RChar c) (seqs (map RChar (c' :: w)))) in H.
    cbn [den] in H. destruct H as [w1 [w2 [-> [[x [-> Hx]] H2]]]].
    apply IH in H2; [|discriminate | exact Hall'].
    unfold upper in *. cbn [app map]. rewrite H2. f_equal. now apply item_char_icase.
Qed.

Lemma den_alts_words_icase (ts : list text) (pre w post : text) :
  (forall t, In t ts -> t <> [] /\ Forall (fun c => is_upper c || is_digit c = true) t) ->
  den true (alts (map (fun t => seqs (map RChar t)) ts)) pre w post -> In (upper w) ts.
Proof.
  induction ts as [|t ts IH]; intros Hne H.
  - cbn in H. destruct H as [x [_ Hx]]. discriminate.
  - destruct (Hne t (or_introl eq_refl)) as [Ht1 Ht2]. destruct ts as [|t' ts].
    + cbn [map alts] in H. apply den_word_icase in H; trivial. now left.
    + cbn [map alts] in H. cbn [den] in H. destruct H as [H | H].
      * apply den_word_icase in H; trivial. now left.
      * right. apply IH; [|exact H]. intros u Hu. apply Hne. now right.
Qed.

Lemma set_digit_icase (c : N) : set_matches true false [CDigit] c = is_digit c.
Proof.
  unfold set_matches, item_matches. cbn.
  destruct (case_keeps_digits c) as [-> ->]. now destruct (is_digit c).
Qed.

Section FlightNumber.

Import FlightExtractor.

(** X3.  [extract_flight_details] raises exactly when the transcript
    holds no coded flight number, an airline code followed by three or
    four digits, and then with the one exception that [m.groups()] on
    [None] gives: a number that is only labelled, as in [Flight No], does
    not help.  When the function returns, the flight number is the code
    as the transcript spells it, one of IX, I5, AI, 6E, UK, SG and QP in
    either letter case, a space, and the three or four digits. *)
Theorem flight_number_is_the_coded_one (txt : text) :
  (extract_flight_details txt = Raise none_has_no_groups
   <-> re_search true coded_flight_re txt = None)
  /\ (forall e, extract_flight_details txt = Raise e -> e = none_has_no_groups)
  /\ (forall fd,
        extract_flight_details txt = Ok fd ->
        exists code digits,
          flight_number fd = code ++ str " " ++ digits
          /\ In (upper code) flight_codes
          /\ 3 <= length digits <= 4
          /\ Forall (fun c => is_digit c = true) digits).
Proof.
  assert (Hok : forall m, re_search true coded_flight_re txt = Some m ->
            exists fd, extract_flight_details txt = Ok fd
                       /\ flight_number fd
                          = group_or_empty m 1 ++ str " " ++ group_or_empty m 2).
  { intros m E. unfold extract_flight_details, find_flight_number, flight_number_patterns.
    rewrite E.
    assert (Hn : (ngroups coded_flight_re =? 2) = true) by (vm_compute; reflexivity).
    rewrite Hn. cbn [bind].
    destruct (re_findall1 false time_re txt) as [|t0 [|t1 ?]];
      eexists; (split; [reflexivity|]); reflexivity. }
  split; [|split].
  - split.
    + intros H. destruct (re_search true coded_flight_re txt) as [m|] eqn:E; [|reflexivity].
      destruct (Hok m eq_refl) as [fd [Hfd _]]. congruence.
    + apply flight_details_raise.
  - intros e H. destruct (re_search true coded_flight_re txt) as [m|] eqn:E.
    + destruct (Hok m eq_refl) as [fd [Hfd _]]. congruence.
    + rewrite (flight_details_raise txt E) in H. congruence.
  - intros fd H. destruct (re_search true coded_flight_re txt) as [m|] eqn:E.
    2:{ rewrite (flight_details_raise txt E) in H. discriminate. }
    destruct (Hok m eq_refl) as [fd' [Hfd Hnum]].
    assert (fd' = fd) by congruence. subst fd'. clear H Hfd Hok.
    apply search_from_sound in E as [b [a [E _]]].
    assert (B1 : binds 1 coded_flight_re = true) by (vm_compute; reflexivity).
    assert (B2 : binds 2 coded_flight_re = true) by (vm_compute; reflexivity).
    destruct (match_at_binds true 1 _ _ _ _ B1 E) as [code [Hg1 E1]].
    destruct (match_at_binds true 2 _ _ _ _ B2 E) as [digits [Hg2 E2]].
    apply match_at_sound in E as (_ & _ & _ & Hgd).
    apply Hgd in Hg1, Hg2. exists code, digits. rewrite Hnum, E1, E2.
    split; [reflexivity|].
    unfold coded_flight_re, star, times, digit, space, set in Hg1, Hg2.
    cbn [seqs group_den] in Hg1, Hg2. split.
    + destruct Hg1 as [[] | [[[_ (pre & post & Hd)] | Hg1] | Hg1]].
      * change (alts _) with (alts (map (fun t => seqs (map RChar t)) flight_codes)) in Hd.
        apply den_alts_words_icase in Hd; [exact Hd|].
        intros t Ht. cbn in Ht.
        repeat (destruct Ht as [<- | Ht];
                [split; [discriminate | repeat constructor]|]).
        contradiction.
      * apply no_group_den in Hg1; [contradiction | vm_compute; reflexivity].
      * destruct Hg1 as [[] | [[] | [[[Hn _] | []] | []]]]. discriminate.
    + destruct Hg2 as [[] | [[[Hn _] | Hg2] | Hg2]]; [discriminate | |].
      * apply no_group_den in Hg2; [contradiction | vm_compute; reflexivity].
      * destruct Hg2 as [[] | [[] | [[[_ (pre & post & Hd)] | []] | []]]].
        split.
        -- now apply den_class_rep in Hd.
        -- apply (den_chars true (fun c => is_digit c = true)) in Hd; [exact Hd|].
           cbn [leaves]. intros x Hx. now rewrite set_digit_icase in Hx.
Qed.

End FlightNumber.

(** ** The best score *)

Lemma sort_desc_cons (c : candidate) (l : list candidate) :
  NameMatcher.sort_desc (c :: l) = NameMatcher.insert_desc c (NameMatcher.sort_desc l).
Proof. reflexivity. Qed.

(** The head of the sorted candidates is the first candidate with the
    greatest score. *)
Lemma sort_desc_head (l : list candidate) (c : candidate) (more : list candidate) :
  NameMatcher.sort_desc l = c :: more ->
  exists pre post,
    l = pre ++ c :: post
    /\ Forall (fun d => (score d < score c)%Q) pre
    /\ Forall (fun d => (score d <= score c)%Q) post.
Proof.
  revert c more. induction l as [|x l IH]; intros c more; [discriminate|].
  rewrite sort_desc_cons. destruct (NameMatcher.sort_desc l) as [|d s] eqn:E.
  - cbn [NameMatcher.insert_desc]. intros H. injection H as <- <-.
    assert (l = []) as ->.
    { apply Permutation_nil. rewrite <- E. apply sort_desc_perm. }
    exists [], []. repeat split; constructor.
  - destruct (IH d s eq_refl) as (pre & post & -> & Hpre & Hpost).
    cbn [NameMatcher.insert_desc]. destruct (Qlt_bool (score x) (score d)) eqn:Ex.
    + intros H. injection H as <- <-. apply Qlt_bool_true in Ex.
      exists (x :: pre), post. repeat split; trivial. now constructor.
    + intros H. injection H as <- <-. apply Qlt_bool_false in Ex.
      exists [], (pre ++ d :: post). repeat split; [constructor|].
      apply Forall_app. split.
      * eapply Forall_impl; [|exact Hpre]. intros e He. cbn beta in He.
        apply Qlt_le_weak. eapply Qlt_le_trans; eassumption.
      * constructor; [exact Ex|].
        eapply Forall_impl; [|exact Hpost]. intros e He. cbn beta in He.
        eapply Qle_trans; eassumption.
Qed.

Lemma raise_best_first_max (pre post : list Q) (top best : Q) :
  Forall (fun s => (s < top)%Q) pre -> Forall (fun s => (s <= top)%Q) post ->
  (best < top)%Q ->
  fold_left raise_best (pre ++ top :: post) best = top.
Proof.
  intros Hpre. revert best. induction Hpre as [|s pre Hs _ IH]; intros best Hpost Hb.
  - cbn [app fold_left]. unfold raise_best at 2.
    apply Qlt_bool_true in Hb. rewrite Hb. clear Hb best.
    induction Hpost as [|s post Hs _ IH]; cbn [fold_left]; [reflexivity|].
    unfold raise_best at 2. apply Qlt_bool_false in Hs. now rewrite Hs.
  - cbn [app fold_left]. apply IH; [exact Hpost|].
    unfold raise_best. now destruct (Qlt_bool best s).
Qed.

Lemma filter_split {A : Type} (p : A -> bool) (l a b : list A) (x : A) :
  filter p l = a ++ x :: b ->
  exists a' b', l = a' ++ x :: b' /\ filter p a' = a /\ filter p b' = b.
Proof.
  revert a. induction l as [|y l IH]; intros a H; cbn [filter] in H.
  - now destruct a.
  - destruct (p y) eqn:E.
    + destruct a as [|z a]; cbn [app] in H; injection H as <- H.
      * exists [], l. now repeat split.
      * apply IH in H as (a' & b' & -> & Ha & Hb). exists (y :: a'), b'.
        cbn [filter app]. rewrite E, Ha. now repeat split.
    + apply IH in H as (a' & b' & -> & Ha & Hb). exists (y :: a'), b'.
      cbn [filter app]. rewrite E. now repeat split.
Qed.

Section Best.

Variable partial_ratio : text -> text -> Q.
Variable token_sort_ratio : text -> text -> Q.

Let final_score := NameMatcher.final_score partial_ratio token_sort_ratio.

Lemma match_loop_best (norm_passenger : text) (master_names : list master)
    (matches : list candidate) (best : Q) :
  snd (fold_left (NameMatcher.match_step partial_ratio token_sort_ratio norm_passenger)
                 master_names (matches, best))
  = fold_left raise_best
      (map (final_score norm_passenger)
         (filter (fun m => Qle_bool MATCH_THRESHOLD (final_score norm_passenger m))
                 master_names))
      best.
Proof.
  revert matches best. induction master_names as [|m l IH]; intros matches best;
    cbn [fold_left filter map]; [reflexivity|].
  unfold NameMatcher.match_step at 2. fold (final_score norm_passenger m).
  destruct (Qle_bool MATCH_THRESHOLD (final_score norm_passenger m));
    cbn [map fold_left]; apply IH.
Qed.

(** X4.  The score that step 1 writes is the score of the suggestion.
    When no guest reaches the threshold there is no candidate and the
    best score is 0, whatever the scores below 85 were.  Otherwise the
    best score is the score of the first candidate, and the first
    candidate is the first guest of the registry, in the order of the
    sheet, with the greatest score: the guests before it score strictly
    less, the guests after it at most as much. *)
Theorem best_score_is_the_score_of_the_first_best_guest
    (passenger_name : text) (master_names : list master) :
  passenger_name <> [] ->
  let score_of := final_score (NameMatcher.normalize_name passenger_name) in
  let result :=
    NameMatcher.match_against_master partial_ratio token_sort_ratio
      passenger_name master_names in
  match fst result with
  | [] => snd result = 0%Q /\ Forall (fun m => (score_of m < 85)%Q) master_names
  | c :: _ =>
      snd result = score c /\ score c = score_of (cand c) /\ (85 <= score c)%Q
      /\ exists pre post,
           master_names = pre ++ cand c :: post
           /\ Forall (fun m => (score_of m < score c)%Q) pre
           /\ Forall (fun m => (score_of m <= score c)%Q) post
  end.
Proof.
  intros Hp score_of result.
  pose proof (match_against_master_candidates partial_ratio token_sort_ratio
                passenger_name master_names Hp) as Hm.
  fold final_score score_of result in Hm.
  assert (Hb : snd result
               = fold_left raise_best
                   (map score_of
                      (filter (fun m => Qle_bool MATCH_THRESHOLD (score_of m)) master_names))
                   0%Q).
  { unfold result, NameMatcher.match_against_master.
    destruct passenger_name as [|x p]; [congruence|].
    destruct master_names as [|m l]; [reflexivity|].
    pose proof (match_loop_best (NameMatcher.normalize_name (x :: p)) (m :: l) [] 0%Q) as H.
    destruct (fold_left _ (m :: l) ([], 0%Q)) as [matches best]. exact H. }
  set (kept := filter (fun m => Qle_bool MATCH_THRESHOLD (score_of m)) master_names) in *.
  destruct (fst result) as [|c more] eqn:E.
  - assert (Hk : kept = []).
    { assert (Hn : map (fun m => Candidate m (score_of m)) kept = []).
      { apply Permutation_nil. rewrite Hm. apply sort_desc_perm. }
      now apply map_eq_nil in Hn. }
    split; [now rewrite Hb, Hk|].
    apply Forall_forall. intros m Hin. apply Qnot_le_lt. intros Hle.
    assert (In m kept) by (apply filter_In; split; [exact Hin | now apply Qle_bool_iff]).
    rewrite Hk in *. contradiction.
  - symmetry in Hm. apply sort_desc_head in Hm as (pre & post & Hl & Hpre & Hpost).
    apply map_eq_app in Hl as (l1 & l2 & Hk & <- & Hl).
    apply map_eq_cons in Hl as (m & l3 & -> & <- & <-).
    cbn [score cand] in *.
    assert (Hin : In m kept) by (rewrite Hk; apply in_elt).
    apply filter_In in Hin as [_ Hthr]. apply Qle_bool_iff in Hthr.
    split; [|split; [reflexivity|]; split; [exact Hthr|]].
    + rewrite Hb, Hk, map_app. cbn [map]. apply raise_best_first_max.
      * rewrite Forall_map in Hpre. now rewrite Forall_map.
      * rewrite Forall_map in Hpost. now rewrite Forall_map.
      * eapply Qlt_le_trans; [|exact Hthr]. reflexivity.
    + apply filter_split in Hk as (a & b & -> & Ha & Hb').
      exists a, b. split; [reflexivity|]. split.
      * apply Forall_forall. intros g Hg.
        destruct (Qle_bool MATCH_THRESHOLD (score_of g)) eqn:Eg.
        -- assert (In g l1) by (rewrite <- Ha; apply filter_In; now split).
           rewrite Forall_map, Forall_forall in Hpre. now apply Hpre.
        -- apply Qlt_le_trans with (y := 85%Q); [|exact Hthr].
           apply Qnot_le_lt. intros Hle. apply Qle_bool_iff in Hle.
           unfold MATCH_THRESHOLD in Eg. congruence.
      * apply Forall_forall. intros g Hg.
        destruct (Qle_bool MATCH_THRESHOLD (score_of g)) eqn:Eg.
        -- assert (In g l3) by (rewrite <- Hb'; apply filter_In; now split).
           rewrite Forall_map, Forall_forall in Hpost. now apply Hpost.
        -- apply Qlt_le_weak. apply Qlt_le_trans with (y := 85%Q); [|exact Hthr].
           apply Qnot_le_lt. intros Hle. apply Qle_bool_iff in Hle.
           unfold MATCH_THRESHOLD in Eg. congruence.
Qed.

End Best.

(** ** Rows, cell by cell *)

Lemma row_ext (r1 r2 : row) :
  length r1 = length r2 -> (forall k, cell r1 k = cell r2 k) -> r1 = r2.
Proof.
  intros Hl Hc. apply (nth_ext r1 r2 [] []); [exact Hl|]. intros k _. apply Hc.
Qed.

Lemma map_rows_ext (f g : nat -> row -> row) (idx : nat) (rows : grid) :
  (forall i r, f i r = g i r) -> map_rows f idx rows = map_rows g idx rows.
Proof.
  intros H. revert idx. induction rows as [|r rows IH]; intros idx; cbn [map_rows].
  - reflexivity.
  - now rewrite H, IH.
Qed.

Lemma length_map_rows (f : nat -> row -> row) (idx : nat) (rows : grid) :
  length (map_rows f idx rows) = length rows.
Proof.
  revert idx. induction rows as [|r rows IH]; intros idx; cbn [map_rows length].
  - reflexivity.
  - now rewrite IH.
Qed.

Lemma nth_update_row (g : grid) (i j : nat) (f : row -> row) :
  nth i (update_row g j f) [] = if i =? j then f (nth i g []) else nth i g [].
Proof.
  revert g i. induction j as [|j IH]; intros g i.
  - destruct g as [|r g]; destruct i as [|i]; cbn [update_row nth Nat.eqb]; trivial.
    now destruct i.
  - destruct g as [|r g]; destruct i as [|i]; cbn [update_row nth Nat.eqb]; trivial.
    rewrite IH. now destruct i.
Qed.

Lemma cell_write_cell (g : grid) (row_no col : nat) (v : text) (i k : nat) :
  cell (nth i (write_cell g row_no col v) []) k
  = if (2 <=? row_no) && (i =? row_no - 2) && (k =? col) then v
    else cell (nth i g []) k.
Proof.
  unfold write_cell. destruct (row_no <? 2) eqn:E.
  - apply Nat.ltb_lt in E. destruct (2 <=? row_no) eqn:E'; [|reflexivity].
    apply Nat.leb_le in E'. lia.
  - apply Nat.ltb_ge in E. apply Nat.leb_le in E. rewrite E. cbn [andb].
    rewrite nth_update_row. destruct (i =? row_no - 2); [|reflexivity].
    rewrite cell_set_cell. reflexivity.
Qed.

Section Frames.

Import SheetManager VerificationWorkflow.

Variable partial_ratio : text -> text -> Q.
Variable token_sort_ratio : text -> text -> Q.
Variable dparse : text -> option datetime.
Variable show_score : Q -> text.

Let step1 := step1_match_and_suggest partial_ratio token_sort_ratio show_score.
Let step2 := step2_autofill_and_commit dparse.
Let suggest := suggest_cells partial_ratio token_sort_ratio show_score.

Lemma suggestion_same (master_names : list master) (t t' : ticket) :
  t_name t = t_name t' -> t_mode t = t_mode t' ->
  t_commit_status t = t_commit_status t' ->
  suggestion partial_ratio token_sort_ratio master_names t
  = suggestion partial_ratio token_sort_ratio master_names t'.
Proof. unfold suggestion. intros -> -> ->. reflexivity. Qed.

Lemma suggest_cells_cell (master_names : list master) (t : ticket) (r : row) (k : nat) :
  k <> 13 -> k <> 14 -> cell (suggest master_names t r) k = cell r k.
Proof.
  intros H13 H14. unfold suggest, suggest_cells.
  destruct (suggestion _ _ master_names t) as [[s b]|]; [|reflexivity].
  rewrite !cell_set_cell.
  apply Nat.eqb_neq in H13, H14. now rewrite H13, H14.
Qed.

Lemma suggest_cells_length (master_names : list master) (t : ticket) (r : row) :
  length r <= length (suggest master_names t r).
Proof.
  unfold suggest, suggest_cells.
  destruct (suggestion _ _ master_names t) as [[s b]|]; [|lia].
  rewrite !length_set_cell. lia.
Qed.

Lemma suggest_twice (master_names : list master) (i : nat) (r : row) :
  on_ticket (suggest master_names) i (on_ticket (suggest master_names) i r)
  = on_ticket (suggest master_names) i r.
Proof.
  unfold on_ticket. destruct (length r <? 8) eqn:E; [now rewrite E|].
  pose proof (suggest_cells_length master_names (ticket_of i r) r) as Hl.
  apply Nat.ltb_ge in E.
  assert (E' : (length (suggest master_names (ticket_of i r) r) <? 8) = false)
    by (apply Nat.ltb_ge; lia).
  rewrite E'.
  assert (Hs : suggestion partial_ratio token_sort_ratio master_names
                 (ticket_of i (suggest master_names (ticket_of i r) r))
               = suggestion partial_ratio token_sort_ratio master_names (ticket_of i r)).
  { apply suggestion_same; cbn [ticket_of t_name t_mode t_commit_status];
      apply suggest_cells_cell; discriminate. }
  unfold suggest, suggest_cells in *. rewrite Hs.
  destruct (suggestion _ _ master_names (ticket_of i r)) as [[s b]|]; [|reflexivity].
  apply row_ext.
  - rewrite !length_set_cell. lia.
  - intros k. rewrite !cell_set_cell.
    destruct (k =? 14); [reflexivity|]. now destruct (k =? 13).
Qed.

(** X12.  Step 1 can be run again at no cost: a second run, with nothing
    edited in between, leaves both sheets exactly as the first run left
    them. *)
Theorem step1_is_idempotent (st : sheets) : step1 (step1 st) = step1 st.
Proof.
  unfold step1. rewrite (step1_rows _ _ _ st).
  rewrite step1_rows. cbn [ticket_sheet master_sheet].
  unfold read_master_names. cbn [master_sheet].
  fold (read_master_names st). rewrite map_rows_compose. f_equal.
  apply map_rows_ext. intros i r. apply suggest_twice.
Qed.

Lemma autofill_cells_cell (t : ticket) (r : row) (k : nat) :
  k <> 15 -> cell (autofill_cells t r) k = cell r k.
Proof.
  intros H. rewrite autofill_cells_due. destruct (fill_due t); [|reflexivity].
  rewrite cell_set_cell. apply Nat.eqb_neq in H. now rewrite H.
Qed.

Lemma autofill_cells_approved (i : nat) (r : row) :
  (cell r 15 <> [] -> autofill_cells (ticket_of i r) r = r)
  /\ (cell (autofill_cells (ticket_of i r) r) 15 = cell r 15
      \/ cell (autofill_cells (ticket_of i r) r) 15 = cell r 13).
Proof.
  rewrite autofill_cells_due. unfold fill_due. cbn [ticket_of t_mode t_suggested t_approved].
  split.
  - intros H. destruct (cell r 15) as [|c a]; [congruence|].
    cbn [truthy negb andb]. now rewrite !andb_false_r.
  - destruct (_ && _); [right | now left].
    now rewrite cell_set_cell.
Qed.

Lemma status_cells_cell (master_names : list master) (t : ticket) (r : row) (k : nat) :
  k <> 16 -> cell (status_cells dparse master_names t r) k = cell r k.
Proof.
  intros H. unfold status_cells. apply Nat.eqb_neq in H.
  destruct (commit_row dparse master_names t); rewrite ?cell_set_cell, ?H; reflexivity.
Qed.

Lemma on_ticket_cell (act : ticket -> row -> row) (i : nat) (r : row) (k : nat) :
  (forall t, cell (act t r) k = cell r k) -> cell (on_ticket act i r) k = cell r k.
Proof. intros H. unfold on_ticket. now destruct (length r <? 8). Qed.

(** X13.  Step 1 writes nothing but the suggestion and the score: the
    Master sheet, the number of rows of the ticket sheet, and every cell
    of the ticket sheet outside the columns N and O are as they were. *)
Theorem step1_writes_columns_N_and_O_only (st : sheets) :
  master_sheet (step1 st) = master_sheet st
  /\ length (ticket_sheet (step1 st)) = length (ticket_sheet st)
  /\ forall i r,
       nth_error (ticket_sheet st) i = Some r ->
       exists r', nth_error (ticket_sheet (step1 st)) i = Some r'
                  /\ forall k, k <> 13 -> k <> 14 -> cell r' k = cell r k.
Proof.
  unfold step1. rewrite step1_rows. cbn [ticket_sheet master_sheet].
  split; [reflexivity|]. split; [apply length_map_rows|].
  intros i r H. rewrite nth_error_map_rows, H. cbn [option_map].
  eexists. split; [reflexivity|]. intros k H13 H14.
  apply on_ticket_cell. intros t. now apply suggest_cells_cell.
Qed.

(** X14.  Step 2 writes nothing in the ticket sheet but the approved name
    and the commit status, columns P and Q.  An approved name that is
    there is never overwritten: after the run the cell holds what it held,
    or, when it was empty, possibly the suggestion of column N. *)
Theorem step2_keeps_approved_names (st : sheets) :
  length (ticket_sheet (step2 st)) = length (ticket_sheet st)
  /\ forall i r,
       nth_error (ticket_sheet st) i = Some r ->
       exists r', nth_error (ticket_sheet (step2 st)) i = Some r'
                  /\ (forall k, k <> 15 -> k <> 16 -> cell r' k = cell r k)
                  /\ (cell r 15 <> [] -> cell r' 15 = cell r 15)
                  /\ (cell r' 15 = cell r 15 \/ cell r' 15 = cell r 13).
Proof.
  unfold step2. rewrite step2_rows. cbn [ticket_sheet].
  split; [now rewrite !length_map_rows|].
  intros i r H. rewrite map_rows_compose, nth_error_map_rows, H. cbn [option_map].
  eexists. split; [reflexivity|].
  assert (Hq : forall k, k <> 16 ->
            cell (on_ticket (status_cells dparse (read_master_names st)) (2 + i)
                    (on_ticket autofill_cells (2 + i) r)) k
            = cell (on_ticket autofill_cells (2 + i) r) k).
  { intros k Hk. apply on_ticket_cell. intros t. now apply status_cells_cell. }
  split; [|split].
  - intros k H15 H16. rewrite Hq by assumption.
    apply on_ticket_cell. intros t. now apply autofill_cells_cell.
  - intros Ha. rewrite Hq by discriminate. unfold on_ticket.
    destruct (length r <? 8); [reflexivity|].
    now rewrite (proj1 (autofill_cells_approved (2 + i) r) Ha).
  - rewrite Hq by discriminate. unfold on_ticket.
    destruct (length r <? 8); [now left|]. apply autofill_cells_approved.
Qed.

Lemma suggestion_error (master_names : list master) (t : ticket) :
  t_mode t = str "ERROR" ->
  suggestion partial_ratio token_sort_ratio master_names t = None.
Proof.
  intros H. unfold suggestion. rewrite H, text_eqb_refl.
  now destruct (text_eqb (t_commit_status t) COMMITTED).
Qed.

Lemma commit_row_error (master_names : list master) (t : ticket) :
  t_mode t = str "ERROR" -> commit_row dparse master_names t = Skipped.
Proof.
  intros H. unfold commit_row. rewrite H, text_eqb_refl. now rewrite orb_true_r.
Qed.

(** X16.  A row that the ingestion marked [ERROR] in its mode column is
    never matched, never auto-filled and never committed: step 1 and
    step 2 leave every cell of it as it is, and no commit is made from
    it, whatever the registry holds. *)
Theorem error_rows_are_left_alone (st : sheets) (i : nat) (r : row) :
  nth_error (ticket_sheet st) i = Some r -> cell r 4 = str "ERROR" ->
  nth_error (ticket_sheet (step1 st)) i = Some r
  /\ nth_error (ticket_sheet (step2 st)) i = Some r
  /\ forall master_names idx,
       commit_row dparse master_names (ticket_of idx r) = Skipped.
Proof.
  intros H He.
  assert (Hm : forall idx, t_mode (ticket_of idx r) = str "ERROR") by (intros; exact He).
  split; [|split].
  - unfold step1. rewrite step1_rows. cbn [ticket_sheet].
    rewrite nth_error_map_rows, H. cbn [option_map]. f_equal.
    unfold on_ticket, suggest_cells. destruct (length r <? 8); [reflexivity|].
    now rewrite suggestion_error.
  - unfold step2. rewrite step2_rows. cbn [ticket_sheet].
    rewrite map_rows_compose, nth_error_map_rows, H. cbn [option_map]. f_equal.
    assert (Ha : on_ticket autofill_cells (2 + i) r = r).
    { unfold on_ticket, autofill_cells. destruct (length r <? 8); [reflexivity|].
      now rewrite Hm, text_eqb_refl. }
    rewrite Ha. unfold on_ticket, status_cells. destruct (length r <? 8); [reflexivity|].
    now rewrite commit_row_error.
  - intros master_names idx. now apply commit_row_error.
Qed.

End Frames.

Lemma nth_write_cell_other (g : grid) (row_no col : nat) (v : text) (i : nat) :
  row_no <> i + 2 -> nth i (write_cell g row_no col v) [] = nth i g [].
Proof.
  intros H. unfold write_cell. destruct (row_no <? 2) eqn:E2; [reflexivity|].
  apply Nat.ltb_ge in E2.
  rewrite nth_update_row. destruct (i =? row_no - 2) eqn:E; [|reflexivity].
  apply Nat.eqb_eq in E. lia.
Qed.

Lemma updates_keep_cells (cols : list nat) (k i : nat)
    (updates : list SheetManager.range_update) :
  ~ In k cols ->
  Forall (fun u => In (col_index (SheetManager.u_column u)) cols) updates ->
  forall g,
    cell (nth i (fold_left SheetManager.apply_update updates g) []) k
    = cell (nth i g []) k.
Proof.
  intros Hk. induction 1 as [|u updates Hu _ IH]; intros g; cbn [fold_left].
  - reflexivity.
  - rewrite IH. unfold SheetManager.apply_update. rewrite cell_write_cell.
    destruct (k =? col_index (SheetManager.u_column u)) eqn:E.
    + apply Nat.eqb_eq in E. subst k. contradiction.
    + now rewrite andb_false_r.
Qed.

Lemma updates_keep_rows (i : nat) (updates : list SheetManager.range_update) :
  Forall (fun u => SheetManager.u_row u <> i + 2) updates ->
  forall g, nth i (fold_left SheetManager.apply_update updates g) [] = nth i g [].
Proof.
  induction 1 as [|u updates Hu _ IH]; intros g; cbn [fold_left].
  - reflexivity.
  - rewrite IH. unfold SheetManager.apply_update. now apply nth_write_cell_other.
Qed.

Section Registry.

Import SheetManager VerificationWorkflow.

Variable dparse : text -> option datetime.

Let step2 := step2_autofill_and_commit dparse.

Lemma commit_row_targets (master_names : list master) (t : ticket)
    (updates : list range_update) :
  commit_row dparse master_names t = Committed updates ->
  exists m,
    find_master master_names (t_approved t) = Some m
    /\ t_approved t <> []
    /\ length updates = 6
    /\ Forall (fun u => u_row u = m_row_no m
                        /\ In (col_index (u_column u)) travel_columns) updates.
Proof.
  unfold commit_row.
  destruct (t_approved t) as [|c a] eqn:Ea; [discriminate|]. cbn [truthy negb orb].
  destruct (text_eqb (t_mode t) (str "ERROR")); [discriminate|].
  destruct (text_eqb (t_commit_status t) COMMITTED); [discriminate|].
  destruct (find_master master_names (c :: a)) as [m|]; [|discriminate].
  intros H. exists m. split; [reflexivity|]. split; [discriminate|].
  destruct (DateHelper.is_departure_date dparse (t_journey_date t));
    injection H as <-; (split; [reflexivity|]);
    repeat (constructor; [split; [reflexivity | vm_compute; tauto]|]); constructor.
Qed.

Lemma in_master_entries (m : master) (idx : nat) (rows : grid) :
  In m (master_entries idx rows)
  <-> exists i r, nth_error rows i = Some r /\ strip (cell r 0) <> []
                  /\ m = master_of (idx + i) r.
Proof.
  revert idx. induction rows as [|r rows IH]; intros idx; cbn [master_entries].
  - split; [contradiction|]. intros [[|i] [r [H _]]]; discriminate.
  - rewrite in_app_iff, IH. split.
    + intros [H | [i [r' [Hn [Hs ->]]]]].
      * destruct (strip (cell r 0)) as [|c s] eqn:E; [contradiction|].
        destruct H as [<- | []]. exists 0, r. rewrite Nat.add_0_r. unfold master_of.
        rewrite E. repeat split. discriminate.
      * exists (S i), r'. now rewrite Nat.add_succ_r.
    + intros [[|i] [r' [Hn [Hs ->]]]]; cbn [nth_error] in Hn.
      * injection Hn as ->. left. destruct (strip (cell r' 0)) as [|c s] eqn:E;
          [congruence|]. left. rewrite Nat.add_0_r. unfold master_of. now rewrite E.
      * right. exists i, r'. now rewrite Nat.add_succ_r.
Qed.

Lemma find_master_entries (p : master -> bool) (idx : nat) (rows : grid) (m : master) :
  find p (master_entries idx rows) = Some m ->
  exists i r,
    nth_error rows i = Some r /\ strip (cell r 0) <> [] /\ m = master_of (idx + i) r
    /\ p m = true
    /\ forall j r', j < i -> nth_error rows j = Some r' -> strip (cell r' 0) <> [] ->
                    p (master_of (idx + j) r') = false.
Proof.
  revert idx. induction rows as [|r rows IH]; intros idx; cbn [master_entries];
    [discriminate|].
  destruct (strip (cell r 0)) as [|c s] eqn:E; cbn [truthy app find].
  - intros H. apply IH in H as (i & r' & Hn & Hs & -> & Hp & Hfirst).
    exists (S i), r'. rewrite Nat.add_succ_r. repeat split; trivial.
    intros [|j] r2 Hj Hn2 Hs2; cbn [nth_error] in Hn2.
    + injection Hn2 as <-. congruence.
    + rewrite Nat.add_succ_r. apply (Hfirst j r2); trivial. lia.
  - fold (master_of idx r) in *.
    assert (Em : Master (c :: s) (NameMatcher.normalize_name (c :: s)) idx
                        (cell r 2) (cell r 3) = master_of idx r)
      by (unfold master_of; now rewrite E).
    rewrite Em. destruct (p (master_of idx r)) eqn:Ep.
    + intros H. injection H as <-. exists 0, r. rewrite Nat.add_0_r.
      repeat split; trivial; [congruence|]. intros j r' Hj. lia.
    + intros H. apply IH in H as (i & r' & Hn & Hs & -> & Hp & Hfirst).
      exists (S i), r'. rewrite Nat.add_succ_r. repeat split; trivial.
      intros [|j] r2 Hj Hn2 Hs2; cbn [nth_error] in Hn2.
      * injection Hn2 as <-. now rewrite Nat.add_0_r.
      * rewrite Nat.add_succ_r. apply (Hfirst j r2); trivial. lia.
Qed.

Lemma step2_updates_targets (st : sheets) :
  Forall (fun u => (exists m, In m (read_master_names st) /\ u_row u = m_row_no m)
                   /\ In (col_index (u_column u)) travel_columns)
         (step2_master_updates dparse st).
Proof.
  unfold step2_master_updates. rewrite commit_loop_spec. cbn [fst].
  apply Forall_forall. intros u Hu. apply in_flat_map in Hu as [t [_ Hu]].
  destruct (commit_row dparse (read_master_names st) t) as [|s|ups] eqn:E;
    cbn [updates_of] in Hu; try contradiction.
  apply commit_row_targets in E as (m & Hf & _ & _ & Hall).
  rewrite Forall_forall in Hall. destruct (Hall u Hu) as [Hr Hc].
  split; [|exact Hc]. exists m. split; [|exact Hr].
  unfold find_master in Hf. now apply find_some in Hf.
Qed.

(** X15.  What step 2 writes in the Master sheet lies in the travel
    columns, I to N and AE to AJ, of rows that hold a guest: every other
    cell is as it was, a row that holds no guest name is as it was, and
    the guest list read from the sheet is the same after the run. *)
Theorem step2_writes_travel_cells_of_guest_rows (st : sheets) :
  read_master_names (step2 st) = read_master_names st
  /\ (forall i k,
        ~ 8 <= k <= 13 -> ~ 30 <= k <= 35 ->
        cell (nth i (master_sheet (step2 st)) []) k = cell (nth i (master_sheet st) []) k)
  /\ (forall i,
        (forall m, In m (read_master_names st) -> m_row_no m <> i + 2) ->
        nth i (master_sheet (step2 st)) [] = nth i (master_sheet st) []).
Proof.
  unfold step2. rewrite step2_rows. cbn [master_sheet].
  pose proof (step2_updates_targets st) as Ht. split; [|split].
  - unfold read_master_names. cbn [master_sheet].
    apply master_entries_updates, step2_updates_columns.
  - intros i k H1 H2. apply (updates_keep_cells travel_columns).
    + unfold travel_columns. cbn [In]. lia.
    + eapply Forall_impl; [|exact Ht]. intros u [_ H]. exact H.
  - intros i Hi. apply updates_keep_rows.
    eapply Forall_impl; [|exact Ht]. intros u [[m [Hin Hr]] _]. rewrite Hr.
    now apply Hi.
Qed.

(** X18.  A commit goes to the row of the guest: the six cells it
    writes all lie in the Master row of the first guest, from the top of
    the sheet, whose name with the whitespace around it removed equals
    the approved name, letter case apart. *)
Theorem commit_writes_the_row_of_the_first_guest_of_that_name
    (st : sheets) (t : ticket) (updates : list range_update) :
  commit_row dparse (read_master_names st) t = Committed updates ->
  exists i r,
    nth_error (master_sheet st) i = Some r
    /\ upper (strip (cell r 0)) = upper (t_approved t)
    /\ (forall j r', j < i -> nth_error (master_sheet st) j = Some r' ->
                     upper (strip (cell r' 0)) <> upper (t_approved t))
    /\ length updates = 6
    /\ Forall (fun u => u_row u = i + 2) updates.
Proof.
  intros H. apply commit_row_targets in H as (m & Hf & Ha & Hlen & Hall).
  unfold find_master, read_master_names in Hf.
  apply find_master_entries in Hf as (i & r & Hn & Hs & -> & Hp & Hfirst).
  exists i, r. cbn [raw master_of] in Hp. apply text_eqb_eq in Hp.
  split; [exact Hn|]. split; [exact Hp|]. split; [|split; [exact Hlen|]].
  - intros j r' Hj Hn' Heq.
    destruct (strip (cell r' 0)) as [|c s] eqn:E.
    + destruct (t_approved t); [congruence | discriminate].
    + assert (Hs' : strip (cell r' 0) <> []) by (rewrite E; discriminate).
      specialize (Hfirst j r' Hj Hn' Hs'). cbn [raw master_of] in Hfirst.
      rewrite E in Hfirst. apply text_eqb_neq in Hfirst. contradiction.
  - eapply Forall_impl; [|exact Hall]. intros u [Hr _]. rewrite Hr.
    cbn [m_row_no master_of]. lia.
Qed.

(** X17.  A row that is due for a commit and whose approved name is the
    name of no guest, letter case apart, sends nothing to the Master
    sheet: its status becomes [ERROR: '<name>' not found], and this is
    the only way to that status.  The status does not retire the row: a
    later run finds it again, with the same outcome as long as the name
    stays. *)
Theorem unknown_approved_name_is_reported (master_names : list master) (t : ticket) :
  t_approved t <> [] -> t_mode t <> str "ERROR" -> t_commit_status t <> COMMITTED ->
  let status := str "ERROR: '" ++ t_approved t ++ str "' not found" in
  ((forall m, In m master_names -> upper (raw m) <> upper (t_approved t))
   <-> commit_row dparse master_names t = NotFound status)
  /\ (commit_row dparse master_names t = NotFound status ->
      commit_row dparse master_names (with_status t status) = NotFound status).
Proof.
  intros Ha He Hc status.
  assert (Hrow : forall t', t_approved t' = t_approved t -> t_mode t' = t_mode t ->
                   t_commit_status t' <> COMMITTED ->
                   find_master master_names (t_approved t) = None ->
                   commit_row dparse master_names t' = NotFound status).
  { intros t' Ea Em Hc' Hf. unfold commit_row. rewrite Ea, Em, Hf.
    apply truthy_nonempty in Ha. apply text_eqb_neq in He, Hc'.
    now rewrite Ha, He, Hc'. }
  assert (Hnone : find_master master_names (t_approved t) = None
                  <-> forall m, In m master_names -> upper (raw m) <> upper (t_approved t)).
  { unfold find_master. split.
    - intros Hf m Hin. apply text_eqb_neq. now apply (find_none _ _ Hf).
    - intros Hall. destruct (find _ master_names) as [m|] eqn:E; [|reflexivity].
      apply find_some in E as [Hin Hp]. apply text_eqb_eq in Hp.
      now apply Hall in Hin. }
  split; [split|].
  - intros Hall. apply Hrow; trivial. now apply Hnone.
  - intros H. apply Hnone. unfold commit_row in H.
    apply truthy_nonempty in Ha. apply text_eqb_neq in He, Hc.
    rewrite Ha, He, Hc in H. cbn [negb orb] in H.
    destruct (find_master master_names (t_approved t)); [|reflexivity].
    now destruct (DateHelper.is_departure_date dparse (t_journey_date t)).
  - intros H. apply Hrow; try reflexivity.
    + cbn [with_status t_commit_status]. apply text_eqb_neq.
      unfold status. vm_compute. reflexivity.
    + unfold commit_row in H.
      apply truthy_nonempty in Ha. apply text_eqb_neq in He, Hc.
      rewrite Ha, He, Hc in H. cbn [negb orb] in H.
      destruct (find_master master_names (t_approved t)); [|reflexivity].
      now destruct (DateHelper.is_departure_date dparse (t_journey_date t)).
Qed.

End Registry.

(** ** From the ingestion to the reconciliation *)

Lemma ticket_entries_map {A : Type} (f : A -> row) (l : list A) (idx i : nat) :
  (forall x, 8 <= length (f x)) ->
  nth_error (SheetManager.ticket_entries idx (map f l)) i
  = option_map (fun x => SheetManager.ticket_of (idx + i) (f x)) (nth_error l i).
Proof.
  intros H. revert idx i. induction l as [|x l IH]; intros idx i;
    cbn [map SheetManager.ticket_entries].
  - now destruct i.
  - specialize (H x) as Hx. apply Nat.ltb_ge in Hx. rewrite Hx. cbn [app].
    destruct i as [|i]; cbn [nth_error option_map].
    + now rewrite Nat.add_0_r.
    + rewrite IH. now rewrite Nat.add_succ_r.
Qed.

Lemma length_ticket_entries_map {A : Type} (f : A -> row) (l : list A) (idx : nat) :
  (forall x, 8 <= length (f x)) ->
  length (SheetManager.ticket_entries idx (map f l)) = length l.
Proof.
  intros H. revert idx. induction l as [|x l IH]; intros idx;
    cbn [map SheetManager.ticket_entries]; [reflexivity|].
  specialize (H x) as Hx. apply Nat.ltb_ge in Hx. rewrite Hx. cbn [app length].
  now rewrite IH.
Qed.

Section Appended.

Import GoogleSheetsManager SheetManager.

Variable append_ok : list row -> bool.

(** X5.  What the ingestion writes for a train ticket is what the
    reconciliation reads.  A train record without error and with
    passengers is sent as one request of one row per passenger; read from
    the sheet, where the first of them stands in row [idx], these rows
    give one ticket per passenger, none passed over, with the dates, the
    times, the seat as coach/seat/berth, the details, the name, the train
    number and name, the status, the PNR and the filename under the
    fields of the same names, and with no suggestion, score, approved
    name or commit status yet. *)
Theorem train_rows_read_back (requests : list (list row)) (td : ticket_data) (idx : nat) :
  is_error td = false -> td_mode td = MODE_TRAIN -> td_passengers td <> [] ->
  exists rows,
    append_ticket_data append_ok requests td = (requests ++ [rows], append_ok rows)
    /\ length (ticket_entries idx rows) = length (td_passengers td)
    /\ forall i pax,
         nth_error (td_passengers td) i = Some pax ->
         nth_error (ticket_entries idx rows) i
         = Some (Ticket (idx + i) (td_journey_date td) (td_departure_time td)
                   (td_arrival_date td) (td_arrival_time td) (str "TRAIN")
                   (coach pax ++ str "/" ++ seat pax ++ str "/" ++ berth pax)
                   (td_details td) (name pax) (td_train_number td) (td_train_name td)
                   (status pax) (td_pnr td) (td_filename td) [] [] [] []).
Proof.
  intros He Hm Hp. exists (map (train_row td) (td_passengers td)).
  split; [|split].
  - unfold append_ticket_data, _append_train. rewrite He, Hm.
    destruct (td_passengers td); [congruence | reflexivity].
  - apply length_ticket_entries_map. intros pax. cbn. lia.
  - intros i pax H. rewrite ticket_entries_map by (intros x; cbn; lia).
    now rewrite H.
Qed.

(** X6.  The same for a flight ticket: one row per passenger, each read
    back as one ticket.  The flight date comes back as the journey date,
    the arrival date is empty, the flight number and the airline come
    back as the train number and the train name, and the route as the
    status. *)
Theorem flight_rows_read_back (requests : list (list row)) (td : ticket_data) (idx : nat) :
  is_error td = false -> td_mode td = MODE_FLIGHT -> td_passengers td <> [] ->
  exists rows,
    append_ticket_data append_ok requests td = (requests ++ [rows], append_ok rows)
    /\ length (ticket_entries idx rows) = length (td_passengers td)
    /\ forall i pax,
         nth_error (td_passengers td) i = Some pax ->
         nth_error (ticket_entries idx rows) i
         = Some (Ticket (idx + i) (td_date td) (td_departure_time td) []
                   (td_arrival_time td) (str "FLIGHT") (seat pax) (td_details td)
                   (name pax) (td_flight_number td) (td_airline td) (td_route td)
                   (td_pnr td) (td_filename td) [] [] [] []).
Proof.
  intros He Hm Hp. exists (map (flight_row td) (td_passengers td)).
  split; [|split].
  - unfold append_ticket_data, _append_flight. rewrite He, Hm.
    destruct (td_passengers td); [congruence | reflexivity].
  - apply length_ticket_entries_map. intros pax. cbn. lia.
  - intros i pax H. rewrite ticket_entries_map by (intros x; cbn; lia).
    now rewrite H.
Qed.

(** X7.  A record with an error is sent as one row, whatever its mode
    and its passengers: ERROR in the mode column, the message after
    [ERROR: ] in column K, the PNR and the filename, and nothing else.
    The reconciliation reads the row as a ticket and leaves it alone: no
    suggestion is computed for it, no approved name is filled in, and no
    commit is made from it. *)
Theorem error_record_appends_one_inert_row
    (requests : list (list row)) (td : ticket_data) (msg : text) :
  td_error td = Some msg -> msg <> [] ->
  let row :=
    [[]; []; []; []; str "ERROR"; []; []; []; []; []; str "ERROR: " ++ msg;
     td_pnr td; td_filename td] in
  append_ticket_data append_ok requests td = (requests ++ [[row]], append_ok [row])
  /\ forall idx,
       ticket_entries idx [row] = [ticket_of idx row]
       /\ (forall partial_ratio token_sort_ratio master_names,
             VerificationWorkflow.suggestion partial_ratio token_sort_ratio master_names
               (ticket_of idx row) = None)
       /\ (forall st, VerificationWorkflow.autofill_row st (ticket_of idx row) = st)
       /\ (forall dparse master_names,
             VerificationWorkflow.commit_row dparse master_names (ticket_of idx row)
             = VerificationWorkflow.Skipped).
Proof.
  intros He Hmsg row. split.
  - unfold append_ticket_data, is_error, _append_error_row. rewrite He.
    apply truthy_nonempty in Hmsg. now rewrite Hmsg.
  - intros idx. split; [reflexivity|]. split; [|split].
    + intros. now apply suggestion_error.
    + intros st. unfold VerificationWorkflow.autofill_row.
      cbn [ticket_of t_mode cell nth row]. now rewrite text_eqb_refl.
    + intros. now apply commit_row_error.
Qed.

End Appended.

(** ** The rows of a processed document *)

Lemma merge_passengers_named (names : list text) (idx : nat) (l : list api_passenger) :
  Forall (fun n => n <> []) names ->
  Forall (fun p => name p <> []) (TrainPNRAPI.merge_passengers names idx l).
Proof.
  intros Hn. apply Forall_forall. intros p Hp.
  apply In_nth_error in Hp as [i Hi]. apply name_merge_passengers in Hi. rewrite Hi.
  destruct (nth_error names (idx + i)) as [n|] eqn:E.
  - rewrite Forall_forall in Hn. apply Hn. now apply nth_error_In in E.
  - discriminate.
Qed.

Section Document.

Variable check_train_pnr : text -> option api_response.
Variable dparse : text -> option datetime.
Variable append_ok : list row -> bool.

(** The record of a processed document bears the filename, and either
    it has an error, or it is a FLIGHT record with passengers, or a TRAIN
    record; its passengers, if any, have names. *)
Lemma process_ticket_record (ocr : result text) (filename : text) :
  let td := TicketProcessor.process_ticket check_train_pnr dparse ocr filename in
  td_filename td = filename
  /\ ((exists msg, td_error td = Some msg /\ msg <> [])
      \/ (td_error td = None
          /\ (td_mode td = MODE_TRAIN \/ td_mode td = MODE_FLIGHT /\ td_passengers td <> [])
          /\ Forall (fun p => name p <> []) (td_passengers td))).
Proof.
  assert (Herr : forall e pnr, e <> [] ->
            let td := error_record e filename pnr in
            td_filename td = filename
            /\ ((exists msg, td_error td = Some msg /\ msg <> [])
                \/ (td_error td = None
                    /\ (td_mode td = MODE_TRAIN
                        \/ td_mode td = MODE_FLIGHT /\ td_passengers td <> [])
                    /\ Forall (fun p => name p <> []) (td_passengers td)))).
  { intros e pnr He. split; [reflexivity|]. left. now exists e. }
  unfold TicketProcessor.process_ticket.
  destruct ocr as [txt|e]; cbn [bind]; [|apply Herr; discriminate].
  destruct (PNRExtractor.detect_ticket_type txt); [| |apply Herr; discriminate].
  - unfold TicketProcessor.process_train.
    destruct (PNRExtractor.extract_pnr_from_text txt) as [[|c p]|];
      try (apply Herr; discriminate).
    destruct (check_train_pnr (c :: p)) as [resp|]; [|apply Herr; discriminate].
    unfold TrainPNRAPI.parse_train_response.
    destruct (negb (success resp)); [split; [reflexivity|]; left; eexists; split;
                                       [reflexivity | discriminate]|].
    destruct (data resp) as [d|]; [|split; [reflexivity|]; left; eexists; split;
                                     [reflexivity | discriminate]].
    destruct (TrainPNRAPI.date_and_time dparse (dateOfJourney d)).
    destruct (TrainPNRAPI.date_and_time dparse (arrivalDate d)).
    split; [reflexivity|]. right. split; [reflexivity|]. split; [now left|].
    cbn [TicketProcessor.set_filename td_passengers].
    apply merge_passengers_named.
    destruct (extract_train_passengers_clean txt) as [_ H].
    eapply Forall_impl; [|exact H]. now intros n [Hne _].
  - unfold TicketProcessor.process_flight.
    destruct (FlightExtractor.extract_flight_details txt) as [fd|e] eqn:E; cbn [bind];
      [|apply Herr; discriminate].
    apply flight_details_passengers in E.
    assert (Hall : Forall (fun fp => PNRExtractor.fp_name fp <> [])
                          (FlightExtractor.passengers fd)).
    { rewrite E. destruct (extract_flight_passengers_valid txt) as [_ H].
      eapply Forall_impl; [|exact H]. intros fp [_ Hv] E0.
      apply valid_flight_name in Hv as [Hl _]. rewrite E0 in Hl. cbn in Hl. lia. }
    destruct (FlightExtractor.passengers fd) as [|p l];
      [apply Herr; discriminate|].
    split; [reflexivity|]. right. split; [reflexivity|]. split; [right; split;
                                                                 [reflexivity | discriminate]|].
    cbn [td_passengers]. apply Forall_forall. intros q Hq.
    apply in_map_iff in Hq as [fp [<- Hfp]]. rewrite Forall_forall in Hall.
    now apply Hall.
Qed.

(** X8.  What reaches the sheet for a processed document.  Nothing is
    sent in one case only: a train record without error whose lookup
    lists no passenger.  Otherwise one request is sent; each of its rows
    has 13 cells, columns A to M, with the filename in the last.  For a
    record with an error it is a single row with ERROR as mode and no
    name; for a record without error there is one row per passenger, with
    TRAIN or FLIGHT as mode and a name that is not empty. *)
Theorem appended_rows_of_a_document
    (ocr : result text) (filename : text) (requests : list (list row)) :
  let td := TicketProcessor.process_ticket check_train_pnr dparse ocr filename in
  let out := GoogleSheetsManager.append_ticket_data append_ok requests td in
  (out = (requests, false)
   /\ td_error td = None /\ td_mode td = MODE_TRAIN /\ td_passengers td = [])
  \/ exists rows,
       out = (requests ++ [rows], append_ok rows)
       /\ Forall (fun r => length r = 13 /\ cell r 12 = filename) rows
       /\ ((is_error td = true
            /\ exists r, rows = [r] /\ cell r 4 = str "ERROR" /\ cell r 7 = [])
           \/ (is_error td = false
               /\ rows <> [] /\ length rows = length (td_passengers td)
               /\ Forall (fun r => (cell r 4 = str "TRAIN" \/ cell r 4 = str "FLIGHT")
                                   /\ cell r 7 <> []) rows)).
Proof.
  intros td out. subst out.
  destruct (process_ticket_record ocr filename) as [Hf Hcases]. fold td in Hf, Hcases.
  unfold GoogleSheetsManager.append_ticket_data, is_error.
  destruct Hcases as [[msg [He Hmsg]] | (He & Hmode & Hnames)]; rewrite He.
  - apply truthy_nonempty in Hmsg. rewrite Hmsg. right.
    unfold GoogleSheetsManager._append_error_row, GoogleSheetsManager._append_rows.
    rewrite He. eexists. split; [reflexivity|]. split.
    + constructor; [|constructor]. split; [reflexivity | exact Hf].
    + left. split; [reflexivity|]. eexists. split; [reflexivity|]. now split.
  - destruct Hmode as [Hm | [Hm Hp]]; rewrite Hm.
    + unfold GoogleSheetsManager._append_train.
      destruct (td_passengers td) as [|p l] eqn:Ep; [now left|]. right.
      unfold GoogleSheetsManager._append_rows. eexists. split; [reflexivity|].
      split; [|right; split; [reflexivity|]; split; [discriminate|]; split].
      * apply Forall_forall. intros r Hr. apply in_map_iff in Hr as [q [<- _]].
        split; [reflexivity | exact Hf].
      * now rewrite length_map.
      * apply Forall_forall. intros r Hr. apply in_map_iff in Hr as [q [<- Hq]].
        split; [now left|]. rewrite Forall_forall in Hnames. now apply Hnames.
    + unfold GoogleSheetsManager._append_flight.
      destruct (td_passengers td) as [|p l] eqn:Ep; [congruence|]. right.
      unfold GoogleSheetsManager._append_rows. eexists. split; [reflexivity|].
      split; [|right; split; [reflexivity|]; split; [discriminate|]; split].
      * apply Forall_forall. intros r Hr. apply in_map_iff in Hr as [q [<- _]].
        split; [reflexivity | exact Hf].
      * now rewrite length_map.
      * apply Forall_forall. intros r Hr. apply in_map_iff in Hr as [q [<- Hq]].
        split; [now right|]. rewrite Forall_forall in Hnames. now apply Hnames.
Qed.

End Document.

Section Lookup.

Variable check_train_pnr : text -> option api_response.
Variable dparse : text -> option datetime.
Variable append_ok : list row -> bool.

(** X9.  A lookup that answers, but without success or without data,
    gives an error record that has lost the PNR read from the ticket:
    the record says [API failed] or [No data], its PNR is [UNKNOWN], and
    so is the PNR of the error row sent to the sheet.  (A lookup that
    does not answer at all keeps the PNR.) *)
Theorem unsuccessful_lookup_loses_the_pnr
    (txt filename c_p : text) (response : api_response) (requests : list (list row)) :
  PNRExtractor.detect_ticket_type txt = TRAIN ->
  PNRExtractor.extract_pnr_from_text txt = Some c_p -> c_p <> [] ->
  check_train_pnr c_p = Some response ->
  success response = false \/ data response = None ->
  let td := TicketProcessor.process_ticket check_train_pnr dparse (Ok txt) filename in
  let msg := if success response then str "No data" else str "API failed" in
  td_error td = Some msg /\ td_pnr td = str "UNKNOWN" /\ td_passengers td = []
  /\ td_filename td = filename
  /\ GoogleSheetsManager.append_ticket_data append_ok requests td
     = (requests
        ++ [[[[]; []; []; []; str "ERROR"; []; []; []; []; []; str "ERROR: " ++ msg;
              str "UNKNOWN"; filename]]],
        append_ok [[[]; []; []; []; str "ERROR"; []; []; []; []; [];
                    str "ERROR: " ++ msg; str "UNKNOWN"; filename]]).
Proof.
  intros Hd Hp Hne Hc Hfail td msg.
  assert (Htd : td = TicketProcessor.set_filename filename (TrainPNRAPI.failure msg)).
  { unfold td, TicketProcessor.process_ticket. cbn [bind]. rewrite Hd.
    unfold TicketProcessor.process_train. rewrite Hp.
    destruct c_p as [|c p]; [congruence|]. rewrite Hc.
    unfold TrainPNRAPI.parse_train_response, msg.
    destruct (success response); cbn [negb]; [|reflexivity].
    destruct Hfail as [Hs | Hs]; [discriminate|]. now rewrite Hs. }
  rewrite Htd. cbn [TicketProcessor.set_filename TrainPNRAPI.failure td_error td_pnr
                    td_passengers td_filename td_mode].
  repeat split.
  unfold GoogleSheetsManager.append_ticket_data, is_error.
  cbn [TicketProcessor.set_filename TrainPNRAPI.failure td_error].
  assert (Hm : truthy msg = true) by (unfold msg; now destruct (success response)).
  now rewrite Hm.
Qed.

End Lookup.

(** ** A run of the ingestion *)

Lemma append_requests (append_ok : list row -> bool) (requests : list (list row))
    (td : ticket_data) :
  fst (GoogleSheetsManager.append_ticket_data append_ok requests td)
  = requests ++ fst (GoogleSheetsManager.append_ticket_data append_ok [] td).
Proof.
  unfold GoogleSheetsManager.append_ticket_data, GoogleSheetsManager._append_error_row,
    GoogleSheetsManager._append_train, GoogleSheetsManager._append_flight,
    GoogleSheetsManager._append_rows.
  destruct (is_error td); [reflexivity|].
  destruct (td_mode td); cbn [fst]; try (now rewrite app_nil_r);
    destruct (td_passengers td); cbn [fst]; now rewrite ?app_nil_r.
Qed.

Lemma append_requests_short (append_ok : list row -> bool) (td : ticket_data) :
  length (fst (GoogleSheetsManager.append_ticket_data append_ok [] td)) <= 1.
Proof.
  unfold GoogleSheetsManager.append_ticket_data, GoogleSheetsManager._append_error_row,
    GoogleSheetsManager._append_train, GoogleSheetsManager._append_flight,
    GoogleSheetsManager._append_rows.
  destruct (is_error td); [cbn; lia|].
  destruct (td_mode td); cbn [fst length]; try lia;
    destruct (td_passengers td); cbn; lia.
Qed.

Section Ingestion.

Import WeddingTicketAutomation.

Variable file_bytes : Type.
Variable download_file : text -> result file_bytes.
Variable read_text : file_bytes -> text -> text -> result text.
Variable check_train_pnr : text -> option api_response.
Variable dparse : text -> option datetime.
Variable PROCESSED_FOLDER_ID : option text.

Let run append_ok :=
  WeddingTicketAutomation.run file_bytes download_file read_text check_train_pnr dparse
    append_ok PROCESSED_FOLDER_ID.
Let run_file append_ok :=
  WeddingTicketAutomation.run_file file_bytes download_file read_text check_train_pnr
    dparse append_ok PROCESSED_FOLDER_ID.
Let passed := file_done file_bytes download_file read_text check_train_pnr dparse.
Let sent_for :=
  file_requests file_bytes download_file read_text check_train_pnr dparse.

Lemma run_file_step (append_ok : list row -> bool) (acc : tally) (f : file_meta) :
  let r := run_file append_ok acc f in
  n_success r = n_success acc + (if passed f then 1 else 0)
  /\ n_errors r = n_errors acc + (if passed f then 0 else 1)
  /\ length (error_files r) = length (error_files acc) + (if passed f then 0 else 1)
  /\ moved r = moved acc
               ++ (if passed f && move_wanted PROCESSED_FOLDER_ID then [f_id f] else [])
  /\ requests r = requests acc ++ sent_for append_ok f.
Proof.
  unfold run_file, WeddingTicketAutomation.run_file, passed, sent_for,
    file_done, file_requests, file_record, is_error.
  destruct (download_file (f_id f)) as [content|e]; cbn zeta.
  - set (td := TicketProcessor.process_ticket _ _ _ _).
    rewrite (append_requests append_ok (requests acc) td).
    destruct (td_error td) as [[|c e]|]; cbn [truthy negb andb n_success n_errors
                                               error_files requests moved];
      rewrite ?length_app, ?app_nil_r; cbn [length];
      repeat split; trivial; now destruct (move_wanted PROCESSED_FOLDER_ID);
      rewrite ?app_nil_r.
  - cbn [n_success n_errors error_files requests moved andb].
    rewrite ?length_app, ?app_nil_r. cbn [length]. repeat split; trivial.
Qed.

Lemma run_from (append_ok : list row -> bool) (files : list file_meta) (acc : tally) :
  let r := fold_left (run_file append_ok) files acc in
  n_success r = n_success acc + length (filter passed files)
  /\ n_errors r + length (filter passed files) = n_errors acc + length files
  /\ length (error_files r) + length (filter passed files)
     = length (error_files acc) + length files
  /\ moved r = moved acc
               ++ (if move_wanted PROCESSED_FOLDER_ID
                   then map f_id (filter passed files) else [])
  /\ requests r = requests acc ++ flat_map (sent_for append_ok) files.
Proof.
  revert acc. induction files as [|f files IH]; intros acc; cbn [fold_left].
  - cbn [filter length map flat_map]. rewrite !app_nil_r.
    destruct (move_wanted PROCESSED_FOLDER_ID); rewrite ?app_nil_r; repeat split; lia.
  - destruct (IH (run_file append_ok acc f)) as (H1 & H2 & H3 & H4 & H5).
    destruct (run_file_step append_ok acc f) as (S1 & S2 & S3 & S4 & S5).
    cbn zeta in *. rewrite H1, H4, H5, S1, S4, S5. rewrite S2 in H2. rewrite S3 in H3.
    cbn [filter flat_map length]. destruct (passed f); cbn [andb length map].
    + repeat split; try lia.
      * destruct (move_wanted PROCESSED_FOLDER_ID); cbn [map];
          now rewrite <- ?app_assoc, ?app_nil_r.
      * now rewrite <- app_assoc.
    + repeat split; try lia.
      * now rewrite app_nil_r.
      * now rewrite <- app_assoc.
Qed.

(** X10.  A run counts every file of the folder once, as a success or
    as an error: the successes are the files that were downloaded and
    whose record has no error, all other files are errors, and the error
    report has one line per error. *)
Theorem run_counts_every_file_once (append_ok : list row -> bool)
    (files : list file_meta) :
  let r := run append_ok files in
  n_success r = length (filter passed files)
  /\ n_success r + n_errors r = length files
  /\ length (error_files r) = n_errors r.
Proof.
  destruct (run_from append_ok files (Tally 0 0 [] [] [])) as (H1 & H2 & H3 & _).
  cbn zeta in *. cbn [n_success n_errors error_files length] in *.
  unfold run, WeddingTicketAutomation.run. fold (run_file append_ok).
  repeat split; lia.
Qed.

(** X11.  The files that a run hands to [move_file] are the files that
    were downloaded and whose record has no error, in the order of the
    folder, and none at all when [PROCESSED_FOLDER_ID] is not set or has
    five characters or fewer: a file whose processing failed is never
    moved.  The sheet receives, file by file, the request of the record,
    at most one per file, and nothing for a file that could not be
    downloaded.  Whether the sheet accepted a request has no bearing on
    the count and on the moves. *)
Theorem run_moves_the_files_without_error (append_ok : list row -> bool)
    (files : list file_meta) :
  let r := run append_ok files in
  moved r = (if move_wanted PROCESSED_FOLDER_ID
             then map f_id (filter passed files) else [])
  /\ requests r = flat_map (sent_for append_ok) files
  /\ length (requests r) <= length files
  /\ forall append_ok',
       moved (run append_ok' files) = moved r
       /\ n_success (run append_ok' files) = n_success r
       /\ n_errors (run append_ok' files) = n_errors r.
Proof.
  assert (H : forall ok,
            moved (run ok files)
            = (if move_wanted PROCESSED_FOLDER_ID
               then map f_id (filter passed files) else [])
            /\ requests (run ok files) = flat_map (sent_for ok) files
            /\ n_success (run ok files) = length (filter passed files)
            /\ n_errors (run ok files) + length (filter passed files) = length files).
  { intros ok.
    destruct (run_from ok files (Tally 0 0 [] [] [])) as (H1 & H2 & _ & H4 & H5).
    unfold run, WeddingTicketAutomation.run. fold (run_file ok).
    cbn zeta in *. cbn [n_success n_errors moved requests app] in *.
    repeat split; trivial. }
  cbn zeta. destruct (H append_ok) as (Hm & Hr & Hs & He).
  split; [exact Hm|]. split; [exact Hr|]. split.
  - rewrite Hr. clear. induction files as [|f files IH]; cbn [flat_map length]; [lia|].
    rewrite length_app.
    assert (length (sent_for append_ok f) <= 1); [|lia].
    unfold sent_for, file_requests.
    destruct (file_record _ _ _ _ _ f); [apply append_requests_short | cbn; lia].
  - intros ok'. destruct (H ok') as (Hm' & _ & Hs' & He').
    rewrite Hm', Hm, Hs', Hs. repeat split. lia.
Qed.

End Ingestion.

Section Unattended.

Import SheetManager VerificationWorkflow.

Variable partial_ratio : text -> text -> Q.
Variable token_sort_ratio : text -> text -> Q.
Variable dparse : text -> option datetime.
Variable show_score : Q -> text.

Let step1 := step1_match_and_suggest partial_ratio token_sort_ratio show_score.
Let step2 := step2_autofill_and_commit dparse.

(** A suggestion that is neither empty nor flagged is the name of a guest
    of the registry. *)
Lemma suggestion_is_a_guest (master_names : list master) (t : ticket) (s : text) (b : Q) :
  suggestion partial_ratio token_sort_ratio master_names t = Some (s, b) ->
  s <> [] -> py_in (str "DUPLICATE") s = false ->
  t_commit_status t <> COMMITTED /\ t_mode t <> str "ERROR"
  /\ exists m, In m master_names /\ raw m = s.
Proof.
  unfold suggestion.
  destruct (text_eqb (t_commit_status t) COMMITTED) eqn:Ec; [discriminate|].
  destruct (text_eqb (t_mode t) (str "ERROR")) eqn:Ee; [discriminate|].
  destruct (truthy (t_name t)) eqn:En; [|discriminate]. cbn [negb].
  apply text_eqb_neq in Ec, Ee. apply truthy_nonempty in En.
  pose proof (match_against_master_candidates partial_ratio token_sort_ratio
                (t_name t) master_names En) as Hm.
  destruct (NameMatcher.match_against_master _ _ _ _) as [matches best].
  cbn [fst] in Hm. intros H Hs Hdup. split; [exact Ec|]. split; [exact Ee|].
  assert (Hin : forall c, In c matches -> In (cand c) master_names).
  { intros c Hc. rewrite Hm in Hc. apply (Permutation_in _ (sort_desc_perm _)) in Hc.
    apply in_map_iff in Hc as [m [<- Hin]]. now apply filter_In in Hin. }
  destruct matches as [|m0 [|m1 more]].
  - injection H as <- _. congruence.
  - injection H as <- _. exists (cand m0). split; [|reflexivity]. apply Hin. now left.
  - destruct (Qle_bool (score m0 - score m1) 3); injection H as <- _.
    + vm_compute in Hdup. discriminate.
    + exists (cand m0). split; [|reflexivity]. apply Hin. now left.
Qed.

(** X19.  A passenger matched to one guest is committed with no manual
    action.  When step 1 has a suggestion for a row that is neither empty
    nor flagged as a duplicate, and the row has no approved name, then
    after step 1 and step 2 the row holds the suggestion in column N, the
    same name as the approved name in column P, and COMMITTED in column
    Q. *)
Theorem unique_match_is_committed_unattended
    (st : sheets) (i : nat) (r : row) (s : text) (b : Q) :
  nth_error (ticket_sheet st) i = Some r -> 8 <= length r -> cell r 15 = [] ->
  suggestion partial_ratio token_sort_ratio (read_master_names st) (ticket_of (2 + i) r)
  = Some (s, b) ->
  s <> [] -> py_in (str "DUPLICATE") s = false ->
  exists r',
    nth_error (ticket_sheet (step2 (step1 st))) i = Some r'
    /\ cell r' 13 = s /\ cell r' 15 = s /\ cell r' 16 = COMMITTED.
Proof.
  intros Hn Hl Ha Hs Hne Hdup.
  destruct (suggestion_is_a_guest _ _ _ _ Hs Hne Hdup) as (Hc & He & m & Hin & Hraw).
  cbn [ticket_of t_commit_status t_mode] in Hc, He.
  unfold step2. rewrite step2_rows. cbn [ticket_sheet].
  unfold step1. rewrite step1_rows. cbn [ticket_sheet].
  unfold read_master_names at 1. cbn [master_sheet]. fold (read_master_names st).
  rewrite !map_rows_compose, nth_error_map_rows, Hn. cbn [option_map].
  eexists. split; [reflexivity|].
  set (r1 := on_ticket (suggest_cells _ _ _ (read_master_names st)) (2 + i) r).
  assert (E1 : r1 = set_cell (set_cell r 13 s) 14 (show_score b)).
  { unfold r1, on_ticket, suggest_cells. apply Nat.ltb_ge in Hl. now rewrite Hl, Hs. }
  assert (L1 : (length r1 <? 8) = false).
  { apply Nat.ltb_ge. rewrite E1, !length_set_cell. lia. }
  set (r2 := on_ticket autofill_cells (2 + i) r1).
  assert (E2 : r2 = set_cell r1 15 s).
  { unfold r2, on_ticket. rewrite L1, autofill_cells_due. unfold fill_due.
    cbn [ticket_of t_mode t_suggested t_approved].
    assert (C4 : cell r1 4 = cell r 4) by (rewrite E1, !cell_set_cell; reflexivity).
    assert (C13 : cell r1 13 = s) by (rewrite E1, !cell_set_cell; reflexivity).
    assert (C15 : cell r1 15 = []) by (rewrite E1, !cell_set_cell; exact Ha).
    rewrite C4, C13, C15. apply text_eqb_neq in He. apply truthy_nonempty in Hne.
    now rewrite He, Hdup, Hne. }
  assert (L2 : (length r2 <? 8) = false).
  { apply Nat.ltb_ge. apply Nat.ltb_ge in L1. rewrite E2, length_set_cell. lia. }
  assert (C : exists ups,
            commit_row dparse (read_master_names st) (ticket_of (2 + i) r2)
            = Committed ups).
  { unfold commit_row. cbn [ticket_of t_approved t_mode t_commit_status t_journey_date].
    assert (C4 : cell r2 4 = cell r 4)
      by (rewrite E2, E1, !cell_set_cell; reflexivity).
    assert (C15 : cell r2 15 = s) by (rewrite E2, cell_set_cell; reflexivity).
    assert (C16 : cell r2 16 = cell r 16)
      by (rewrite E2, E1, !cell_set_cell; reflexivity).
    rewrite C4, C15, C16. apply text_eqb_neq in He, Hc. apply truthy_nonempty in Hne.
    rewrite He, Hc, Hne. cbn [negb orb].
    destruct (find_master (read_master_names st) s) as [g|] eqn:Ef.
    - destruct (DateHelper.is_departure_date dparse (cell r2 0)); eexists; reflexivity.
    - unfold find_master in Ef. pose proof (find_none _ _ Ef m Hin) as Hm.
      cbn beta in Hm. rewrite Hraw, text_eqb_refl in Hm. discriminate. }
  destruct C as [ups C].
  assert (E3 : on_ticket (status_cells dparse (read_master_names st)) (2 + i) r2
               = set_cell r2 16 COMMITTED).
  { unfold on_ticket, status_cells. now rewrite L2, C. }
  fold r1. fold r2. rewrite E3, E2, E1, !cell_set_cell. repeat split.
Qed.

End Unattended.

(** ** The other fields of a flight *)


Section FlightFields.

Import FlightExtractor.



End FlightFields.

(** ** Instances of the properties above *)

Lemma best_score_is_the_score_of_the_first_best_guest_witness :
  snd (NameMatcher.match_against_master sample_partial_ratio sample_token_sort_ratio
         (str "Rahul Sharma") sample_master)
  = 100%Q.
Proof.
  pose proof (best_score_is_the_score_of_the_first_best_guest sample_partial_ratio
                sample_token_sort_ratio (str "Rahul Sharma") sample_master) as H.
  assert (Hn : str "Rahul Sharma" <> []) by (vm_compute; discriminate).
  specialize (H Hn). cbv zeta in H.
  destruct (fst (NameMatcher.match_against_master sample_partial_ratio
                   sample_token_sort_ratio (str "Rahul Sharma") sample_master))
    as [|c more] eqn:E.
  - vm_compute in E. discriminate.
  - destruct H as [H _]. rewrite H.
    assert (Hc : c = Candidate (Master (str "RAHUL SHARMA") (str "RAHUL SHARMA") 3
                                       (str "Delhi") (str "Lawn")) 100%Q).
    { vm_compute in E. injection E as <- _. reflexivity. }
    rewrite Hc. reflexivity.
Defined.

Lemma train_rows_read_back_witness :
  exists rows,
    GoogleSheetsManager.append_ticket_data (fun _ => true) [] sample_train_record
    = ([rows], true)
    /\ SheetManager.ticket_entries 2 rows
       = [SheetManager.Ticket 2 (str "2026-02-20") (str "16:25") (str "2026-02-21")
            (str "05:40") (str "TRAIN") (str "B2/34/LB") (str "12301 / RAJDHANI")
            (str "Rahul Sharma") (str "12301") (str "RAJDHANI") (str "CNF")
            (str "6562526496") (str "t.pdf") [] [] [] []].
Proof.
  destruct (train_rows_read_back (fun _ => true) [] sample_train_record 2)
    as (rows & Ha & Hl & Hr).
  - reflexivity.
  - reflexivity.
  - discriminate.
  - exists rows. split; [exact Ha|].
    specialize (Hr 0 _ eq_refl).
    destruct (SheetManager.ticket_entries 2 rows) as [|t [|t' l]];
      try discriminate.
    cbn [nth_error] in Hr. injection Hr as ->. vm_compute. reflexivity.
Defined.

Lemma flight_rows_read_back_witness :
  exists rows,
    GoogleSheetsManager.append_ticket_data (fun _ => true) [] sample_flight_record
    = ([rows], true)
    /\ SheetManager.ticket_entries 2 rows
       = [SheetManager.Ticket 2 (str "20 Feb 2026") (str "09:10") [] (str "11:25")
            (str "FLIGHT") [] (str "IndiGo 6E 2134") (str "Mr Rahul Sharma")
            (str "6E 2134") (str "IndiGo") (str "Delhi → Pune") (str "ABC123")
            (str "f.pdf") [] [] [] []].
Proof.
  destruct (flight_rows_read_back (fun _ => true) [] sample_flight_record 2)
    as (rows & Ha & Hl & Hr).
  - reflexivity.
  - reflexivity.
  - discriminate.
  - exists rows. split; [exact Ha|].
    specialize (Hr 0 _ eq_refl).
    destruct (SheetManager.ticket_entries 2 rows) as [|t [|t' l]];
      try discriminate.
    cbn [nth_error] in Hr. injection Hr as ->. vm_compute. reflexivity.
Defined.

Lemma error_record_appends_one_inert_row_witness :
  GoogleSheetsManager.append_ticket_data (fun _ => true) []
    (error_record (str "PNR not found in ticket") (str "u.pdf") [])
  = ([[[[]; []; []; []; str "ERROR"; []; []; []; []; [];
        str "ERROR: PNR not found in ticket"; []; str "u.pdf"]]], true).
Proof.
  destruct (error_record_appends_one_inert_row (fun _ => true) []
              (error_record (str "PNR not found in ticket") (str "u.pdf") [])
              (str "PNR not found in ticket")) as [H _].
  - reflexivity.
  - vm_compute. discriminate.
  - vm_compute in H |- *. exact H.
Defined.

Lemma unsuccessful_lookup_loses_the_pnr_witness :
  td_pnr (TicketProcessor.process_ticket failing_lookup iso_dparse
            (Ok (str "IRCTC e-ticket PNR: 6562526496 coach B2 berth 34")) (str "t.pdf"))
  = str "UNKNOWN".
Proof.
  destruct (unsuccessful_lookup_loses_the_pnr failing_lookup iso_dparse (fun _ => true)
              (str "IRCTC e-ticket PNR: 6562526496 coach B2 berth 34") (str "t.pdf")
              (str "6562526496") (ApiResponse false None) [])
    as (_ & H & _).
  - vm_compute. reflexivity.
  - vm_compute. reflexivity.
  - vm_compute. discriminate.
  - reflexivity.
  - now left.
  - exact H.
Defined.

Lemma error_rows_are_left_alone_witness :
  nth_error
    (ticket_sheet (VerificationWorkflow.step2_autofill_and_commit iso_dparse sample_sheets))
    2
  = Some [[]; []; []; []; str "ERROR"; []; []; []; []; [];
          str "ERROR: PNR not found in ticket"; []; str "u.pdf"].
Proof.
  destruct (error_rows_are_left_alone sample_partial_ratio sample_token_sort_ratio
              iso_dparse sample_show_score sample_sheets 2
              [[]; []; []; []; str "ERROR"; []; []; []; []; [];
               str "ERROR: PNR not found in ticket"; []; str "u.pdf"])
    as (_ & H & _).
  - reflexivity.
  - reflexivity.
  - exact H.
Defined.

Lemma unknown_approved_name_is_reported_witness :
  VerificationWorkflow.commit_row iso_dparse sample_master
    (with_approved (sample_ticket (str "2026-02-20") []) (str "Nobody"))
  = VerificationWorkflow.NotFound (str "ERROR: 'Nobody' not found").
Proof.
  destruct (unknown_approved_name_is_reported iso_dparse sample_master
              (with_approved (sample_ticket (str "2026-02-20") []) (str "Nobody")))
    as [[H _] _].
  - vm_compute. discriminate.
  - vm_compute. discriminate.
  - vm_compute. discriminate.
  - apply H. intros m Hin. cbn [sample_master In] in Hin.
    destruct Hin as [<- | [<- | []]]; vm_compute; discriminate.
Defined.

Lemma commit_writes_the_row_of_the_first_guest_of_that_name_witness :
  exists i r,
    nth_error (master_sheet sample_sheets) i = Some r
    /\ upper (strip (cell r 0)) = upper (str "Rahul Sharma")
    /\ i + 2 = 3.
Proof.
  destruct (commit_writes_the_row_of_the_first_guest_of_that_name iso_dparse sample_sheets
              (sample_ticket (str "2026-02-20") [])
              (updates_of
                 (VerificationWorkflow.commit_row iso_dparse
                    (SheetManager.read_master_names sample_sheets)
                    (sample_ticket (str "2026-02-20") []))))
    as (i & r & Hn & Hu & _ & _ & Hrows).
  - vm_compute. reflexivity.
  - exists i, r. split; [exact Hn|]. split; [exact Hu|].
    vm_compute in Hrows. inversion Hrows as [|u l Hrow _]. subst. symmetry. exact Hrow.
Defined.

Lemma unique_match_is_committed_unattended_witness :
  exists r',
    nth_error
      (ticket_sheet
         (VerificationWorkflow.step2_autofill_and_commit iso_dparse
            (VerificationWorkflow.step1_match_and_suggest sample_partial_ratio
               sample_token_sort_ratio sample_show_score sample_sheets))) 0
    = Some r'
    /\ cell r' 13 = str "RAHUL SHARMA" /\ cell r' 15 = str "RAHUL SHARMA"
    /\ cell r' 16 = VerificationWorkflow.COMMITTED.
Proof.
  apply (unique_match_is_committed_unattended sample_partial_ratio sample_token_sort_ratio
           iso_dparse sample_show_score sample_sheets 0
           [str "2026-02-20"; str "16:25"; str "2026-02-21"; str "05:40"; str "TRAIN";
            str "B2/34/LB"; str "12301 / RAJDHANI"; str "Mr Rahul Sharma"; str "12301";
            str "RAJDHANI"; str "CNF"; str "6562526496"; str "t.pdf"]
           (str "RAHUL SHARMA") 100%Q).
  - reflexivity.
  - cbn. lia.
  - reflexivity.
  - vm_compute. reflexivity.
  - vm_compute. discriminate.
  - vm_compute. reflexivity.
Defined.

